(** * The abstract bytecode interpreter of pytype (pytype/vm.py)

    A shallow embedding of the parts of [VirtualMachine] that drive call
    resolution, attribute resolution, operator dispatch, the frame stack and
    the per-offset entry states, together with the graph core
    (pytype/pytd/cfg.py), the frame state (pytype/state.py), the error log
    (pytype/errors.py) and the container values (pytype/abstract.py) they
    rest on.

    Python objects that are shared by reference (Variables, Frames) live in
    stores and are named by handles; every method runs in a state-and-exception
    monad over the interpreter state, so a raised exception keeps the
    mutations made before it, as in Python. *)

From Stdlib Require Import Ascii String List Bool Arith Lia.
From stdpp Require Import base option list gmap strings.

(** ** Exceptions and the state-and-exception monad *)

(** What a failed call carries (abstract.FailedFunctionCall and its
    subclasses: wrong argument count, wrong argument types, ...). *)
Inductive FailedCall : Type :=
  | WrongArgCount (name : string) (passed expected : nat)
  | WrongArgTypes (name : string)
  | OtherFailedCall (name : string).

Inductive Exc : Type :=
  | RecursionException
  | VirtualMachineError (msg : string)
  | ByteCodeException (exception_type : string)
  | FailedFunctionCall (e : FailedCall)
  | TypeParameterError (type_param_name : string)
  | ProgramTooComplexError
  | AssertionError
  | AttributeError
  | IndexError
  | ValueError
  | KeyError (name : string).

Inductive Res (A : Type) : Type :=
  | Ok (a : A)
  | Raise (e : Exc).
Arguments Ok {A} a.
Arguments Raise {A} e.

Definition M (S A : Type) : Type := S -> Res A * S.

Definition ret {S A} (a : A) : M S A := fun s => (Ok a, s).
Definition raise {S A} (e : Exc) : M S A := fun s => (Raise e, s).
Definition bind {S A B} (m : M S A) (k : A -> M S B) : M S B :=
  fun s => match m s with
           | (Ok a, s') => k a s'
           | (Raise e, s') => (Raise e, s')
           end.
Definition gets {S A} (f : S -> A) : M S A := fun s => (Ok (f s), s).
Definition modify {S} (f : S -> S) : M S unit := fun s => (Ok tt, f s).

(** [try m except h]: the handler [h] picks the exceptions it catches. *)
Definition try_except {S A} (m : M S A) (h : Exc -> option (M S A)) : M S A :=
  fun s => match m s with
           | (Ok a, s') => (Ok a, s')
           | (Raise e, s') =>
               match h e with
               | Some k => k s'
               | None => (Raise e, s')
               end
           end.

(** Python's [assert]. *)
Definition assert {S} (b : bool) : M S unit :=
  if b then ret tt else raise AssertionError.

Declare Scope vm_scope.
Delimit Scope vm_scope with vm.
Notation "'let*' x ':=' m 'in' k" := (bind m (fun x => k))
  (at level 10, x pattern, m at level 100, k at level 200) : vm_scope.
Notation "m ;;; k" := (bind m (fun _ => k))
  (at level 100, right associativity) : vm_scope.
Open Scope vm_scope.

Definition is_ok {A} (r : Res A) : bool :=
  match r with Ok _ => true | Raise _ => false end.

(** ** Graph core (pytype/pytd/cfg.py) *)

Module Cfg.

(** CFG nodes and Variables are handles into the Program that owns them. *)
Abbreviation CFGNode := nat (only parsing).
Abbreviation Var := nat (only parsing).

(** A Binding object is named by its Variable and its position in it. *)
Abbreviation Binding := (nat * nat)%type (only parsing).
Abbreviation SourceSet := (gset (nat * nat)) (only parsing).

(** The abstract values vm.py tells apart. [Instance] carries [cls], the
    Variable of its class; the other values have no [cls]. *)
Inductive Value : Type :=
  | Unsolvable
  | Unknown
  | Class (name : string)
  | Instance (cls : Var)
  | Function (name : string).

#[export] Instance Value_eq_dec : EqDecision Value.
Proof. solve_decision. Defined.

Record Origin : Type := mkOrigin {
  where_ : CFGNode;
  source_sets : gset SourceSet
}.

#[export] Instance Origin_eq_dec : EqDecision Origin.
Proof. solve_decision. Defined.

Record BindingData : Type := mkBinding {
  data : Value;
  origins : list Origin
}.

#[export] Instance BindingData_eq_dec : EqDecision BindingData.
Proof. solve_decision. Defined.

Record VariableData : Type := mkVariable {
  name : string;
  bindings : list BindingData
}.

Record CFGNodeData : Type := mkCFGNode {
  node_name : option string;
  outgoing : list CFGNode
}.

Record Program : Type := mkProgram {
  cfg_nodes : list CFGNodeData;
  variables : list VariableData;
  complexity : nat;
  abort_on_complex : bool;
  max_complexity : nat
}.

Definition set_cfg_nodes (f : list CFGNodeData -> list CFGNodeData) (p : Program) :=
  mkProgram (f (cfg_nodes p)) (variables p) (complexity p)
            (abort_on_complex p) (max_complexity p).
Definition set_variables (f : list VariableData -> list VariableData) (p : Program) :=
  mkProgram (cfg_nodes p) (f (variables p)) (complexity p)
            (abort_on_complex p) (max_complexity p).
Definition set_complexity (f : nat -> nat) (p : Program) :=
  mkProgram (cfg_nodes p) (variables p) (f (complexity p))
            (abort_on_complex p) (max_complexity p).

(** [v.bindings]; a handle the Program never issued has none. *)
Definition var_bindings (p : Program) (v : Var) : list BindingData :=
  match variables p !! v with
  | Some vd => bindings vd
  | None => []
  end.

(** [v.data]: the values of all bindings, in order. *)
Definition var_data (p : Program) (v : Var) : list Value :=
  map data (var_bindings p v).

(** The Binding objects of [v], in order, each with its value. *)
Definition binding_refs (p : Program) (v : Var) : list (Binding * Value) :=
  imap (fun i b => ((v, i), data b)) (var_bindings p v).

(** Modelled from the spec: Program.NewVariable of cfg.py, which is not among
    the sources.  "NewVariable(name) -> Variable": a fresh Variable without
    bindings. *)
Definition NewVariable (nm : string) (p : Program) : Var * Program :=
  (length (variables p), set_variables (fun vs => vs ++ [mkVariable nm []]) p).

(** Modelled from the spec: Binding.AddOrigin of cfg.py.  An Origin is "a
    (CFGNode, set of SourceSets) pair": a source set added at a node that
    already has an Origin joins that Origin's set. *)
Fixpoint add_origin (w : CFGNode) (ss : SourceSet) (os : list Origin) : list Origin :=
  match os with
  | [] => [mkOrigin w {[ ss ]}]
  | o :: os' =>
      if Nat.eqb (where_ o) w
      then mkOrigin w (source_sets o ∪ {[ ss ]}) :: os'
      else o :: add_origin w ss os'
  end.

Definition AddOrigin (b : Binding) (w : CFGNode) (ss : SourceSet) (p : Program) : Program :=
  set_variables
    (alter (fun vd => mkVariable (name vd)
              (alter (fun bd => mkBinding (data bd) (add_origin w ss (origins bd)))
                     (snd b) (bindings vd)))
           (fst b)) p.

(** Modelled from the spec: Variable.AddBinding of cfg.py.
    "AddBinding(value, source_set, where) -> Binding: constructs a Binding,
    attaches an Origin at where with the given SourceSet ... and returns
    it."  Without [where] no Origin is attached. *)
Definition AddBinding (v : Var) (d : Value)
    (origin : option (SourceSet * CFGNode)) (p : Program) : Binding * Program :=
  let b := (v, length (var_bindings p v)) in
  let p1 := set_variables
              (alter (fun vd => mkVariable (name vd) (bindings vd ++ [mkBinding d []])) v) p in
  match origin with
  | Some (ss, w) => (b, AddOrigin b w ss p1)
  | None => (b, p1)
  end.

(** Modelled from the code comment in call_function ("similar to
    PasteVariable() except that it adds funcv as an additional source"):
    Variable.PasteVariable copies every binding of [src] into [dst], with an
    Origin at [w] whose source set is the copied binding. *)
Definition PasteVariable (dst src : Var) (w : CFGNode) (p : Program) : Program :=
  fold_left
    (fun q '(b, d) => snd (AddBinding dst d (Some ({[ b ]}, w)) q))
    (binding_refs p src) p.

(** Modelled from the spec: Program.MergeVariables of cfg.py.  "Produces a
    new Variable whose Bindings are the union of all input Bindings' data,
    each re-attached with an Origin at node whose SourceSet is the single
    originating Binding ... If the input list has exactly one element, it is
    used as an alias instead of copying." *)
Definition MergeVariables (n : CFGNode) (nm : string) (vs : list Var)
    (p : Program) : Var * Program :=
  match vs with
  | [v] => (v, p)
  | _ =>
      let '(r, p1) := NewVariable nm p in
      (r, fold_left (fun q v => PasteVariable r v n q) vs p1)
  end.

(** Modelled from the spec: the complexity governor of cfg.py.  Every graph
    mutation adds its cost to the Program's counter; with abort_on_complex
    set, a counter above the ceiling is the fatal ProgramTooComplexError. *)
Definition charge (cost : nat) : M Program unit :=
  modify (set_complexity (fun c => c + cost)) ;;;
  let* p := gets id in
  if abort_on_complex p && (max_complexity p <? complexity p)
  then raise ProgramTooComplexError
  else ret tt.

(** Modelled from the spec: Program.NewCFGNode.  A node without edges has
    branching factor 0. *)
Definition NewCFGNode (nm : option string) : M Program CFGNode :=
  charge 0 ;;;
  let* n := gets (fun p => length (cfg_nodes p)) in
  modify (set_cfg_nodes (fun ns => ns ++ [mkCFGNode nm []])) ;;;
  ret n.

(** Branching factor of [n] once it also leads to [to]. *)
Definition branching_after (p : Program) (n to : CFGNode) : nat :=
  match cfg_nodes p !! n with
  | Some nd => if decide (to ∈ outgoing nd) then length (outgoing nd)
               else S (length (outgoing nd))
  | None => 0
  end.

(** Modelled from the spec: CFGNode.ConnectTo, with a cost "proportional to
    branching factor" (here: the branching factor itself). *)
Definition ConnectTo (n to : CFGNode) : M Program unit :=
  let* p := gets id in
  charge (branching_after p n to) ;;;
  modify (set_cfg_nodes
            (alter (fun nd => if decide (to ∈ outgoing nd) then nd
                              else mkCFGNode (node_name nd) (outgoing nd ++ [to])) n)).

(** Modelled from the spec: CFGNode.ConnectNew, "connect a node to a freshly
    created successor". *)
Definition ConnectNew (n : CFGNode) (nm : option string) : M Program CFGNode :=
  let* to := NewCFGNode nm in
  ConnectTo n to ;;;
  ret to.

(** A graph mutation, and the run of a sequence of them. *)
Inductive Mutation : Type :=
  | MNewCFGNode (nm : option string)
  | MConnectTo (n to : CFGNode)
  | MConnectNew (n : CFGNode) (nm : option string).

Definition mutate (m : Mutation) : M Program unit :=
  match m with
  | MNewCFGNode nm => NewCFGNode nm ;;; ret tt
  | MConnectTo n to => ConnectTo n to
  | MConnectNew n nm => ConnectNew n nm ;;; ret tt
  end.

Fixpoint mutate_all (ms : list Mutation) : M Program unit :=
  match ms with
  | [] => ret tt
  | m :: ms' => mutate m ;;; mutate_all ms'
  end.

End Cfg.

Import Cfg.

(** ** Frame state (pytype/state.py) *)

(** vm.py: [Block = collections.namedtuple("Block", ["type", "handler", "level"])]. *)
Record Block : Type := mkBlock {
  block_type : string;
  handler : option nat;
  level : nat
}.

#[export] Instance Block_eq_dec : EqDecision Block.
Proof. solve_decision. Defined.

(** Modelled from the spec: FrameState of state.py, "an immutable snapshot
    threaded through opcode execution: current CFGNode, operand stack, block
    stack, path condition, pending exception info, and a termination reason".
    The top of the operand stack is the last element, as in Python. *)
Record FrameState : Type := mkState {
  data_stack : list Var;
  block_stack : list Block;
  node : CFGNode;
  exception : option string;
  condition : option nat;
  why : option string
}.

Module State.

Definition init (n : CFGNode) : FrameState := mkState [] [] n None None None.

Definition set_data_stack (st : list Var) (s : FrameState) : FrameState :=
  mkState st (block_stack s) (node s) (exception s) (condition s) (why s).
Definition set_why (w : string) (s : FrameState) : FrameState :=
  mkState (data_stack s) (block_stack s) (node s) (exception s) (condition s) (Some w).
Definition set_exception (e : string) (s : FrameState) : FrameState :=
  mkState (data_stack s) (block_stack s) (node s) (Some e) (condition s) (why s).
Definition change_cfg_node (n : CFGNode) (s : FrameState) : FrameState :=
  mkState (data_stack s) (block_stack s) n (exception s) (condition s) (why s).
Definition push_block (b : Block) (s : FrameState) : FrameState :=
  mkState (data_stack s) (block_stack s ++ [b]) (node s) (exception s) (condition s) (why s).

Definition push (vs : list Var) (s : FrameState) : FrameState :=
  set_data_stack (data_stack s ++ vs) s.

(** [state.popn(n)]: the state without its [n] topmost values, and those
    values, deepest first.  A stack that is too short is a stack-machine
    fault. *)
Definition popn {S} (n : nat) (s : FrameState) : M S (FrameState * list Var) :=
  if length (data_stack s) <? n then raise IndexError
  else let k := length (data_stack s) - n in
       ret (set_data_stack (take k (data_stack s)) s, drop k (data_stack s)).

Definition pop {S} (s : FrameState) : M S (FrameState * Var) :=
  match last (data_stack s) with
  | Some v => ret (set_data_stack (take (length (data_stack s) - 1) (data_stack s)) s, v)
  | None => raise IndexError
  end.

(** Modelled from the spec: the operand stack of a FrameState is a
    "sequence of Variables", and state.py is not among the sources.
    [state.pop_and_discard()] is the state whose stack is the slice without
    the last value: nothing is raised, and an empty stack stays empty. *)
Definition pop_and_discard {S} (s : FrameState) : M S FrameState :=
  ret (set_data_stack (take (length (data_stack s) - 1) (data_stack s)) s).

Definition top {S} (s : FrameState) : M S Var :=
  match last (data_stack s) with
  | Some v => ret v
  | None => raise IndexError
  end.

(** Modelled from the spec, as [pop_and_discard]: [state.topn(n)] is the
    slice of the last [n] values of the stack, deepest first; nothing is
    raised, and a stack that holds fewer values gives them all. *)
Definition topn {S} (n : nat) (s : FrameState) : M S (list Var) :=
  ret (drop (length (data_stack s) - n) (data_stack s)).

(** [if state.why]: a termination reason is set. *)
Definition has_why (s : FrameState) : bool :=
  match why s with
  | Some w => negb (String.eqb w "")
  | None => false
  end.

Definition why_is (w : string) (s : FrameState) : bool :=
  match why s with
  | Some w' => String.eqb w' w
  | None => false
  end.

(** [state.forward_cfg_node()]: the state at a fresh successor of its node. *)
Definition forward_cfg_node (s : FrameState) : M Program FrameState :=
  let* n := ConnectNew (node s) None in
  ret (change_cfg_node n s).

(** Position-wise merge of the recorded stack with the incoming one. *)
Fixpoint merge_slots (n : CFGNode) (slots : list (Var * Var)) (p : Program)
    : list Var * Program :=
  match slots with
  | [] => ([], p)
  | (o, v) :: rest =>
      let '(m, p1) := MergeVariables n "slot" [o; v] p in
      let '(ms, p2) := merge_slots n rest p1 in
      (m :: ms, p2)
  end.

(** Modelled from the spec: FrameState.merge_into of state.py.  Nothing
    recorded yet: the incoming state is the result.  Otherwise "the new
    incoming state is merged with the existing one via MergeVariables
    per-slot (... merged position-wise; block stacks must be structurally
    identical or merging is undefined)"; what the spec does not mention stays
    as recorded. *)
Definition merge_into (self : FrameState) (other : option FrameState)
    : M Program FrameState :=
  match other with
  | None => ret self
  | Some o =>
      assert (bool_decide (length (data_stack self) = length (data_stack o))) ;;;
      assert (bool_decide (block_stack self = block_stack o)) ;;;
      fun p =>
        let '(st, p') := merge_slots (node o) (zip (data_stack o) (data_stack self)) p in
        (Ok (set_data_stack st o), p')
  end.

End State.

(** ** Opcodes and the error log (pytype/errors.py) *)

Record Opcode : Type := mkOpcode {
  op_index : nat;
  op_name : string;
  op_arg : option nat;
  op_next : nat;
  op_target : nat;
  carry_on_to_next : bool
}.

(** One record per reporting method of the error log that vm.py calls in the
    functions below. *)
Inductive Error : Type :=
  | invalid_function_call (op : Opcode) (e : FailedCall)
  | unsupported_operands (op : Opcode) (n : CFGNode) (name : string) (x y : Var)
  | none_attr (op : Opcode) (attr : string)
  | attribute_error (op : Opcode) (obj : Var) (attr : string)
  | type_param_error (op : Opcode) (obj : Var) (attr : string) (type_param_name : string).

(** Modelled from the spec: the error log, "a per-error-kind reporting
    callback invoked synchronously at the point of detection".  The log keeps
    the reports in order; [save] is the position reached and [revert_to]
    drops what was reported after it. *)
Module ErrorLog.
Definition t := list Error.
Definition report (e : Error) (log : t) : t := log ++ [e].
Definition save (log : t) : nat := length log.
Definition revert_to (checkpoint : nat) (log : t) : t := take checkpoint log.
End ErrorLog.

(** ** Code objects and frames *)

(** A code object, as blocks.process_code leaves it: [co_id] stands for the
    identity of the object ([code is f.f_code]), [order] is the list of basic
    blocks and [co_code] the opcodes. *)
Record Code : Type := mkCode {
  co_id : nat;
  co_name : string;
  co_code : list Opcode;
  order : list (list Opcode);
  co_newlocals : bool
}.

(** Modelled from the spec: Frame of state.py, "a single activation: code
    reference, globals map, locals map, closure cell array, a map from
    block-start position to its ... entry FrameState, and a dedicated
    return-value Variable".  Maps of names are named by handles. *)
Record Frame : Type := mkFrame {
  f_code : Code;
  f_globals : nat;
  f_locals : nat;
  f_back : option nat;
  f_callargs : list (string * Var);
  f_closure : option Var;
  states : gmap nat FrameState;
  return_variable : Var;
  current_opcode : option Opcode
}.

Definition set_states (f : gmap nat FrameState -> gmap nat FrameState) (fr : Frame) : Frame :=
  mkFrame (f_code fr) (f_globals fr) (f_locals fr) (f_back fr) (f_callargs fr)
          (f_closure fr) (f (states fr)) (return_variable fr) (current_opcode fr).
Definition set_current_opcode (o : option Opcode) (fr : Frame) : Frame :=
  mkFrame (f_code fr) (f_globals fr) (f_locals fr) (f_back fr) (f_callargs fr)
          (f_closure fr) (states fr) (return_variable fr) o.

(** ** The interpreter state *)

(** The records of the module's logger that the functions below write. *)
Inductive LogRecord : Type :=
  | LogCallingBinaryOperator (name : string)
  | LogGettingAttr (attr : string) (obj : Var)
  | LogNoAttrOn (attr : string) (val : Value)
  | LogGotChoice (attr : string) (obj : Var) (val : Value) (attr_var : Var)
  | LogFailedToFind (name : string) (x : Var)
  | LogNoReverseOperator (rname : string) (y : Var)
  | LogNoInplaceOperator (iname : string) (x : Var)
  | LogResult (result : Var)
  | LogCantAccess (container index : Var)
  | LogDetectedRecursion (co_name : string)
  | LogMakeFrame
  | LogSkippingBlock (first : nat).

(** Frames are objects: [frames] and [frame] hold handles into [frame_store]. *)
Record VM : Type := mkVM {
  frames : list nat;
  frame : option nat;
  frame_store : list Frame;
  errorlog : ErrorLog.t;
  program : Program;
  root_cfg_node : CFGNode;
  maximum_depth : option nat;
  next_dict : nat;
  log : list LogRecord
}.

Definition set_frames (f : list nat -> list nat) (vm : VM) : VM :=
  mkVM (f (frames vm)) (frame vm) (frame_store vm) (errorlog vm) (program vm)
       (root_cfg_node vm) (maximum_depth vm) (next_dict vm) (log vm).
Definition set_frame (x : option nat) (vm : VM) : VM :=
  mkVM (frames vm) x (frame_store vm) (errorlog vm) (program vm)
       (root_cfg_node vm) (maximum_depth vm) (next_dict vm) (log vm).
Definition set_frame_store (f : list Frame -> list Frame) (vm : VM) : VM :=
  mkVM (frames vm) (frame vm) (f (frame_store vm)) (errorlog vm) (program vm)
       (root_cfg_node vm) (maximum_depth vm) (next_dict vm) (log vm).
Definition set_errorlog (f : ErrorLog.t -> ErrorLog.t) (vm : VM) : VM :=
  mkVM (frames vm) (frame vm) (frame_store vm) (f (errorlog vm)) (program vm)
       (root_cfg_node vm) (maximum_depth vm) (next_dict vm) (log vm).
Definition set_program (x : Program) (vm : VM) : VM :=
  mkVM (frames vm) (frame vm) (frame_store vm) (errorlog vm) x
       (root_cfg_node vm) (maximum_depth vm) (next_dict vm) (log vm).
Definition set_maximum_depth (x : option nat) (vm : VM) : VM :=
  mkVM (frames vm) (frame vm) (frame_store vm) (errorlog vm) (program vm)
       (root_cfg_node vm) x (next_dict vm) (log vm).
Definition set_next_dict (x : nat) (vm : VM) : VM :=
  mkVM (frames vm) (frame vm) (frame_store vm) (errorlog vm) (program vm)
       (root_cfg_node vm) (maximum_depth vm) x (log vm).
Definition set_log (f : list LogRecord -> list LogRecord) (vm : VM) : VM :=
  mkVM (frames vm) (frame vm) (frame_store vm) (errorlog vm) (program vm)
       (root_cfg_node vm) (maximum_depth vm) (next_dict vm) (f (log vm)).

(** Run a Program operation on [self.program]. *)
Definition on_program {A} (m : M Program A) : M VM A :=
  fun vm => let '(r, p) := m (program vm) in (r, set_program p vm).

(** The same for the operations that cannot fail. *)
Definition with_program {A} (f : Program -> A * Program) : M VM A :=
  fun vm => let '(a, p) := f (program vm) in (Ok a, set_program p vm).

Definition update_program (f : Program -> Program) : M VM unit :=
  modify (fun vm => set_program (f (program vm)) vm).

(** abstract.FunctionArgs. *)
Record FunctionArgs : Type := mkArgs {
  posargs : list Var;
  namedargs : option Var;
  starargs : option Var;
  starstarargs : option Var
}.

(** What vm.py asks of the modules that are not part of it: the capability
    interface of the abstract values ([call], [get_attribute_generic]), the
    visibility query of the graph core, the converter's constants, the opcode
    handlers that are not embedded below, and the interpreter's
    [reverse_operators] option. *)
Class AbstractOps : Type := {
  call : Value -> CFGNode -> Binding -> FunctionArgs -> M VM (CFGNode * Var);
  get_attribute_generic :
    Value -> CFGNode -> string -> Binding -> M VM (CFGNode * option Var);
  is_visible : Program -> Binding -> CFGNode -> bool;
  none_type : Var;
  other_bytecode : string -> option (FrameState -> Opcode -> M VM FrameState);
  reverse_operators : bool
}.

(** ** The virtual machine (pytype/vm.py) *)

Section VirtualMachine.
Context `{AbstractOps}.


(** [self.frame.current_opcode]: an attribute of the current frame, set while
    an instruction runs. *)
Definition self_frame_current_opcode : M VM Opcode :=
  let* vm := gets id in
  match frame vm with
  | None => raise AttributeError
  | Some f =>
      match frame_store vm !! f with
      | Some fr =>
          match current_opcode fr with
          | Some op => ret op
          | None => raise AttributeError
          end
      | None => raise AttributeError
      end
  end.

(** [self.frame.<attr> = ...] on the current frame. *)
Definition update_self_frame (f : Frame -> Frame) : M VM unit :=
  let* vm := gets id in
  match frame vm with
  | None => raise AttributeError
  | Some fr => modify (set_frame_store (alter f fr))
  end.

Definition report (e : Error) : M VM unit :=
  modify (set_errorlog (ErrorLog.report e)).

(** [log.debug(...)], [log.info(...)], [log.warning(...)]. *)
Definition log_record (r : LogRecord) : M VM unit :=
  modify (set_log (fun l => l ++ [r])).

(** [self.convert.unsolvable.to_variable(node, name)] and
    [self.convert.create_new_unsolvable(node, name)]: a fresh Variable whose
    only binding is the give-up value, valid from [node] on. *)
Definition create_new_unsolvable (n : CFGNode) (nm : string) : M VM Var :=
  let* v := with_program (NewVariable nm) in
  let* _ := with_program (AddBinding v Unsolvable (Some (∅, n))) in
  ret v.

(** [obj.Bindings(node)]: the bindings of [obj] visible at [node]. *)
Definition Bindings (p : Program) (obj : Var) (n : CFGNode) : list (Binding * Value) :=
  filter (fun bv => is_visible p (fst bv) n = true) (binding_refs p obj).

(** [obj.Data(node)]. *)
Definition Data (p : Program) (obj : Var) (n : CFGNode) : list Value :=
  map snd (Bindings p obj n).

Definition join_cfg_nodes (nodes : list CFGNode) : M VM CFGNode :=
  assert (negb (bool_decide (nodes = []))) ;;;
  match nodes with
  | [n] => ret n
  | _ =>
      let* r := on_program (NewCFGNode None) in
      (fix connect (ns : list CFGNode) : M VM unit :=
         match ns with
         | [] => ret tt
         | n :: ns' => on_program (ConnectTo n r) ;;; connect ns'
         end) nodes ;;;
      ret r
  end.

Definition join_variables (n : CFGNode) (nm : string) (vs : list Var) : M VM Var :=
  with_program (MergeVariables n nm vs).

(** *** The frame stack *)

Definition push_frame (fr : nat) : M VM unit :=
  modify (set_frames (fun fs => fs ++ [fr])) ;;;
  modify (set_frame (Some fr)).

Definition pop_frame (fr : nat) : M VM unit :=
  let* fs := gets frames in
  match last fs with
  | None => raise IndexError
  | Some popped_frame =>
      modify (set_frames (fun fs => take (length fs - 1) fs)) ;;;
      assert (bool_decide (popped_frame = fr)) ;;;
      let* fs' := gets frames in
      modify (set_frame (last fs'))
  end.

(** The code of the frames on the stack, bottom first. *)
Definition active_codes (vm : VM) : list Code :=
  omap (fun f => f_code <$> frame_store vm !! f) (frames vm).

(** [any(code is f.f_code for f in self.frames)]. *)
Definition is_active (code : Code) (vm : VM) : bool :=
  existsb (fun c => Nat.eqb (co_id code) (co_id c)) (active_codes vm).

(** [convert_locals_or_globals]: a fresh map of names. *)
Definition convert_locals_or_globals : M VM nat :=
  let* d := gets next_dict in
  modify (set_next_dict (S d)) ;;;
  ret d.

Definition make_frame (n : CFGNode) (code : Code) (callargs : list (string * Var))
    (globals locals : option nat) (closure : option Var) (new_locals : bool)
    : M VM nat :=
  let* vm := gets id in
  if is_active code vm then
    log_record (LogDetectedRecursion (co_name code)) ;;;
    raise RecursionException
  else
    log_record LogMakeFrame ;;;
    let* gl :=
      match globals with
      | Some g =>
          assert (bool_decide (is_Some locals)) ;;;
          ret (g, default 0 locals)
      | None =>
          let* fs := gets frames in
          assert (bool_decide (fs = [])) ;;;
          assert (bool_decide (locals = None)) ;;;
          let* d := convert_locals_or_globals in
          ret (d, d)
      end in
    let* l := (if co_newlocals code || new_locals
               then convert_locals_or_globals else ret (snd gl)) in
    let* rv := with_program (NewVariable "return") in
    let* back := gets frame in
    let* fr := gets (fun vm => length (frame_store vm)) in
    modify (set_frame_store
              (fun st => st ++ [mkFrame code (fst gl) l back callargs closure ∅ rv None])) ;;;
    ret fr.

(** *** Call resolution *)

(** The state of the loop of [call_function]: the nodes of the calls that
    succeeded, [error] and the loop's [e] (Python 2 keeps the name bound by
    [except ... as e] after the handler). *)
Definition CallAcc : Type := (list CFGNode * option FailedCall * option FailedCall)%type.

(** The [else] branch of the loop body: copy the bindings of [one_result]
    into [result], each with the source set [{binding, funcv}]. *)
Definition paste_result (result : Var) (new_node : CFGNode) (funcv : Binding)
    (bs : list (Binding * Value)) (p : Program) : Program :=
  fold_left
    (fun q '(binding, d) =>
       let '(copy, q1) := AddBinding result d None q in
       AddOrigin copy new_node {[ binding; funcv ]} q1)
    bs p.

Definition call_function_body (n : CFGNode) (args : FunctionArgs) (result : Var)
    (fv : Binding * Value) (acc : CallAcc) : M VM CallAcc :=
  let '(funcv, func) := fv in
  let '(nodes, error, e) := acc in
  let* r := try_except
              (let* x := call func n funcv args in ret (inr x))
              (fun ex => match ex with
                         | FailedFunctionCall e' => Some (ret (inl e'))
                         | _ => None
                         end) in
  match r with
  | inl e' =>
      ret (nodes, Some (default e' error), Some e')
  | inr (new_node, one_result) =>
      let* bs := gets (fun vm => binding_refs (program vm) one_result) in
      update_program (paste_result result new_node funcv bs) ;;;
      ret (nodes ++ [new_node], error, e)
  end.

Fixpoint call_function_loop (n : CFGNode) (args : FunctionArgs) (result : Var)
    (fs : list (Binding * Value)) (acc : CallAcc) : M VM CallAcc :=
  match fs with
  | [] => ret acc
  | fv :: fs' =>
      let* acc' := call_function_body n args result fv acc in
      call_function_loop n args result fs' acc'
  end.

Definition call_function (n : CFGNode) (funcu : Var) (args : FunctionArgs)
    (fallback_to_unsolvable : bool) : M VM (CFGNode * Var) :=
  let* fs := gets (fun vm => binding_refs (program vm) funcu) in
  assert (negb (bool_decide (fs = []))) ;;;
  let* nm := gets (fun vm => default "" (name <$> variables (program vm) !! funcu)) in
  let* result := with_program (NewVariable ("<return:" +:+ nm +:+ ">")) in
  let* acc := call_function_loop n args result fs ([], None, None) in
  let '(nodes, error, e) := acc in
  if negb (bool_decide (nodes = [])) then
    let* j := join_cfg_nodes nodes in
    ret (j, result)
  else if fallback_to_unsolvable then
    assert (bool_decide (is_Some error)) ;;;
    let* op := self_frame_current_opcode in
    match e with
    | Some e' =>
        report (invalid_function_call op e') ;;;
        let* u := create_new_unsolvable n "failed call" in
        ret (n, u)
    | None => raise (KeyError "e")
    end
  else ret (n, result).

Definition call_function_with_state (state : FrameState) (funcu : Var)
    (pos : list Var) (fallback_to_unsolvable : bool) : M VM (FrameState * Var) :=
  let* r := call_function (node state) funcu (mkArgs pos None None None)
                          fallback_to_unsolvable in
  ret (State.change_cfg_node (fst r) state, snd r).

(** *** Attribute resolution *)

(** The loop of [_retrieve_attr] over the bindings of [obj] visible at the
    node; [nodes] collects the nodes of the bindings that have the attribute. *)
Definition retrieve_attr_body (n : CFGNode) (obj : Var) (attr : string)
    (result : Var) (val : Binding * Value) (nodes : list CFGNode)
    : M VM (list CFGNode) :=
  let* r := try_except
              (get_attribute_generic (snd val) n attr (fst val))
              (fun ex => match ex with
                         | TypeParameterError tp =>
                             Some (let* op := self_frame_current_opcode in
                                   report (type_param_error op obj attr tp) ;;;
                                   let* u := create_new_unsolvable n attr in
                                   ret (n, Some u))
                         | _ => None
                         end) in
  let '(node2, attr_var) := r in
  let* p := gets program in
  match attr_var with
  | None => log_record (LogNoAttrOn attr (snd val)) ;;; ret nodes
  | Some av =>
      if bool_decide (var_bindings p av = []) then
        log_record (LogNoAttrOn attr (snd val)) ;;; ret nodes
      else
        log_record (LogGotChoice attr obj (snd val) av) ;;;
        update_program (PasteVariable result av node2) ;;;
        ret (nodes ++ [node2])
  end.

Fixpoint retrieve_attr_loop (n : CFGNode) (obj : Var) (attr : string)
    (result : Var) (vals : list (Binding * Value)) (nodes : list CFGNode)
    : M VM (list CFGNode) :=
  match vals with
  | [] => ret nodes
  | val :: vals' =>
      let* nodes' := retrieve_attr_body n obj attr result val nodes in
      retrieve_attr_loop n obj attr result vals' nodes'
  end.

Definition _retrieve_attr (n : CFGNode) (obj : Var) (attr : string)
    : M VM (CFGNode * option Var) :=
  let* result := with_program (NewVariable attr) in
  log_record (LogGettingAttr attr obj) ;;;
  let* vals := gets (fun vm => Bindings (program vm) obj n) in
  let* nodes := retrieve_attr_loop n obj attr result vals [] in
  if negb (bool_decide (nodes = [])) then
    let* j := join_cfg_nodes nodes in
    ret (j, Some result)
  else ret (n, None).

(** [getattr(x, "cls", False)]. *)
Definition cls_of (x : Value) : option Var :=
  match x with
  | Instance c => Some c
  | _ => None
  end.

Definition _is_only_none (p : Program) (n : CFGNode) (obj : Var) : bool :=
  (fix loop (xs : list Value) (has_none : bool) : bool :=
     match xs with
     | [] => has_none
     | x :: xs' =>
         match cls_of x with
         | Some c =>
             if bool_decide (var_data p c = var_data p none_type)
             then loop xs' true
             else false
         | None => false
         end
     end) (Data p obj n) true.

Definition load_attr (state : FrameState) (obj : Var) (attr : string)
    : M VM (FrameState * Var) :=
  let* r := _retrieve_attr (node state) obj attr in
  let '(n, result) := r in
  let* result' :=
    match result with
    | None =>
        let* p := gets program in
        (if negb (bool_decide (var_bindings p obj = [])) then
           let* op := self_frame_current_opcode in
           if _is_only_none p (node state) obj
           then report (none_attr op attr)
           else report (attribute_error op obj attr)
         else ret tt) ;;;
        create_new_unsolvable n "bad attr"
    | Some v => ret v
    end in
  ret (State.change_cfg_node n state, result').

Definition load_attr_noerror (state : FrameState) (obj : Var) (attr : string)
    : M VM (FrameState * option Var) :=
  let* r := _retrieve_attr (node state) obj attr in
  ret (State.change_cfg_node (fst r) state, snd r).

(** *** Operators *)

Definition reversable_operators : list string :=
  ["__add__"; "__sub__"; "__mul__";
   "__div__"; "__truediv__"; "__floordiv__";
   "__mod__"; "__divmod__"; "__pow__";
   "__lshift__"; "__rshift__"; "__and__"; "__or__"; "__xor__"].

Definition reverse_operator_name (nm : string) : option string :=
  if bool_decide (nm ∈ reversable_operators)
  then Some ("__r" +:+ String.substring 2 (String.length nm - 2) nm)
  else None.

(** One dispatch of [call_binary_operator]: look [nm] up on [obj] and, when
    it is there, call it with [arg]; the return value joins [results]. *)
Definition dispatch_operator (state : FrameState) (obj : Var) (nm : string)
    (arg : Var) (results : list Var) (missing : LogRecord)
    : M VM (FrameState * list Var) :=
  let* r := load_attr_noerror state obj nm in
  match snd r with
  | None => log_record missing ;;; ret (fst r, results)
  | Some attr =>
      let* c := call_function_with_state (fst r) attr [arg] false in
      ret (fst c, results ++ [snd c])
  end.

(** [call_binary_operator] up to the join of the results. *)
Definition binary_operator_results (state : FrameState) (nm : string) (x y : Var)
    : M VM (FrameState * list Var) :=
  log_record (LogCallingBinaryOperator nm) ;;;
  let* r := dispatch_operator state x nm y [] (LogFailedToFind nm x) in
  match reverse_operator_name nm with
  | Some rname =>
      if reverse_operators
      then dispatch_operator (fst r) y rname x (snd r) (LogNoReverseOperator rname y)
      else ret r
  | None => ret r
  end.

Definition call_binary_operator (state : FrameState) (nm : string) (x y : Var)
    (report_errors : bool) : M VM (FrameState * Var) :=
  let* r := binary_operator_results state nm x y in
  let '(state, results) := r in
  let* result := join_variables (node state) nm results in
  log_record (LogResult result) ;;;
  let* p := gets program in
  (if bool_decide (var_bindings p result = []) && report_errors then
     let* op := self_frame_current_opcode in
     report (unsupported_operands op (node state) nm x y)
   else ret tt) ;;;
  ret (state, result).

(** [iname.replace("i", "", 1)]. *)
Fixpoint remove_first_i (s : string) : string :=
  match s with
  | EmptyString => EmptyString
  | String c s' =>
      if Ascii.eqb c "i"%char then s' else String c (remove_first_i s')
  end.

Definition call_inplace_operator (state : FrameState) (iname : string) (x y : Var)
    : M VM (FrameState * Var) :=
  let* r := load_attr_noerror state x iname in
  match snd r with
  | None =>
      log_record (LogNoInplaceOperator iname x) ;;;
      call_binary_operator (fst r) (remove_first_i iname) x y true
  | Some attr => call_function_with_state (fst r) attr [y] false
  end.

Definition binary_operator (state : FrameState) (nm : string) : M VM FrameState :=
  let* r := State.popn 2 state in
  match snd r with
  | [x; y] =>
      let* c := call_binary_operator (fst r) nm x y true in
      ret (State.push [snd c] (fst c))
  | _ => raise IndexError
  end.

Definition inplace_operator (state : FrameState) (nm : string) : M VM FrameState :=
  let* r := State.popn 2 state in
  match snd r with
  | [x; y] =>
      let* c := call_inplace_operator (fst r) nm x y in
      ret (State.push [snd c] (fst c))
  | _ => raise IndexError
  end.

(** [(container, index) = state.topn(2)]: a slice of fewer than two values
    does not unpack, which is a ValueError. *)
Definition byte_BINARY_SUBSCR (state : FrameState) : M VM FrameState :=
  let* t := State.topn 2 state in
  match t with
  | [container; index] =>
      let* checkpoint := gets (fun vm => ErrorLog.save (errorlog vm)) in
      let* state := binary_operator state "__getitem__" in
      let* top := State.top state in
      let* p := gets program in
      if negb (bool_decide (var_bindings p top = [])) then ret state
      else
        modify (set_errorlog (ErrorLog.revert_to checkpoint)) ;;;
        log_record (LogCantAccess container index) ;;;
        let* _ := with_program (AddBinding top Unsolvable (Some (∅, node state))) in
        ret state
  | _ => raise ValueError
  end.

(** *** Entry states of the blocks *)

(** [frame.<attr>] for a frame object. *)
Definition frame_get {A} (fr : nat) (f : Frame -> A) : M VM A :=
  let* st := gets frame_store in
  match st !! fr with
  | Some x => ret (f x)
  | None => raise AttributeError
  end.

(** [self.frame], which must not be None to have attributes. *)
Definition self_frame : M VM nat :=
  let* f := gets frame in
  match f with
  | Some fr => ret fr
  | None => raise AttributeError
  end.

(** [frame.states[target] = state.merge_into(frame.states.get(target))]. *)
Definition store_state (fr : nat) (target : nat) (state : FrameState) : M VM unit :=
  let* old := frame_get fr (fun x => states x !! target) in
  let* merged := on_program (State.merge_into state old) in
  modify (set_frame_store (alter (set_states <[target := merged]>) fr)).

Definition store_jump (target : nat) (state : FrameState) : M VM unit :=
  let* fr := self_frame in
  store_state fr target state.

(** *** Opcode handlers *)

Definition byte_POP_TOP (state : FrameState) : M VM FrameState :=
  State.pop_and_discard state.

Definition byte_DUP_TOP (state : FrameState) : M VM FrameState :=
  let* t := State.top state in
  ret (State.push [t] state).

Definition byte_JUMP_FORWARD (state : FrameState) (op : Opcode) : M VM FrameState :=
  let* s := on_program (State.forward_cfg_node state) in
  store_jump (op_target op) s ;;;
  ret state.

Definition byte_JUMP_ABSOLUTE (state : FrameState) (op : Opcode) : M VM FrameState :=
  let* s := on_program (State.forward_cfg_node state) in
  store_jump (op_target op) s ;;;
  ret state.

Definition byte_BREAK_LOOP (state : FrameState) : M VM FrameState :=
  ret (State.set_why "break" state).

Definition byte_CONTINUE_LOOP (state : FrameState) (op : Opcode) : M VM FrameState :=
  ret (State.set_why "continue" state).

Definition binary_opcodes : list (string * string) :=
  [("BINARY_ADD", "__add__"); ("BINARY_SUBTRACT", "__sub__");
   ("BINARY_DIVIDE", "__div__"); ("BINARY_MULTIPLY", "__mul__");
   ("BINARY_MODULO", "__mod__"); ("BINARY_LSHIFT", "__lshift__");
   ("BINARY_RSHIFT", "__rshift__"); ("BINARY_AND", "__and__");
   ("BINARY_XOR", "__xor__"); ("BINARY_OR", "__or__");
   ("BINARY_FLOOR_DIVIDE", "__floordiv__");
   ("BINARY_TRUE_DIVIDE", "__truediv__"); ("BINARY_POWER", "__pow__")].

Definition inplace_opcodes : list (string * string) :=
  [("INPLACE_ADD", "__iadd__"); ("INPLACE_SUBTRACT", "__isub__");
   ("INPLACE_MULTIPLY", "__imul__"); ("INPLACE_DIVIDE", "__idiv__");
   ("INPLACE_MODULO", "__imod__"); ("INPLACE_POWER", "__ipow__");
   ("INPLACE_LSHIFT", "__ilshift__"); ("INPLACE_RSHIFT", "__irshift__");
   ("INPLACE_AND", "__iand__"); ("INPLACE_XOR", "__ixor__");
   ("INPLACE_OR", "__ior__"); ("INPLACE_FLOOR_DIVIDE", "__ifloordiv__");
   ("INPLACE_TRUE_DIVIDE", "__itruediv__")].

Fixpoint assoc (k : string) (l : list (string * string)) : option string :=
  match l with
  | [] => None
  | (k', v) :: l' => if String.eqb k k' then Some v else assoc k l'
  end.

(** [getattr(self, "byte_%s" % op.name, None)]. *)
Definition bytecode_fn (nm : string)
    : option (FrameState -> Opcode -> M VM FrameState) :=
  match assoc nm binary_opcodes, assoc nm inplace_opcodes with
  | Some m, _ => Some (fun state _ => binary_operator state m)
  | None, Some m => Some (fun state _ => inplace_operator state m)
  | None, None =>
      if String.eqb nm "BINARY_SUBSCR" then Some (fun state _ => byte_BINARY_SUBSCR state)
      else if String.eqb nm "POP_TOP" then Some (fun state _ => byte_POP_TOP state)
      else if String.eqb nm "DUP_TOP" then Some (fun state _ => byte_DUP_TOP state)
      else if String.eqb nm "JUMP_FORWARD" then Some byte_JUMP_FORWARD
      else if String.eqb nm "JUMP_ABSOLUTE" then Some byte_JUMP_ABSOLUTE
      else if String.eqb nm "BREAK_LOOP" then Some (fun state _ => byte_BREAK_LOOP state)
      else if String.eqb nm "CONTINUE_LOOP" then Some byte_CONTINUE_LOOP
      else other_bytecode nm
  end.

(** *** Running instructions and frames *)

Definition run_instruction (op : Opcode) (state : FrameState) : M VM FrameState :=
  update_self_frame (set_current_opcode (Some op)) ;;;
  let* state1 :=
    try_except
      (match bytecode_fn (op_name op) with
       | None => raise (VirtualMachineError ("Unknown opcode: " +:+ op_name op))
       | Some fn => fn state op
       end)
      (fun ex => match ex with
                 | RecursionException => Some (ret (State.set_why "recursion" state))
                 | ByteCodeException ty =>
                     Some (ret (State.set_why "exception" (State.set_exception ty state)))
                 | _ => None
                 end) in
  let state2 := if State.why_is "reraise" state1
                then State.set_why "exception" state1 else state1 in
  update_self_frame (set_current_opcode None) ;;;
  ret state2.

(** The inner loop of [run_frame]: run the opcodes of a block until one sets
    a termination reason; [op] is the last opcode run. *)
Fixpoint run_ops (ops : list Opcode) (state : FrameState) (op : option Opcode)
    : M VM (FrameState * option Opcode) :=
  match ops with
  | [] => ret (state, op)
  | o :: ops' =>
      let* s := run_instruction o state in
      if State.has_why s then ret (s, Some o)
      else run_ops ops' s (Some o)
  end.

(** The body of the outer loop of [run_frame]. *)
Definition run_block (fr : nat) (block : list Opcode) (return_nodes : list CFGNode)
    : M VM (list CFGNode) :=
  match block with
  | [] => raise IndexError
  | first :: _ =>
      let* entry := frame_get fr (fun x => states x !! op_index first) in
      match entry with
      | None => log_record (LogSkippingBlock (op_index first)) ;;; ret return_nodes
      | Some state =>
          let* r := run_ops block state None in
          let '(state, op) := r in
          let return_nodes :=
            if State.why_is "return" state || State.why_is "yield" state
            then return_nodes ++ [node state] else return_nodes in
          match op with
          | Some o =>
              (if negb (State.has_why state) && carry_on_to_next o
               then store_state fr (op_next o) state
               else ret tt) ;;;
              ret return_nodes
          | None => raise AttributeError
          end
      end
  end.

Fixpoint run_blocks (fr : nat) (blocks : list (list Opcode)) (return_nodes : list CFGNode)
    : M VM (list CFGNode) :=
  match blocks with
  | [] => ret return_nodes
  | b :: bs =>
      let* rn := run_block fr b return_nodes in
      run_blocks fr bs rn
  end.

Definition run_frame (fr : nat) (n : CFGNode) : M VM (CFGNode * Var) :=
  push_frame fr ;;;
  let* code := frame_get fr f_code in
  match co_code code with
  | [] => raise IndexError
  | first :: _ =>
      modify (set_frame_store
                (alter (set_states <[op_index first := State.init n]>) fr)) ;;;
      let* return_nodes := run_blocks fr (order code) [] in
      pop_frame fr ;;;
      let* rv := frame_get fr return_variable in
      match return_nodes with
      | [] => ret (n, rv)
      | _ => let* j := join_cfg_nodes return_nodes in ret (j, rv)
      end
  end.

Definition run_bytecode (n : CFGNode) (code : Code) (globals locals : option nat)
    : M VM (CFGNode * nat * nat * Var) :=
  let* fr := make_frame n code [] globals locals None false in
  let* r := run_frame fr n in
  let* g := frame_get fr f_globals in
  let* l := frame_get fr f_locals in
  ret (fst r, g, l, snd r).

(** [preload_builtins], given the code object that [compile_src] yields for
    the builtins; marking the definitions with their module is left out. *)
Definition preload_builtins (n : CFGNode) (builtins_code : Code)
    : M VM (CFGNode * nat * nat) :=
  let* r := run_bytecode n builtins_code None None in
  let* fs := gets frames in
  assert (bool_decide (fs = [])) ;;;
  let '(n', g, l, _) := r in
  ret (n', g, l).

(** [run_program], given the code objects that [compile_src] yields for the
    builtins (when [run_builtins] is set) and for the program. *)
Definition run_program (builtins_code : option Code) (code : Code)
    (max_depth : option nat) : M VM (CFGNode * nat) :=
  modify (set_maximum_depth max_depth) ;;;
  let* root := gets root_cfg_node in
  let* n := on_program (ConnectNew root (Some "builtins")) in
  let* b :=
    match builtins_code with
    | Some bc =>
        let* r := preload_builtins n bc in
        let '(n', g, l) := r in
        ret (n', Some g, Some l)
    | None => ret (n, None, None)
    end in
  let '(n, globals, locals) := b in
  let* n := on_program (ConnectNew n (Some "init")) in
  let* r := run_bytecode n code globals locals in
  let* fs := gets frames in
  assert (bool_decide (fs = [])) ;;;
  let '(n', g, _, _) := r in
  ret (n', g).

End VirtualMachine.

(** [VirtualMachine.__init__]: no frames, an empty store, and a Program with
    its root node. *)
Definition new_vm (abort : bool) (ceiling : nat) : VM :=
  mkVM [] None [] [] (mkProgram [mkCFGNode (Some "root") []] [] 0 abort ceiling)
       0 None 0 [].

(** ** Container values (pytype/abstract.py) *)

Module Abstract.

(** The classes the tests of abstract_test.py instantiate. *)
Inductive InstanceClass : Type :=
  | list_type
  | set_type
  | dict_type
  | none_type_class
  | object_type.

Definition is_container (c : InstanceClass) : bool :=
  match c with
  | list_type | set_type | dict_type => true
  | _ => false
  end.

(** Modelled from the spec: the generic instance of abstract.py, which
    "tracks a class plus per-type-parameter Variables". *)
Record Instance : Type := mkInstance {
  cls : InstanceClass;
  type_parameters : gmap string Var
}.

Definition new_instance (c : InstanceClass) : Instance := mkInstance c ∅.

(** Modelled from the spec: [init_type_parameters], as the tests use it: every
    named parameter starts as a Variable without bindings. *)
Fixpoint init_type_parameters (names : list string) (i : Instance) (p : Program)
    : Instance * Program :=
  match names with
  | [] => (i, p)
  | nm :: names' =>
      let '(v, p1) := NewVariable nm p in
      init_type_parameters names' (mkInstance (cls i) (<[nm := v]> (type_parameters i))) p1
  end.

(** Modelled from the spec: [merge_type_parameter].  "Adding an element
    merges the element's Variable into an internal per-container
    type-parameter Variable via MergeVariables rather than replacing it". *)
Definition merge_type_parameter (n : CFGNode) (nm : string) (value : Var)
    (i : Instance) (p : Program) : Instance * Program :=
  match type_parameters i !! nm with
  | Some old =>
      let '(m, p1) := MergeVariables n nm [old; value] p in
      (mkInstance (cls i) (<[nm := m]> (type_parameters i)), p1)
  | None => (mkInstance (cls i) (<[nm := value]> (type_parameters i)), p)
  end.

(** The container carries a known element type: one of its type parameters
    has a binding. *)
Definition has_known_parameter (i : Instance) (p : Program) : bool :=
  bool_decide (map_Exists (fun _ v => var_bindings p v <> []) (type_parameters i)).

(** Modelled from the spec: [compatible_with], "may this value be
    truthy/falsy": "a never-populated container is never truthy", and can be
    either once it carries "at least one known element-type parameter"; a
    value of the None type is never truthy; other instances can be either. *)
Definition compatible_with (i : Instance) (logical_value : bool) (p : Program) : bool :=
  if is_container (cls i) then
    if logical_value then has_known_parameter i p else true
  else
    match cls i with
    | none_type_class => negb logical_value
    | _ => true
    end.

End Abstract.

(** * Vocabulary of the properties *)

(** ** Variables *)

(** What [AddBinding] leaves in the Variable it is called on. *)
Definition added_binding (d : Value) (origin : option (SourceSet * CFGNode)) : BindingData :=
  mkBinding d match origin with
              | Some (ss, w) => [mkOrigin w {[ ss ]}]
              | None => []
              end.

(** The copies [PasteVariable] makes of the bindings [refs] at node [w]:
    each keeps its value and is justified by the binding it copies. *)
Definition pasted (w : CFGNode) (refs : list (Binding * Value)) : list BindingData :=
  map (fun bd => added_binding (snd bd) (Some ({[ fst bd ]}, w))) refs.

(** ** Entry states *)

(** The entry state recorded for [target] in the frame [fr]. *)
Definition entry_state (vm : VM) (fr target : nat) : option FrameState :=
  match frame_store vm !! fr with
  | Some F => states F !! target
  | None => None
  end.

(** The stack of [merged] is the position-wise merge of the stacks of [old]
    and [new]: slot by slot a Variable that holds the copies of the bindings
    of the recorded slot followed by those of the incoming slot. *)
Definition merged_per_slot (p p' : Program) (old new merged : FrameState) : Prop :=
  length (data_stack merged) = length (data_stack old) /\
  forall i o v m,
    data_stack old !! i = Some o ->
    data_stack new !! i = Some v ->
    data_stack merged !! i = Some m ->
    var_bindings p' m =
      pasted (node old) (binding_refs p o) ++ pasted (node old) (binding_refs p v) /\
    var_data p' m = var_data p o ++ var_data p v.

(** ** The complexity governor *)

Module CfgSpec.
Import Cfg.

(** The Program with the complexity check switched off. *)
Definition unchecked (p : Program) : Program :=
  mkProgram (cfg_nodes p) (variables p) (complexity p) false (max_complexity p).

(** The cost a sequence of mutations adds up to when nothing stops it. *)
Definition cumulative_cost (ms : list Mutation) (p : Program) : nat :=
  complexity (snd (mutate_all ms (unchecked p))) - complexity p.

(** What one mutation does to the counter and to the check: it either
    completes, as it would without the check, or it stops with the counter
    above the ceiling. *)
Definition step_ok (p : Program) (r : Res unit) (p' : Program)
    (ru : Res unit) (pu : Program) : Prop :=
  complexity p <= complexity p' /\
  abort_on_complex p' = abort_on_complex p /\
  max_complexity p' = max_complexity p /\
  ru = Ok tt /\
  ((r = Ok tt /\ pu = unchecked p' /\
    (abort_on_complex p = true -> complexity p' <= max_complexity p)) \/
   (r = Raise ProgramTooComplexError /\ abort_on_complex p = true /\
    max_complexity p < complexity p' /\ complexity p' <= complexity pu)).

End CfgSpec.

(** ** What a computation leaves alone *)

(** [m] keeps [R]: however [m] ends, the state it leaves is related by [R] to
    the state it started from. *)
Definition keeps (R : VM -> VM -> Prop) {A} (m : M VM A) : Prop :=
  forall vm r vm', m vm = (r, vm') -> R vm vm'.

(** Only the graph of CFG nodes (and its complexity counter) differs. *)
Definition same_but_nodes (vm vm' : VM) : Prop :=
  errorlog vm' = errorlog vm /\ log vm' = log vm /\
  frames vm' = frames vm /\ frame vm' = frame vm /\
  frame_store vm' = frame_store vm /\
  variables (program vm') = variables (program vm).

(** ** Calls *)

(** The state in which the loop of [call_function] starts: the return
    Variable has been created. *)
Definition with_return_variable (vm : VM) (funcu : Var) : VM :=
  set_program
    (snd (NewVariable
            ("<return:" +:+ default "" (name <$> variables (program vm) !! funcu) +:+ ">")
            (program vm))) vm.

(** The give-up binding that [create_new_unsolvable] and
    [byte_BINARY_SUBSCR] make at node [n]. *)
Definition unsolvable_at (n : CFGNode) : BindingData :=
  added_binding Unsolvable (Some (∅, n)).

Section CallRuns.
Context `{AbstractOps}.


(** What the call of one candidate came to: a failure, or the node and the
    Variable it returned together with the bindings of that Variable. *)
Inductive CallOutcome : Type :=
  | CallFailed (e : FailedCall)
  | CallReturned (new_node : CFGNode) (one_result : Var)
                 (refs : list (Binding * Value)).

(** Calling the candidates [fs] in order, from [vm] to [vm'], with the
    outcomes [os]; after a call that returns, [call_function] copies the
    bindings returned into [result].  The callee leaves [result] alone. *)
Inductive calls_run (n : CFGNode) (args : FunctionArgs) (result : Var)
    : list (Binding * Value) -> VM -> VM -> list (Binding * CallOutcome) -> Prop :=
  | calls_run_nil vm : calls_run n args result [] vm vm []
  | calls_run_failed funcv func fs vm vm1 vm2 e os :
      call func n funcv args vm = (Raise (FailedFunctionCall e), vm1) ->
      var_bindings (program vm1) result = var_bindings (program vm) result ->
      result < length (variables (program vm1)) ->
      calls_run n args result fs vm1 vm2 os ->
      calls_run n args result ((funcv, func) :: fs) vm vm2
                ((funcv, CallFailed e) :: os)
  | calls_run_returned funcv func fs vm vm1 vm2 new_node one_result os :
      call func n funcv args vm = (Ok (new_node, one_result), vm1) ->
      var_bindings (program vm1) result = var_bindings (program vm) result ->
      result < length (variables (program vm1)) ->
      calls_run n args result fs
        (set_program
           (paste_result result new_node funcv
              (binding_refs (program vm1) one_result) (program vm1)) vm1)
        vm2 os ->
      calls_run n args result ((funcv, func) :: fs) vm vm2
                ((funcv, CallReturned new_node one_result
                           (binding_refs (program vm1) one_result)) :: os).

End CallRuns.

(** The nodes of the calls that returned. *)
Definition success_nodes (os : list (Binding * CallOutcome)) : list CFGNode :=
  omap (fun o => match snd o with
                 | CallReturned new_node _ _ => Some new_node
                 | CallFailed _ => None
                 end) os.

(** The bindings [call_function] adds to the return Variable for the outcome
    of the candidate [funcv]: for each binding returned, one with the same
    value and an Origin at the node of the call whose source set is that
    binding together with [funcv]. *)
Definition reattached (o : Binding * CallOutcome) : list BindingData :=
  match snd o with
  | CallReturned new_node _ refs =>
      map (fun bd => mkBinding (snd bd)
                       [mkOrigin new_node {[ {[ fst bd; fst o ]} ]}]) refs
  | CallFailed _ => []
  end.

(** The re-attachment with the callable binding alone as source set. *)
Definition reattached_to_callable_only (funcv : Binding) (new_node : CFGNode)
    (bd : BindingData) : Prop :=
  origins bd = [mkOrigin new_node {[ {[ funcv ]} ]}].

(** ** Attributes *)

(** The state in which the loop of [_retrieve_attr] starts: the result
    Variable has been created and the lookup is on record. *)
Definition with_attr_variable (vm : VM) (obj : Var) (attr : string) : VM :=
  set_log (fun l => l ++ [LogGettingAttr attr obj])
          (set_program (snd (NewVariable attr (program vm))) vm).

(** [x] is a value of the None type: its class is the one [none_type] holds. *)
Definition of_none_type `{AbstractOps} (p : Program) (x : Value) : Prop :=
  exists c, x = Instance c /\ var_data p c = var_data p none_type.

Section AttributeRuns.
Context `{AbstractOps}.

(** Looking [attr] up on the bindings [vals] in order, from [vm] to [vm'],
    no binding has it: each lookup returns nothing, or a Variable without
    bindings. *)
Inductive attribute_absent (n : CFGNode) (attr : string)
    : list (Binding * Value) -> VM -> VM -> Prop :=
  | attribute_absent_nil vm : attribute_absent n attr [] vm vm
  | attribute_absent_cons b val vals vm vm1 vm2 node2 attr_var :
      get_attribute_generic val n attr b vm = (Ok (node2, attr_var), vm1) ->
      match attr_var with
      | Some av => var_bindings (program vm1) av = []
      | None => True
      end ->
      attribute_absent n attr vals
        (set_log (fun l => l ++ [LogNoAttrOn attr val]) vm1) vm2 ->
      attribute_absent n attr ((b, val) :: vals) vm vm2.

End AttributeRuns.

(** ** Operators *)

Section OperatorRuns.
Context `{AbstractOps}.


End OperatorRuns.



(** [m] run in [vm] ends in the fatal complexity abort. *)
Definition aborts {A} (m : M VM A) (vm : VM) : Prop :=
  fst (m vm) = Raise ProgramTooComplexError.

(** ** The frame stack across calls that complete *)

(** The exceptions the interpreter recovers from: those caught by
    [call_function], [_retrieve_attr] and [run_instruction]. *)
Definition tolerated (e : Exc) : bool :=
  match e with
  | RecursionException | ByteCodeException _
  | FailedFunctionCall _ | TypeParameterError _ => true
  | _ => false
  end.

Definition completes {A} (r : Res A) : Prop :=
  match r with
  | Ok _ => True
  | Raise e => tolerated e = true
  end.

Definition same_stack (vm vm' : VM) : Prop :=
  frames vm' = frames vm /\ frame vm' = frame vm.

(** A computation is balanced when it leaves the frame stack and the current
    frame as it found them whenever it returns or raises an exception the
    interpreter recovers from. *)
Definition balanced {A} (m : M VM A) : Prop :=
  forall vm r vm', m vm = (r, vm') -> completes r -> same_stack vm vm'.

Section BalancedOps.
Context `{AbstractOps}.

(** The collaborators are balanced: a call into an abstract value or an
    opcode handler pops every frame it pushed before it returns or raises an
    exception the interpreter recovers from. *)
Class BalancedOps : Prop := {
  balanced_call : forall v n b a, balanced (call v n b a);
  balanced_get_attribute_generic :
    forall v n a b, balanced (get_attribute_generic v n a b);
  balanced_other_bytecode :
    forall nm h, other_bytecode nm = Some h -> forall s op, balanced (h s op)
}.

End BalancedOps.


(** * A small instance *)

(** An instance of the collaborators on which the properties can be run:
    a class object named [nm] has the one attribute [nm], a method that
    returns an unknown value whatever it is called with; a function named
    "one" does the same, a function named "nothing" returns a Variable
    without bindings, and any other function takes exactly two arguments; the
    opcode RECURSE makes a frame for the code of the current frame. *)
Module Demo.

Fixpoint add_bindings (v : Var) (vals : list Value) (n : CFGNode) : M VM unit :=
  match vals with
  | [] => ret tt
  | d :: vals' =>
      let* _ := with_program (AddBinding v d (Some (∅, n))) in
      add_bindings v vals' n
  end.

Definition fresh_variable (nm : string) (vals : list Value) (n : CFGNode) : M VM Var :=
  let* v := with_program (NewVariable nm) in
  add_bindings v vals n ;;;
  ret v.

Definition demo_call (v : Value) (n : CFGNode) (funcv : Binding) (args : FunctionArgs)
    : M VM (CFGNode * Var) :=
  match v with
  | Function nm =>
      if String.eqb nm "one" then
        let* r := fresh_variable "r" [Unknown] n in ret (n, r)
      else if String.eqb nm "nothing" then
        let* r := fresh_variable "r" [] n in ret (n, r)
      else if Nat.eqb (length (posargs args)) 2 then
        let* r := fresh_variable "r" [Unknown] n in ret (n, r)
      else raise (FailedFunctionCall (WrongArgCount nm (length (posargs args)) 2))
  | Unsolvable =>
      let* r := fresh_variable "r" [Unsolvable] n in ret (n, r)
  | _ => raise (FailedFunctionCall (OtherFailedCall "not callable"))
  end.

Definition demo_get_attribute_generic (v : Value) (n : CFGNode) (attr : string)
    (b : Binding) : M VM (CFGNode * option Var) :=
  match v with
  | Class nm =>
      if String.eqb attr nm then
        let* m := fresh_variable attr [Function "one"] n in ret (n, Some m)
      else ret (n, None)
  | Unsolvable =>
      let* m := fresh_variable attr [Unsolvable] n in ret (n, Some m)
  | _ => ret (n, None)
  end.

Definition byte_RECURSE (state : FrameState) (op : Opcode) : M VM FrameState :=
  let* fr := self_frame in
  let* code := frame_get fr f_code in
  let* g := frame_get fr f_globals in
  let* l := frame_get fr f_locals in
  let* callee := make_frame (node state) code [] (Some g) (Some l) None false in
  ret state.

#[export] Instance ops : AbstractOps := {|
  call := demo_call;
  get_attribute_generic := demo_get_attribute_generic;
  is_visible := fun _ _ _ => true;
  none_type := 0;
  other_bytecode := fun nm => if String.eqb nm "RECURSE" then Some byte_RECURSE else None;
  reverse_operators := false
|}.

Definition no_args : FunctionArgs := mkArgs [] None None None.

Definition op_recurse : Opcode := mkOpcode 0 "RECURSE" None 1 0 true.
Definition op_jump : Opcode := mkOpcode 0 "JUMP_FORWARD" (Some 1) 1 1 false.
Definition op_break : Opcode := mkOpcode 1 "BREAK_LOOP" None 2 0 false.
Definition op_add : Opcode := mkOpcode 0 "BINARY_ADD" None 1 0 true.

(** A function that calls itself, and a module that jumps and stops. *)
Definition code_recursive : Code := mkCode 7 "f" [op_recurse] [[op_recurse]] true.
Definition code_jump : Code :=
  mkCode 8 "<module>" [op_jump; op_break] [[op_jump]; [op_break]] false.

(** The Variables of the examples, at the root node: 0 the None type, 1 a
    function of two arguments, 2 a callable that is either "one" or that
    function, 3 a value with [__add__], 4 an unknown value, 5 an object that
    is None or an unknown value, 6 a Variable without bindings. *)
Definition variables0 : list (string * list Value) :=
  [("NoneType", [Class "NoneType"]);
   ("f", [Function "f"]);
   ("g", [Function "one"; Function "f"]);
   ("x", [Class "__add__"]);
   ("y", [Unknown]);
   ("obj", [Instance 0; Unknown]);
   ("empty", [])].

Fixpoint declare (vs : list (string * list Value)) : M VM unit :=
  match vs with
  | [] => ret tt
  | (nm, vals) :: vs' => fresh_variable nm vals 0 ;;; declare vs'
  end.

(** The interpreter in the middle of the instruction [op_add] of a frame
    (frame 0) that runs [code_recursive]; frame 1, for [code_jump], has been
    made and not yet run. *)
Definition vm0 : VM :=
  let vm := snd (declare variables0 (new_vm false 0)) in
  set_frame (Some 0)
    (set_frames (fun _ => [0])
       (set_frame_store
          (fun _ => [mkFrame code_recursive 0 0 None [] None ∅ 6 (Some op_add);
                     mkFrame code_jump 0 0 None [] None ∅ 6 None])
          vm)).

(** Two states to store as the entry state of one offset. *)
Definition stack_a : FrameState := State.push [3; 4] (State.init 0).
Definition stack_b : FrameState := State.push [4; 5] (State.init 0).

(** What calling [g] without arguments comes to, and the state after its
    candidates were called. *)
Definition outcomes_g : list (nat * nat * CallOutcome) :=
  [((2, 0), CallReturned 0 8 [((8, 0), Unknown)]);
   ((2, 1), CallFailed (WrongArgCount "f" 0 2))].

(** After the candidate "one" returned, and after its result was copied. *)
Definition vm_called_one : VM :=
  snd (call (Function "one") 0 (2, 0) no_args (with_return_variable vm0 2)).

Definition vm_after_g : VM :=
  set_program
    (paste_result 7 0 (2, 0) (binding_refs (program vm_called_one) 8)
       (program vm_called_one))
    vm_called_one.

(** The state after [foo] was looked up on the two bindings of the object. *)
Definition vm_after_foo : VM :=
  set_log (fun l => l ++ [LogNoAttrOn "foo" Unknown])
    (set_log (fun l => l ++ [LogNoAttrOn "foo" (Instance 0)])
       (with_attr_variable vm0 5 "foo")).

End Demo.

(** * More of the virtual machine (pytype/vm.py) *)

(** What the handlers below ask of the options and of the converter:
    [options.python_version], and the Variables that GET_ITER makes for the
    key it passes to [__getitem__]
    ([abstract.Instance(self.convert.int_type, self, node).to_variable(node, "key")])
    and for the iterator over the item it gets back
    ([abstract.Iterator(self, item, node).to_variable(node, "it")]). *)
Class InterpreterOps : Type := {
  python_version : nat * nat;
  int_key : CFGNode -> M VM Var;
  iterator_of : Var -> CFGNode -> M VM Var
}.

(** Modelled from the spec: FrameState.pop_block of state.py, for the block
    stack, a "sequence of exception/loop/with markers": the state without its
    topmost block, and that block. *)
Definition pop_block {S} (s : FrameState) : M S (FrameState * Block) :=
  match last (block_stack s) with
  | Some b =>
      ret (mkState (data_stack s) (take (length (block_stack s) - 1) (block_stack s))
                   (node s) (exception s) (condition s) (why s), b)
  | None => raise IndexError
  end.

(** [op.arg], which only the opcodes that take an argument have. *)
Definition op_arg_of {S} (op : Opcode) : M S nat :=
  match op_arg op with
  | Some a => ret a
  | None => raise AttributeError
  end.

Section Handlers.
Context `{AbstractOps} `{InterpreterOps}.

(** *** Moving values on the operand stack *)

Definition byte_DUP_TOPX (state : FrameState) (op : Opcode) : M VM FrameState :=
  let* n := op_arg_of op in
  let* r := State.popn n state in
  let state := State.push (snd r) (fst r) in
  let state := State.push (snd r) state in
  ret state.

Definition byte_DUP_TOP_TWO (state : FrameState) : M VM FrameState :=
  let* r := State.popn 2 state in
  match snd r with
  | [a; b] => ret (State.push [a; b; a; b] (fst r))
  | _ => raise IndexError
  end.

Definition byte_ROT_TWO (state : FrameState) : M VM FrameState :=
  let* r := State.popn 2 state in
  match snd r with
  | [a; b] => ret (State.push [b; a] (fst r))
  | _ => raise IndexError
  end.

Definition byte_ROT_THREE (state : FrameState) : M VM FrameState :=
  let* r := State.popn 3 state in
  match snd r with
  | [a; b; c] => ret (State.push [c; a; b] (fst r))
  | _ => raise IndexError
  end.

Definition byte_ROT_FOUR (state : FrameState) : M VM FrameState :=
  let* r := State.popn 4 state in
  match snd r with
  | [a; b; c; d] => ret (State.push [d; a; b; c] (fst r))
  | _ => raise IndexError
  end.

(** *** Blocks *)

(** [push_block(state, t, handler=None, level=None)]. *)
Definition push_block (state : FrameState) (t : string) (handler : option nat)
    (level : option nat) : FrameState :=
  let level := match level with
               | None => length (data_stack state)
               | Some l => l
               end in
  State.push_block (mkBlock t handler level) state.

Definition byte_SETUP_LOOP (state : FrameState) (op : Opcode) : M VM FrameState :=
  ret (push_block state "loop" (Some (op_target op)) None).

Definition byte_POP_BLOCK (state : FrameState) : M VM FrameState :=
  let* r := pop_block state in
  ret (fst r).

(** *** Functions *)

(** [_pop_extra_function_args(state, arg)]: the defaults and annotations that
    MAKE_FUNCTION and MAKE_CLOSURE find under the code object, counted by the
    bit fields of the opcode's argument. *)
Definition _pop_extra_function_args (state : FrameState) (arg : N)
    : M VM (FrameState * list Var * list Var * list Var) :=
  let* nums :=
    (if Nat.eqb (fst python_version) 2 then
       ret (N.land arg 0xffff, 0%N)
     else
       assert (Nat.eqb (fst python_version) 3) ;;;
       ret (N.land arg 0xff, N.land (N.shiftr arg 8) 0xff)) in
  let '(num_pos_defaults, num_kw_defaults) := nums in
  let* r1 := State.popn (N.to_nat (N.land (N.shiftr arg 16) 0x7fff)) state in
  let* r2 := State.popn (N.to_nat (2 * num_kw_defaults)) (fst r1) in
  let* r3 := State.popn (N.to_nat num_pos_defaults) (fst r2) in
  ret (fst r3, snd r3, snd r2, snd r1).

(** [byte_RETURN_VALUE]; [_check_return] does nothing in this class. *)
Definition byte_RETURN_VALUE (state : FrameState) : M VM FrameState :=
  let* r := State.pop state in
  let '(state, var) := r in
  let* fr := self_frame in
  let* rv := frame_get fr return_variable in
  update_program (PasteVariable rv var (node state)) ;;;
  ret (State.set_why "return" state).

(** *** Operators with one operand *)

Definition unary_operator (state : FrameState) (nm : string) : M VM FrameState :=
  let* r := State.pop state in
  let '(state, x) := r in
  let* m := load_attr state x nm in
  let '(state, method) := m in
  let* c := call_function_with_state state method [] true in
  let '(state, result) := c in
  ret (State.push [result] state).

(** *** Iteration *)

Definition byte_GET_ITER (state : FrameState) : M VM FrameState :=
  let* r := State.pop state in
  let '(pre_state, seq) := r in
  let* a := load_attr_noerror pre_state seq "__iter__" in
  let '(state, func) := a in
  match func with
  | Some func =>
      let* c := call_function_with_state state func [] true in
      ret (State.push [snd c] (fst c))
  | None =>
      let* a := load_attr_noerror pre_state seq "__getitem__" in
      let '(state, func) := a in
      match func with
      | Some func =>
          let* key := int_key (node state) in
          let* c := call_function_with_state state func [key] true in
          let '(state, item) := c in
          let* it := iterator_of item (node state) in
          ret (State.push [it] state)
      | None =>
          let* p := gets program in
          (if negb (bool_decide (var_bindings p seq = [])) then
             let* op := self_frame_current_opcode in
             report (attribute_error op seq "__iter__")
           else ret tt) ;;;
          let* it := create_new_unsolvable (node state) "bad attr" in
          ret (State.push [it] state)
      end
  end.

End Handlers.

(** * Vocabulary of the further properties *)

(** The operand stack of [s] is [st]; the rest of [s] is as it was. *)
Definition with_stack (st : list Var) (s : FrameState) : FrameState :=
  State.set_data_stack st s.

(** [s'] is [s] at another CFG node. *)
Definition moved (s s' : FrameState) : Prop :=
  exists n, s' = State.change_cfg_node n s.

(** [s'] is [s] at another CFG node and with the operand stack [st]. *)
Definition moved_with_stack (s : FrameState) (st : list Var) (s' : FrameState) : Prop :=
  exists n, s' = State.change_cfg_node n (State.set_data_stack st s).

Section AttributeLookups.
Context `{AbstractOps}.

(** Looking [attr] up on the bindings [vals] of [obj] in order, from [vm] to
    [vm'], without a type parameter error: a binding that has the attribute
    (a Variable with bindings) has it pasted into [result] and adds its node
    to [nodes]; a binding that does not is passed over. *)
Inductive attribute_lookups (n : CFGNode) (attr : string) (obj result : Var)
    : list (Binding * Value) -> VM -> VM -> list CFGNode -> Prop :=
  | attribute_lookups_nil vm : attribute_lookups n attr obj result [] vm vm []
  | attribute_lookups_absent b val vals vm vm1 vm2 node2 attr_var nodes :
      get_attribute_generic val n attr b vm = (Ok (node2, attr_var), vm1) ->
      match attr_var with
      | Some av => var_bindings (program vm1) av = []
      | None => True
      end ->
      attribute_lookups n attr obj result vals
        (set_log (fun l => l ++ [LogNoAttrOn attr val]) vm1) vm2 nodes ->
      attribute_lookups n attr obj result ((b, val) :: vals) vm vm2 nodes
  | attribute_lookups_found b val vals vm vm1 vm2 node2 av nodes :
      get_attribute_generic val n attr b vm = (Ok (node2, Some av), vm1) ->
      var_bindings (program vm1) av <> [] ->
      attribute_lookups n attr obj result vals
        (set_program (PasteVariable result av node2 (program vm1))
           (set_log (fun l => l ++ [LogGotChoice attr obj val av]) vm1)) vm2 nodes ->
      attribute_lookups n attr obj result ((b, val) :: vals) vm vm2 (node2 :: nodes).

End AttributeLookups.

(** [to] is among the successors of the node [n]. *)
Definition has_edge (p : Program) (n to : CFGNode) : Prop :=
  exists nd, cfg_nodes p !! n = Some nd /\ to ∈ outgoing nd.

(** The name that [reverse_operator_name] came from. *)
Definition unreversed (r : string) : string :=
  "__" +:+ String.substring 3 (String.length r - 3) r.

(** The opcode BINARY_X for the opcode INPLACE_X. *)
Definition binary_opcode_of (inplace_name : string) : string :=
  "BINARY_" +:+ String.substring 8 (String.length inplace_name - 8) inplace_name.

(** ** Examples *)

Module Examples.
Import Demo.

#[export] Instance py2 : InterpreterOps := {|
  python_version := (2, 7);
  int_key := fun n => fresh_variable "key" [Instance 0] n;
  iterator_of := fun item n => fresh_variable "it" [Unknown] n
|}.

Definition py3 : InterpreterOps := {|
  python_version := (3, 5);
  int_key := fun n => fresh_variable "key" [Instance 0] n;
  iterator_of := fun item n => fresh_variable "it" [Unknown] n
|}.

Definition py4 : InterpreterOps := {|
  python_version := (4, 0);
  int_key := fun n => fresh_variable "key" [Instance 0] n;
  iterator_of := fun item n => fresh_variable "it" [Unknown] n
|}.

(** Two handlers beside those of [Demo.ops]: one that raises a
    ByteCodeException (as RAISE_VARARGS does without an exception to raise
    again), and one that ends with the reason "reraise". *)
Definition byte_RAISE_NOTHING (state : FrameState) (op : Opcode) : M VM FrameState :=
  raise (ByteCodeException "TypeError").

Definition byte_RERAISE (state : FrameState) (op : Opcode) : M VM FrameState :=
  ret (State.set_why "reraise" state).

Definition ops_raising : AbstractOps := {|
  call := demo_call;
  get_attribute_generic := demo_get_attribute_generic;
  is_visible := fun _ _ _ => true;
  none_type := 0;
  other_bytecode := fun nm =>
    if String.eqb nm "RAISE_NOTHING" then Some byte_RAISE_NOTHING
    else if String.eqb nm "RERAISE" then Some byte_RERAISE
    else None;
  reverse_operators := false
|}.

Definition op_nop : Opcode := mkOpcode 0 "NOP" None 1 0 true.
Definition op_dup2 : Opcode := mkOpcode 0 "DUP_TOPX" (Some 2) 1 0 true.
Definition op_loop : Opcode := mkOpcode 0 "SETUP_LOOP" (Some 9) 1 9 true.
Definition op_continue : Opcode := mkOpcode 0 "CONTINUE_LOOP" (Some 0) 1 0 false.
Definition op_raise : Opcode := mkOpcode 0 "RAISE_NOTHING" (Some 0) 1 0 false.
Definition op_reraise : Opcode := mkOpcode 0 "RERAISE" (Some 0) 1 0 false.

(** [vm0] with one more Variable (7), bound to a class that has the
    attribute [foo] and to an unknown value, which has not; and the states
    that looking [foo] up on it goes through. *)
Definition vm_mixed : VM :=
  snd (fresh_variable "mixed" [Class "foo"; Unknown] 0 vm0).

Definition vm_foo_looked_up : VM :=
  snd (get_attribute_generic (Class "foo") 0 "foo" (7, 0)
         (with_attr_variable vm_mixed 7 "foo")).

Definition vm_foo_pasted : VM :=
  set_program (PasteVariable 8 9 0 (program vm_foo_looked_up))
    (set_log (fun l => l ++ [LogGotChoice "foo" 7 (Class "foo") 9]) vm_foo_looked_up).

Definition vm_foo_done : VM :=
  set_log (fun l => l ++ [LogNoAttrOn "foo" Unknown]) vm_foo_pasted.

(** [vm0] with one more Variable (7), bound to a class that can be
    subscripted. *)
Definition vm_subscriptable : VM :=
  snd (fresh_variable "d" [Class "__getitem__"] 0 vm0).






(** The states that GET_ITER goes through on the unknown value of [vm0]
    (Variable 4) and on its Variable without bindings (6). *)
Definition vm_no_iter (seq : Var) (val : list Value) : VM :=
  fold_left (fun vm v => set_log (fun l => l ++ [LogNoAttrOn "__iter__" v]) vm) val
    (with_attr_variable vm0 seq "__iter__").

Definition vm_no_getitem (seq : Var) (val : list Value) : VM :=
  fold_left (fun vm v => set_log (fun l => l ++ [LogNoAttrOn "__getitem__" v]) vm) val
    (with_attr_variable (vm_no_iter seq val) seq "__getitem__").

End Examples.
(** * Properties *)

#[global] Arguments Cfg.NewVariable : simpl never.
#[global] Arguments Cfg.AddOrigin : simpl never.
#[global] Arguments Cfg.AddBinding : simpl never.
#[global] Arguments Cfg.PasteVariable : simpl never.
#[global] Arguments Cfg.MergeVariables : simpl never.

(** ** Running monadic code *)

Section MonadFacts.
Context {S A B : Type}.
Implicit Types (m : M S A) (k : A -> M S B).

Lemma bind_ok m k s a s' : m s = (Ok a, s') -> bind m k s = k a s'.
Proof. intros Hm. unfold bind. by rewrite Hm. Qed.

Lemma bind_raise m k s e s' : m s = (Raise e, s') -> bind m k s = (Raise e, s').
Proof. intros Hm. unfold bind. by rewrite Hm. Qed.

Lemma bind_inv m k s r s2 :
  bind m k s = (r, s2) ->
  (exists a s1, m s = (Ok a, s1) /\ k a s1 = (r, s2)) \/
  (exists e, m s = (Raise e, s2) /\ r = Raise e).
Proof.
  unfold bind. destruct (m s) as [[a|e] s1]; intros Hk.
  - left. eauto.
  - right. exists e. by inversion Hk.
Qed.

Lemma try_except_ok (m : M S A) h s a s' :
  m s = (Ok a, s') -> try_except m h s = (Ok a, s').
Proof. intros Hm. unfold try_except. by rewrite Hm. Qed.

Lemma try_except_caught (m : M S A) h s e s' (c : M S A) :
  m s = (Raise e, s') -> h e = Some c -> try_except m h s = c s'.
Proof. intros Hm Hh. unfold try_except. by rewrite Hm, Hh. Qed.

Lemma try_except_uncaught (m : M S A) h s e s' :
  m s = (Raise e, s') -> h e = None -> try_except m h s = (Raise e, s').
Proof. intros Hm Hh. unfold try_except. by rewrite Hm, Hh. Qed.

Lemma run_result (m : M S A) s r : fst (m s) = r -> m s = (r, snd (m s)).
Proof. destruct (m s) as [r' s']. simpl. by intros ->. Qed.

End MonadFacts.

(** ** The complexity governor *)

Module CfgFacts.
Import Cfg.
Import CfgSpec.

Lemma mutate_step (m : Mutation) (p : Program) :
  abort_on_complex p = true -> complexity p <= max_complexity p ->
  step_ok p (fst (mutate m p)) (snd (mutate m p))
          (fst (mutate m (unchecked p))) (snd (mutate m (unchecked p))).
Proof.
  intros Hab Hle. destruct p as [ns vs c ab K]. simpl in *. subst ab.
  unfold step_ok, unchecked.
  destruct m as [nm|n to|n nm];
    unfold mutate, ConnectNew, ConnectTo, NewCFGNode, charge,
      bind, ret, raise, gets, modify, set_complexity, set_cfg_nodes; simpl;
    rewrite ?Nat.add_0_r;
    repeat match goal with
           | |- context [K <? ?x] =>
               let Hlt := fresh "Hlt" in
               destruct (K <? x) eqn:Hlt; simpl;
               [apply Nat.ltb_lt in Hlt | apply Nat.ltb_ge in Hlt]
           end;
    try lia;
    repeat split; try lia; try done;
    first [ left; repeat split; try done; lia
          | right; repeat split; try done; lia ].
Qed.

Lemma mutate_mono (m : Mutation) (p : Program) :
  complexity p <= complexity (snd (mutate m p)).
Proof.
  destruct p as [ns vs c ab K].
  destruct m as [nm|n to|n nm];
    unfold mutate, ConnectNew, ConnectTo, NewCFGNode, charge,
      bind, ret, raise, gets, modify, set_complexity, set_cfg_nodes; simpl;
    repeat match goal with
           | |- context [if ?b then _ else _] => destruct b; simpl
           end; lia.
Qed.

Lemma mutate_all_mono (ms : list Mutation) (p : Program) :
  complexity p <= complexity (snd (mutate_all ms p)).
Proof.
  revert p. induction ms as [|m ms IH]; intros p; simpl; [done|].
  unfold bind. pose proof (mutate_mono m p) as Hm.
  destruct (mutate m p) as [[[]|e] p1]; simpl in *; [|done].
  specialize (IH p1). lia.
Qed.

Lemma cumulative_cost_exact (ms : list Mutation) (p : Program) :
  complexity p + cumulative_cost ms p = complexity (snd (mutate_all ms (unchecked p))).
Proof.
  unfold cumulative_cost. pose proof (mutate_all_mono ms (unchecked p)) as Hm.
  simpl in Hm. lia.
Qed.

Lemma mutate_all_ceiling (ms : list Mutation) (p : Program) :
  abort_on_complex p = true -> complexity p <= max_complexity p ->
  (complexity p + cumulative_cost ms p <= max_complexity p ->
   exists p', mutate_all ms p = (Ok tt, p') /\
              complexity p' = complexity p + cumulative_cost ms p) /\
  (max_complexity p < complexity p + cumulative_cost ms p ->
   exists p', mutate_all ms p = (Raise ProgramTooComplexError, p') /\
              max_complexity p < complexity p').
Proof.
  revert p. induction ms as [|m ms IH]; intros p Hab Hle.
  - rewrite cumulative_cost_exact. simpl. split; [|lia].
    intros _. exists p. done.
  - rewrite cumulative_cost_exact.
    destruct (mutate_step m p Hab Hle) as (Hmono & Hab' & HK & Hu & Hcase).
    change (mutate_all (m :: ms)) with (bind (mutate m) (fun _ => mutate_all ms)).
    destruct (mutate m (unchecked p)) as [ru pu] eqn:Hmu.
    destruct (mutate m p) as [r p1] eqn:Hm. simpl in *. subst ru.
    rewrite (bind_ok _ _ _ _ _ Hmu).
    destruct Hcase as [(-> & -> & Hc)|(-> & _ & Hgt & Hlt)].
    + specialize (Hc Hab). rewrite (bind_ok _ _ _ _ _ Hm).
      destruct (IH p1) as [IH1 IH2]; [congruence|lia|].
      rewrite cumulative_cost_exact in IH1, IH2. rewrite HK in IH1, IH2.
      split; intros Hsum.
      * destruct (IH1 Hsum) as (p' & Hrun & Hcp). exists p'. done.
      * destruct (IH2 Hsum) as (p' & Hrun & Hcp). exists p'. done.
    + pose proof (mutate_all_mono ms pu) as Hm2.
      rewrite (bind_raise _ _ _ _ _ Hm).
      split; intros Hsum; [lia|]. exists p1. split; [done|lia].
Qed.

End CfgFacts.

(** ** Variables and their bindings *)

Section VariableFacts.
Import Cfg.

Lemma var_bindings_set_variables_alter f v u p :
  var_bindings (set_variables (alter f v) p) u =
    if decide (u = v)
    then match variables p !! v with
         | Some vd => bindings (f vd)
         | None => []
         end
    else var_bindings p u.
Proof.
  unfold var_bindings. simpl. destruct (decide (u = v)) as [->|Hne].
  - rewrite list_lookup_alter_eq. by destruct (_ !! _).
  - by rewrite list_lookup_alter_ne.
Qed.

Lemma NewVariable_bindings nm p u :
  var_bindings (snd (NewVariable nm p)) u = var_bindings p u.
Proof.
  unfold NewVariable, var_bindings. simpl.
  destruct (decide (u < length (variables p))) as [Hlt|Hge].
  - by rewrite lookup_app_l.
  - rewrite (lookup_ge_None_2 (variables p)) by lia.
    destruct (decide (u = length (variables p))) as [->|Hne].
    + by rewrite list_lookup_middle.
    + rewrite lookup_ge_None_2; [done|]. rewrite length_app. simpl. lia.
Qed.

Lemma NewVariable_fresh nm p :
  fst (NewVariable nm p) = length (variables p) /\
  length (variables (snd (NewVariable nm p))) = S (length (variables p)) /\
  cfg_nodes (snd (NewVariable nm p)) = cfg_nodes p.
Proof. unfold NewVariable. simpl. rewrite length_app. simpl. split_and!; [done|lia|done]. Qed.

Lemma var_bindings_fresh p u : length (variables p) <= u -> var_bindings p u = [].
Proof. intros Hge. unfold var_bindings. by rewrite lookup_ge_None_2. Qed.

Lemma AddOrigin_bindings b w ss p u :
  var_bindings (AddOrigin b w ss p) u =
    if decide (u = fst b)
    then alter (fun bd => mkBinding (data bd) (add_origin w ss (origins bd)))
               (snd b) (var_bindings p u)
    else var_bindings p u.
Proof.
  unfold AddOrigin. rewrite var_bindings_set_variables_alter.
  destruct (decide (u = fst b)) as [->|]; [|done].
  unfold var_bindings. by destruct (_ !! _).
Qed.

Lemma map_data_alter (f : list Origin -> list Origin) i bs :
  map data (alter (fun bd => mkBinding (data bd) (f (origins bd))) i bs) = map data bs.
Proof.
  revert i. induction bs as [|bd bs IH]; intros [|i]; simpl; [done|done|done|].
  f_equal. apply IH.
Qed.

Lemma AddOrigin_data b w ss p u : var_data (AddOrigin b w ss p) u = var_data p u.
Proof.
  unfold var_data. rewrite AddOrigin_bindings. destruct (decide (u = fst b)); [|done].
  apply (map_data_alter (add_origin w ss)).
Qed.

Lemma AddOrigin_length b w ss p :
  length (variables (AddOrigin b w ss p)) = length (variables p).
Proof. unfold AddOrigin. simpl. by rewrite length_alter. Qed.

Lemma AddBinding_bindings v d origin p u :
  v < length (variables p) ->
  var_bindings (snd (AddBinding v d origin p)) u =
    if decide (u = v) then var_bindings p v ++ [added_binding d origin]
    else var_bindings p u.
Proof.
  intros Hv. destruct (lookup_lt_is_Some_2 _ _ Hv) as [vd Hvd].
  unfold AddBinding. destruct origin as [[ss w]|]; simpl.
  - rewrite AddOrigin_bindings. simpl. rewrite var_bindings_set_variables_alter.
    destruct (decide (u = v)) as [->|]; [|done].
    rewrite Hvd. simpl. unfold var_bindings. rewrite Hvd.
    rewrite alter_app_r_alt by done. by rewrite Nat.sub_diag.
  - rewrite var_bindings_set_variables_alter.
    destruct (decide (u = v)) as [->|]; [|done].
    rewrite Hvd. simpl. unfold var_bindings. by rewrite Hvd.
Qed.

Lemma AddBinding_length v d origin p :
  length (variables (snd (AddBinding v d origin p))) = length (variables p).
Proof.
  unfold AddBinding. destruct origin as [[ss w]|]; cbv zeta; cbn [snd].
  - rewrite AddOrigin_length. simpl. apply length_alter.
  - simpl. apply length_alter.
Qed.

Lemma AddBinding_ref v d origin p :
  fst (AddBinding v d origin p) = (v, length (var_bindings p v)).
Proof. unfold AddBinding. by destruct origin as [[ss w]|]. Qed.

Lemma map_snd_imap {A B C} (f : nat -> A -> B) (g : A -> C) (l : list A) :
  map snd (imap (fun i x => (f i x, g x)) l) = map g l.
Proof.
  revert f. induction l as [|x l IH]; intros f; simpl; [done|].
  f_equal. apply (IH (fun i => f (S i))).
Qed.

Lemma binding_refs_data p v : map snd (binding_refs p v) = var_data p v.
Proof. unfold binding_refs, var_data. apply map_snd_imap. Qed.

Lemma pasted_data w refs : map data (pasted w refs) = map snd refs.
Proof. unfold pasted. rewrite map_map. by apply map_ext. Qed.

Lemma paste_fold_bindings dst w refs p u :
  dst < length (variables p) ->
  var_bindings
    (fold_left (fun q '(b, d) => snd (AddBinding dst d (Some ({[ b ]}, w)) q)) refs p) u =
    if decide (u = dst) then var_bindings p dst ++ pasted w refs
    else var_bindings p u.
Proof.
  revert p. induction refs as [|[b d] refs IH]; intros p Hdst; cbn [fold_left].
  - destruct (decide (u = dst)) as [->|]; [by rewrite app_nil_r|done].
  - rewrite IH by (by rewrite AddBinding_length).
    rewrite !AddBinding_bindings by done.
    destruct (decide (u = dst)) as [->|]; [|done].
    rewrite decide_True by done. by rewrite <- app_assoc.
Qed.

Lemma paste_fold_length dst w refs p :
  length (variables
    (fold_left (fun q '(b, d) => snd (AddBinding dst d (Some ({[ b ]}, w)) q)) refs p))
  = length (variables p).
Proof.
  revert p. induction refs as [|[b d] refs IH]; intros p; cbn [fold_left]; [done|].
  by rewrite IH, AddBinding_length.
Qed.

Lemma PasteVariable_bindings dst src w p u :
  dst < length (variables p) ->
  var_bindings (PasteVariable dst src w p) u =
    if decide (u = dst) then var_bindings p dst ++ pasted w (binding_refs p src)
    else var_bindings p u.
Proof. intros Hdst. unfold PasteVariable. by apply paste_fold_bindings. Qed.

Lemma PasteVariable_length dst src w p :
  length (variables (PasteVariable dst src w p)) = length (variables p).
Proof. apply paste_fold_length. Qed.

Lemma binding_refs_ext p q v :
  var_bindings p v = var_bindings q v -> binding_refs p v = binding_refs q v.
Proof. unfold binding_refs. by intros ->. Qed.

(** Merging two Variables: a fresh Variable with the copies of the bindings
    of the first, then of the second; the Variables that existed are left as
    they were. *)
Lemma MergeVariables_two n nm o v p :
  o < length (variables p) -> v < length (variables p) ->
  fst (MergeVariables n nm [o; v] p) = length (variables p) /\
  length (variables (snd (MergeVariables n nm [o; v] p))) = S (length (variables p)) /\
  (forall u, u < length (variables p) ->
     var_bindings (snd (MergeVariables n nm [o; v] p)) u = var_bindings p u) /\
  var_bindings (snd (MergeVariables n nm [o; v] p)) (length (variables p)) =
    pasted n (binding_refs p o) ++ pasted n (binding_refs p v).
Proof.
  intros Ho Hv. unfold MergeVariables.
  destruct (NewVariable nm p) as [r p1] eqn:Hnew.
  pose proof (NewVariable_fresh nm p) as (Hr & Hlen & _).
  pose proof (NewVariable_bindings nm p) as Hb.
  rewrite Hnew in Hr, Hlen, Hb. simpl in Hr, Hlen, Hb. subst r. simpl.
  assert (length (variables p) < length (variables p1)) as Hfresh by lia.
  split; [done|]. split; [by rewrite !PasteVariable_length|]. split.
  - intros u Hu. rewrite !PasteVariable_bindings by (rewrite ?PasteVariable_length; lia).
    rewrite !decide_False by lia. apply Hb.
  - rewrite !PasteVariable_bindings by (rewrite ?PasteVariable_length; lia).
    rewrite !decide_True by done. rewrite Hb.
    rewrite (var_bindings_fresh p) by lia. simpl.
    f_equal; f_equal; apply binding_refs_ext.
    + apply Hb.
    + rewrite PasteVariable_bindings by lia. rewrite decide_False by lia. apply Hb.
Qed.

End VariableFacts.

(** ** The frame stack across calls that complete *)

Lemma same_stack_refl vm : same_stack vm vm.
Proof. by split. Qed.

Lemma same_stack_trans vm1 vm2 vm3 :
  same_stack vm1 vm2 -> same_stack vm2 vm3 -> same_stack vm1 vm3.
Proof. intros [? ?] [? ?]. split; congruence. Qed.

Section BalancedFacts.
Context {A B : Type}.

Lemma balanced_ret (a : A) : balanced (ret a).
Proof. intros vm r vm' [= <- <-] _. apply same_stack_refl. Qed.

Lemma balanced_raise (e : Exc) : balanced (@raise VM A e).
Proof. intros vm r vm' [= <- <-] _. apply same_stack_refl. Qed.

Lemma balanced_gets (f : VM -> A) : balanced (gets f).
Proof. intros vm r vm' [= <- <-] _. apply same_stack_refl. Qed.

Lemma balanced_bind (m : M VM A) (k : A -> M VM B) :
  balanced m -> (forall a, balanced (k a)) -> balanced (bind m k).
Proof.
  intros Hm Hk vm r vm' Hrun Hr.
  destruct (bind_inv _ _ _ _ _ Hrun) as [(a & vm1 & Hm1 & Hk1)|(e & Hm1 & ->)].
  - eapply same_stack_trans; [eapply Hm; [exact Hm1|done]|eapply Hk; eauto].
  - eapply Hm; [exact Hm1|done].
Qed.

Lemma balanced_try_except (m : M VM A) (h : Exc -> option (M VM A)) :
  balanced m ->
  (forall e c, h e = Some c -> tolerated e = true /\ balanced c) ->
  balanced (try_except m h).
Proof.
  intros Hm Hh vm r vm' Hrun Hr. unfold try_except in Hrun.
  destruct (m vm) as [[a|e] vm1] eqn:Hm1.
  - inversion Hrun; subst. eapply Hm; [exact Hm1|done].
  - destruct (h e) as [c|] eqn:He.
    + destruct (Hh e c He) as [Htol Hc].
      eapply same_stack_trans; [eapply Hm; [exact Hm1|done]|eapply Hc; eauto].
    + inversion Hrun; subst. eapply Hm; [exact Hm1|done].
Qed.

Lemma balanced_on_program (m : M Program A) : balanced (on_program m).
Proof.
  intros vm r vm' Hrun _. unfold on_program in Hrun.
  destruct (m (program vm)) as [r1 p]. inversion Hrun; subst. by split.
Qed.

Lemma balanced_with_program (f : Program -> A * Program) : balanced (with_program f).
Proof.
  intros vm r vm' Hrun _. unfold with_program in Hrun.
  destruct (f (program vm)) as [a p]. inversion Hrun; subst. by split.
Qed.

End BalancedFacts.

Lemma balanced_modify (f : VM -> VM) :
  (forall vm, same_stack vm (f vm)) -> balanced (modify f).
Proof. intros Hf vm r vm' [= <- <-] _. apply Hf. Qed.

Lemma balanced_assert (b : bool) : balanced (assert b).
Proof. destruct b; [apply balanced_ret|apply balanced_raise]. Qed.

Lemma balanced_update_program (f : Program -> Program) : balanced (update_program f).
Proof. apply balanced_modify. intros vm. by split. Qed.

Lemma balanced_popn n s : balanced (State.popn (S:=VM) n s).
Proof. unfold State.popn. case_match; [apply balanced_raise|apply balanced_ret]. Qed.

Lemma balanced_topn n s : balanced (State.topn (S:=VM) n s).
Proof. unfold State.topn. apply balanced_ret. Qed.

Lemma balanced_top s : balanced (State.top (S:=VM) s).
Proof. unfold State.top. case_match; [apply balanced_ret|apply balanced_raise]. Qed.

Lemma balanced_pop s : balanced (State.pop (S:=VM) s).
Proof. unfold State.pop. case_match; [apply balanced_ret|apply balanced_raise]. Qed.

Create HintDb balanced.

(** Steps through a computation built from balanced parts. *)
Ltac balance :=
  repeat first
    [ match goal with |- forall _, _ => intro end
    | assumption
    | solve [auto 1 with balanced nocore]
    | apply balanced_ret | apply balanced_raise | apply balanced_gets
    | apply balanced_on_program | apply balanced_with_program
    | apply balanced_update_program | apply balanced_assert
    | apply balanced_popn | apply balanced_topn | apply balanced_top
    | apply balanced_pop
    | apply balanced_modify; intros ?; split; reflexivity
    | apply balanced_bind
    | match goal with
      | |- balanced (match ?x with _ => _ end) => destruct x
      end ].

Section Balanced.
Context `{AbstractOps} `{!BalancedOps}.


Lemma balanced_self_frame_current_opcode : balanced self_frame_current_opcode.
Proof. unfold self_frame_current_opcode. balance. Qed.
#[local] Hint Resolve balanced_self_frame_current_opcode : balanced.

Lemma balanced_update_self_frame f : balanced (update_self_frame f).
Proof. unfold update_self_frame. balance. Qed.
#[local] Hint Resolve balanced_update_self_frame : balanced.

Lemma balanced_report e : balanced (report e).
Proof. unfold report. balance. Qed.
#[local] Hint Resolve balanced_report : balanced.

Lemma balanced_log_record r : balanced (log_record r).
Proof. unfold log_record. balance. Qed.
#[local] Hint Resolve balanced_log_record : balanced.

Lemma balanced_create_new_unsolvable n nm : balanced (create_new_unsolvable n nm).
Proof. unfold create_new_unsolvable. balance. Qed.
#[local] Hint Resolve balanced_create_new_unsolvable : balanced.

Lemma balanced_join_cfg_nodes nodes : balanced (join_cfg_nodes nodes).
Proof.
  unfold join_cfg_nodes. balance.
  all: match goal with |- balanced (_ ?l) => induction l; balance end.
Qed.
#[local] Hint Resolve balanced_join_cfg_nodes : balanced.

Lemma balanced_join_variables n nm vs : balanced (join_variables n nm vs).
Proof. unfold join_variables. balance. Qed.
#[local] Hint Resolve balanced_join_variables : balanced.

Lemma balanced_call_function_body n args result fv acc :
  balanced (call_function_body n args result fv acc).
Proof.
  unfold call_function_body. destruct fv as [funcv func], acc as [[nodes error] e].
  apply balanced_bind.
  - apply balanced_try_except; [balance; try apply balanced_call|].
    intros ex c Hc. destruct ex; simplify_eq. split; [done|balance].
  - balance.
Qed.
#[local] Hint Resolve balanced_call_function_body : balanced.

Lemma balanced_call_function_loop n args result fs acc :
  balanced (call_function_loop n args result fs acc).
Proof.
  revert acc. induction fs as [|fv fs IH]; intros acc; simpl; balance;
    auto using balanced_call_function_body.
Qed.
#[local] Hint Resolve balanced_call_function_loop : balanced.

Lemma balanced_call_function n funcu args fb : balanced (call_function n funcu args fb).
Proof.
  unfold call_function. balance;
    auto using balanced_call_function_loop, balanced_join_cfg_nodes,
      balanced_self_frame_current_opcode, balanced_report,
      balanced_create_new_unsolvable.
Qed.
#[local] Hint Resolve balanced_call_function : balanced.

Lemma balanced_call_function_with_state s funcu pos fb :
  balanced (call_function_with_state s funcu pos fb).
Proof. unfold call_function_with_state. balance. Qed.
#[local] Hint Resolve balanced_call_function_with_state : balanced.

Lemma balanced_retrieve_attr_body n obj attr result val nodes :
  balanced (retrieve_attr_body n obj attr result val nodes).
Proof.
  unfold retrieve_attr_body. apply balanced_bind.
  - apply balanced_try_except; [apply balanced_get_attribute_generic|].
    intros ex c Hc. destruct ex; simplify_eq. split; [done|].
    balance; auto using balanced_self_frame_current_opcode, balanced_report,
      balanced_create_new_unsolvable.
  - balance; apply balanced_log_record.
Qed.
#[local] Hint Resolve balanced_retrieve_attr_body : balanced.

Lemma balanced_retrieve_attr_loop n obj attr result vals nodes :
  balanced (retrieve_attr_loop n obj attr result vals nodes).
Proof.
  revert nodes. induction vals as [|v vals IH]; intros nodes; simpl; balance;
    auto using balanced_retrieve_attr_body.
Qed.
#[local] Hint Resolve balanced_retrieve_attr_loop : balanced.

Lemma balanced_retrieve_attr n obj attr : balanced (_retrieve_attr n obj attr).
Proof.
  unfold _retrieve_attr. balance;
    auto using balanced_log_record, balanced_retrieve_attr_loop, balanced_join_cfg_nodes.
Qed.
#[local] Hint Resolve balanced_retrieve_attr : balanced.

Lemma balanced_load_attr s obj attr : balanced (load_attr s obj attr).
Proof.
  unfold load_attr. balance;
    auto using balanced_retrieve_attr, balanced_self_frame_current_opcode,
      balanced_report, balanced_create_new_unsolvable.
Qed.
#[local] Hint Resolve balanced_load_attr : balanced.

Lemma balanced_load_attr_noerror s obj attr : balanced (load_attr_noerror s obj attr).
Proof. unfold load_attr_noerror. balance. Qed.
#[local] Hint Resolve balanced_load_attr_noerror : balanced.

Lemma balanced_dispatch_operator s obj nm arg results missing :
  balanced (dispatch_operator s obj nm arg results missing).
Proof.
  unfold dispatch_operator. balance;
    auto using balanced_load_attr_noerror, balanced_call_function_with_state,
      balanced_log_record.
Qed.
#[local] Hint Resolve balanced_dispatch_operator : balanced.

Lemma balanced_binary_operator_results s nm x y :
  balanced (binary_operator_results s nm x y).
Proof.
  unfold binary_operator_results. balance;
    auto using balanced_log_record, balanced_dispatch_operator.
Qed.
#[local] Hint Resolve balanced_binary_operator_results : balanced.

Lemma balanced_call_binary_operator s nm x y re :
  balanced (call_binary_operator s nm x y re).
Proof.
  unfold call_binary_operator. balance;
    auto using balanced_binary_operator_results, balanced_join_variables,
      balanced_log_record, balanced_self_frame_current_opcode, balanced_report.
Qed.
#[local] Hint Resolve balanced_call_binary_operator : balanced.

Lemma balanced_call_inplace_operator s nm x y :
  balanced (call_inplace_operator s nm x y).
Proof.
  unfold call_inplace_operator. balance;
    auto using balanced_load_attr_noerror, balanced_log_record,
      balanced_call_binary_operator, balanced_call_function_with_state.
Qed.
#[local] Hint Resolve balanced_call_inplace_operator : balanced.

Lemma balanced_binary_operator s nm : balanced (binary_operator s nm).
Proof. unfold binary_operator. balance; apply balanced_call_binary_operator. Qed.
#[local] Hint Resolve balanced_binary_operator : balanced.

Lemma balanced_inplace_operator s nm : balanced (inplace_operator s nm).
Proof. unfold inplace_operator. balance; apply balanced_call_inplace_operator. Qed.
#[local] Hint Resolve balanced_inplace_operator : balanced.

Lemma balanced_byte_BINARY_SUBSCR s : balanced (byte_BINARY_SUBSCR s).
Proof.
  unfold byte_BINARY_SUBSCR. balance;
    auto using balanced_binary_operator, balanced_log_record.
Qed.
#[local] Hint Resolve balanced_byte_BINARY_SUBSCR : balanced.

Lemma balanced_frame_get {A} fr (f : Frame -> A) : balanced (frame_get fr f).
Proof. unfold frame_get. balance. Qed.
#[local] Hint Resolve balanced_frame_get : balanced.

Lemma balanced_self_frame : balanced self_frame.
Proof. unfold self_frame. balance. Qed.
#[local] Hint Resolve balanced_self_frame : balanced.

Lemma balanced_store_state fr target s : balanced (store_state fr target s).
Proof. unfold store_state. balance. Qed.
#[local] Hint Resolve balanced_store_state : balanced.

Lemma balanced_store_jump target s : balanced (store_jump target s).
Proof.
  unfold store_jump. balance; auto using balanced_self_frame, balanced_store_state.
Qed.
#[local] Hint Resolve balanced_store_jump : balanced.

Lemma balanced_bytecode_fn nm h s op :
  bytecode_fn nm = Some h -> balanced (h s op).
Proof.
  unfold bytecode_fn. intros Hh.
  repeat case_match; simplify_eq;
    eauto using balanced_binary_operator, balanced_inplace_operator,
      balanced_byte_BINARY_SUBSCR, balanced_other_bytecode.
  - unfold byte_POP_TOP, State.pop_and_discard. balance.
  - unfold byte_DUP_TOP. balance.
  - unfold byte_JUMP_FORWARD. balance.
  - unfold byte_JUMP_ABSOLUTE. balance.
  - unfold byte_BREAK_LOOP. balance.
  - unfold byte_CONTINUE_LOOP. balance.
Qed.
#[local] Hint Resolve balanced_bytecode_fn : balanced.

Lemma balanced_run_instruction op s : balanced (run_instruction op s).
Proof.
  unfold run_instruction. apply balanced_bind; [apply balanced_update_self_frame|].
  intros _. apply balanced_bind.
  - apply balanced_try_except.
    + destruct (bytecode_fn (op_name op)) eqn:Hfn; [|balance].
      eapply balanced_bytecode_fn; eauto.
    + intros ex c Hc. destruct ex; simplify_eq; (split; [done|balance]).
  - balance.
Qed.
#[local] Hint Resolve balanced_run_instruction : balanced.

Lemma balanced_run_ops ops s op : balanced (run_ops ops s op).
Proof.
  revert s op. induction ops as [|o ops IH]; intros s op; simpl; balance;
    auto using balanced_run_instruction.
Qed.
#[local] Hint Resolve balanced_run_ops : balanced.

Lemma balanced_run_block fr block rn : balanced (run_block fr block rn).
Proof.
  unfold run_block. balance;
    auto using balanced_frame_get, balanced_log_record, balanced_run_ops,
      balanced_store_state.
Qed.
#[local] Hint Resolve balanced_run_block : balanced.

Lemma balanced_run_blocks fr blocks rn : balanced (run_blocks fr blocks rn).
Proof.
  revert rn. induction blocks as [|b bs IH]; intros rn; simpl; balance;
    auto using balanced_run_block.
Qed.
#[local] Hint Resolve balanced_run_blocks : balanced.

Lemma push_frame_run fr vm :
  push_frame fr vm =
    (Ok tt, set_frame (Some fr) (set_frames (fun fs => fs ++ [fr]) vm)).
Proof. reflexivity. Qed.

Lemma pop_frame_top fr fs vm :
  frames vm = fs ++ [fr] ->
  pop_frame fr vm = (Ok tt, set_frame (last fs) (set_frames (fun _ => fs) vm)).
Proof.
  intros Hfs. unfold pop_frame, bind, gets, modify, assert, ret. simpl.
  rewrite Hfs, last_snoc. simpl.
  rewrite bool_decide_eq_true_2 by done. simpl.
  unfold set_frame, set_frames. simpl. rewrite Hfs, length_app. simpl.
  replace (length fs + 1 - 1) with (length fs) by lia.
  by rewrite take_app_length.
Qed.

Lemma pop_frame_other fr top fs vm :
  frames vm = fs ++ [top] -> top <> fr ->
  fst (pop_frame fr vm) = Raise AssertionError.
Proof.
  intros Hfs Hne. unfold pop_frame, bind, gets, modify, assert, ret. simpl.
  rewrite Hfs, last_snoc. simpl.
  by rewrite bool_decide_eq_false_2.
Qed.

Lemma run_frame_balanced fr n vm r vm' :
  run_frame fr n vm = (Ok r, vm') ->
  frames vm' = frames vm /\ frame vm' = last (frames vm).
Proof.
  unfold run_frame. intros Hrun.
  apply bind_inv in Hrun as [(? & vm1 & Hpush & Hrun)|(? & ? & ?)]; [|discriminate].
  rewrite push_frame_run in Hpush. inversion Hpush; subst; clear Hpush.
  apply bind_inv in Hrun as [(code & vm2 & Hcode & Hrun)|(? & ? & ?)]; [|discriminate].
  apply balanced_frame_get in Hcode as [Hfs2 Hf2]; try exact I.
  destruct (co_code code) as [|first ?]; [inversion Hrun|].
  apply bind_inv in Hrun as [(? & vm3 & Hinit & Hrun)|(? & ? & ?)]; [|discriminate].
  inversion Hinit; subst; clear Hinit.
  apply bind_inv in Hrun as [(rn & vm4 & Hblocks & Hrun)|(? & ? & ?)]; [|discriminate].
  apply balanced_run_blocks in Hblocks as [Hfs4 Hf4]; try exact I.
  apply bind_inv in Hrun as [(? & vm5 & Hpop & Hrun)|(? & ? & ?)]; [|discriminate].
  assert (frames vm4 = frames vm ++ [fr]) as Hstack.
  { rewrite Hfs4. simpl. rewrite Hfs2. done. }
  rewrite (pop_frame_top _ _ _ Hstack) in Hpop. inversion Hpop; subst; clear Hpop.
  apply bind_inv in Hrun as [(rv & vm6 & Hrv & Hrun)|(? & ? & ?)]; [|discriminate].
  apply balanced_frame_get in Hrv as [Hfs6 Hf6]; try exact I.
  assert (same_stack vm6 vm') as [Hfs' Hf'].
  { destruct rn.
    - inversion Hrun; subst. apply same_stack_refl.
    - apply bind_inv in Hrun as [(j & vm7 & Hj & Hrun)|(? & ? & ?)]; [|discriminate].
      inversion Hrun; subst. eapply balanced_join_cfg_nodes; [exact Hj|exact I]. }
  rewrite Hfs', Hf', Hfs6, Hf6. done.
Qed.

End Balanced.

(** C10: the call stack of frames is kept LIFO.  [push_frame] appends the
    frame and makes it the current frame; [pop_frame] removes the frame on
    top, which must be the frame it is given (anything else is an
    AssertionError), and makes the new top, or None, the current frame; a
    [run_frame] that returns leaves the stack as it found it, provided the
    calls made while it runs are balanced themselves. *)
Theorem frame_stack_is_lifo `{AbstractOps} `{!BalancedOps} (fr : nat) :
  (forall vm, exists vm1,
      push_frame fr vm = (Ok tt, vm1) /\
      frames vm1 = frames vm ++ [fr] /\ frame vm1 = Some fr) /\
  (forall vm fs top, frames vm = fs ++ [top] ->
      (top = fr -> exists vm1,
          pop_frame fr vm = (Ok tt, vm1) /\
          frames vm1 = fs /\ frame vm1 = last fs) /\
      (top <> fr -> fst (pop_frame fr vm) = Raise AssertionError)) /\
  (forall n vm r vm', run_frame fr n vm = (Ok r, vm') ->
      frames vm' = frames vm /\ length (frames vm') = length (frames vm) /\
      frame vm' = last (frames vm)).
Proof.
  repeat split.
  - intros vm. eexists. split; [apply push_frame_run|]. by split.
  - intros ->. eexists. split; [by apply pop_frame_top|]. by split.
  - intros Hne. by eapply pop_frame_other.
  - eapply run_frame_balanced; eauto.
  - f_equal. eapply run_frame_balanced; eauto.
  - eapply run_frame_balanced; eauto.
Qed.

(** ** Direct recursion *)

Section Recursion.
Context `{AbstractOps}.

Lemma update_self_frame_run f fr vm :
  frame vm = Some fr ->
  update_self_frame f vm = (Ok tt, set_frame_store (alter f fr) vm).
Proof. intros Hfr. unfold update_self_frame, bind, gets. simpl. by rewrite Hfr. Qed.

Lemma make_frame_recursion n code callargs g l closure new_locals vm :
  is_active code vm = true ->
  make_frame n code callargs g l closure new_locals vm =
    (Raise RecursionException,
     set_log (fun r => r ++ [LogDetectedRecursion (co_name code)]) vm).
Proof.
  intros Hact. unfold make_frame, bind, gets. simpl. by rewrite Hact.
Qed.

Lemma run_instruction_recursion op state vm fr fr' fn vm1 :
  frame vm = Some fr ->
  bytecode_fn (op_name op) = Some fn ->
  fn state op (set_frame_store (alter (set_current_opcode (Some op)) fr) vm)
    = (Raise RecursionException, vm1) ->
  frame vm1 = Some fr' ->
  run_instruction op state vm =
    (Ok (State.set_why "recursion" state),
     set_frame_store (alter (set_current_opcode None) fr') vm1).
Proof.
  intros Hfr Hfn Hrun Hfr'. unfold run_instruction.
  erewrite bind_ok; [|by apply update_self_frame_run].
  erewrite bind_ok.
  2:{ eapply try_except_caught; [rewrite Hfn; exact Hrun|reflexivity]. }
  simpl. erewrite bind_ok; [|by apply update_self_frame_run]. done.
Qed.

End Recursion.

(** C3: creating a frame for a code object that is already active on the
    frame stack raises RecursionException and reports nothing; when the
    handler of an instruction raises it, [run_instruction] returns the state
    it was given with the termination reason "recursion", adds nothing to the
    error log, and the block stops at that instruction. *)
Theorem direct_recursion_is_cut `{AbstractOps} :
  (forall n code callargs g l closure new_locals vm,
      is_active code vm = true ->
      exists vm',
        make_frame n code callargs g l closure new_locals vm
          = (Raise RecursionException, vm') /\
        errorlog vm' = errorlog vm /\ frames vm' = frames vm /\
        frame_store vm' = frame_store vm) /\
  (forall op state vm fr fr' fn vm1,
      frame vm = Some fr ->
      bytecode_fn (op_name op) = Some fn ->
      fn state op (set_frame_store (alter (set_current_opcode (Some op)) fr) vm)
        = (Raise RecursionException, vm1) ->
      frame vm1 = Some fr' ->
      exists vm2,
        run_instruction op state vm = (Ok (State.set_why "recursion" state), vm2) /\
        why (State.set_why "recursion" state) = Some "recursion" /\
        errorlog vm2 = errorlog vm1 /\
        forall rest o,
          run_ops (op :: rest) state o vm
            = (Ok (State.set_why "recursion" state, Some op), vm2)).
Proof.
  split.
  - intros n code callargs g l closure new_locals vm Hact.
    eexists. split; [by apply make_frame_recursion|]. done.
  - intros op state vm fr fr' fn vm1 Hfr Hfn Hrun Hfr'.
    eexists. split; [by eapply run_instruction_recursion|].
    repeat split. intros rest o. simpl.
    erewrite bind_ok; [|by eapply run_instruction_recursion]. done.
Qed.

(** ** Entry states *)

Section EntryStates.
Context `{AbstractOps}.

Lemma merge_slots_spec n slots p :
  (forall o v, (o, v) ∈ slots ->
     o < length (variables p) /\ v < length (variables p)) ->
  length (fst (State.merge_slots n slots p)) = length slots /\
  length (variables p) <= length (variables (snd (State.merge_slots n slots p))) /\
  (forall u, u < length (variables p) ->
     var_bindings (snd (State.merge_slots n slots p)) u = var_bindings p u) /\
  (forall i o v m,
     slots !! i = Some (o, v) ->
     fst (State.merge_slots n slots p) !! i = Some m ->
     length (variables p) <= m /\
     var_bindings (snd (State.merge_slots n slots p)) m =
       pasted n (binding_refs p o) ++ pasted n (binding_refs p v)).
Proof.
  revert p. induction slots as [|[o v] slots IH]; intros p Hvalid.
  - simpl. split_and!; [done|done|done|]. intros i o v m Hi. done.
  - cbn [State.merge_slots].
    destruct (Hvalid o v) as [Ho Hv]; [by left|].
    destruct (MergeVariables_two n "slot" o v p Ho Hv) as (Hm & Hlen & Hold & Hnew).
    destruct (MergeVariables n "slot" [o; v] p) as [m1 p1]. simpl in Hm, Hlen, Hold, Hnew.
    destruct (IH p1) as (IHlen & IHgrow & IHold & IHnew).
    { intros o' v' Hin. destruct (Hvalid o' v') as [? ?]; [by right|]. lia. }
    destruct (State.merge_slots n slots p1) as [ms p2]. simpl in *.
    split_and!; [by rewrite IHlen|lia| |].
    + intros u Hu. rewrite IHold by lia. by apply Hold.
    + intros [|i] o' v' m' Hslot Hm'; simpl in *.
      * inversion Hslot; inversion Hm'; subst. split; [done|].
        rewrite IHold by lia. done.
      * destruct (IHnew i o' v' m' Hslot Hm') as [Hge Hb]. split; [lia|].
        rewrite Hb.
        destruct (Hvalid o' v') as [? ?].
        { right. by eapply list_elem_of_lookup_2. }
        f_equal; f_equal; apply binding_refs_ext; by apply Hold.
Qed.

Lemma merge_into_first state p :
  State.merge_into state None p = (Ok state, p).
Proof. reflexivity. Qed.

Lemma merge_into_again state old p :
  length (data_stack state) = length (data_stack old) ->
  block_stack state = block_stack old ->
  State.merge_into state (Some old) p =
    (Ok (State.set_data_stack
           (fst (State.merge_slots (node old)
                   (zip (data_stack old) (data_stack state)) p)) old),
     snd (State.merge_slots (node old)
            (zip (data_stack old) (data_stack state)) p)).
Proof.
  intros Hlen Hblocks. unfold State.merge_into, bind, assert, ret.
  rewrite !bool_decide_eq_true_2 by done.
  by destruct (State.merge_slots _ _ p).
Qed.

Lemma store_state_run fr F target state vm :
  frame_store vm !! fr = Some F ->
  store_state fr target state vm =
    match State.merge_into state (states F !! target) (program vm) with
    | (Ok merged, p) =>
        (Ok tt, set_frame_store (alter (set_states <[target := merged]>) fr)
                  (set_program p vm))
    | (Raise e, p) => (Raise e, set_program p vm)
    end.
Proof.
  intros HF. unfold store_state, frame_get, bind, gets, on_program. simpl.
  rewrite HF. simpl.
  by destruct (State.merge_into state (states F !! target) (program vm)) as [[m|e] p].
Qed.

Lemma store_jump_run fr target state vm :
  frame vm = Some fr ->
  store_jump target state vm = store_state fr target state vm.
Proof. intros Hfr. unfold store_jump, self_frame, bind, gets. simpl. by rewrite Hfr. Qed.

Lemma has_why_false_why_is w s :
  State.has_why s = false -> w <> "" -> State.why_is w s = false.
Proof.
  unfold State.has_why, State.why_is. destruct (why s) as [w'|]; [|done].
  intros Hw Hne. apply negb_false_iff, String.eqb_eq in Hw. subst w'.
  by destruct w.
Qed.

Lemma entry_state_stored fr F target merged vm p :
  frame_store vm !! fr = Some F ->
  entry_state (set_frame_store (alter (set_states <[target := merged]>) fr)
                 (set_program p vm)) fr target = Some merged.
Proof.
  intros HF. unfold entry_state. simpl. rewrite list_lookup_alter_eq, HF. simpl.
  apply lookup_insert_eq.
Qed.

Lemma store_state_first fr F target state vm :
  frame_store vm !! fr = Some F -> states F !! target = None ->
  exists vm1,
    store_state fr target state vm = (Ok tt, vm1) /\
    entry_state vm1 fr target = Some state /\ program vm1 = program vm.
Proof.
  intros HF Hnone. rewrite (store_state_run _ _ _ _ _ HF), Hnone, merge_into_first.
  eexists. split; [done|]. split; [by eapply entry_state_stored|done].
Qed.

Lemma store_state_again fr F target state old vm :
  frame_store vm !! fr = Some F -> states F !! target = Some old ->
  length (data_stack state) = length (data_stack old) ->
  block_stack state = block_stack old ->
  (forall v, v ∈ data_stack old ++ data_stack state ->
     v < length (variables (program vm))) ->
  exists vm1 merged,
    store_state fr target state vm = (Ok tt, vm1) /\
    entry_state vm1 fr target = Some merged /\
    block_stack merged = block_stack old /\ node merged = node old /\
    merged_per_slot (program vm) (program vm1) old state merged.
Proof.
  intros HF Hold Hlen Hblocks Hvalid.
  rewrite (store_state_run _ _ _ _ _ HF), Hold, merge_into_again by done.
  destruct (merge_slots_spec (node old) (zip (data_stack old) (data_stack state))
              (program vm)) as (Hl & _ & _ & Hslots).
  { intros o v Hin. apply list_elem_of_lookup_1 in Hin as [i Hi].
    apply lookup_zip_with_Some in Hi as (o' & v' & [= -> ->] & Ho & Hv).
    split; apply Hvalid, elem_of_app; [left|right]; by eapply list_elem_of_lookup_2. }
  eexists _, _. split; [done|]. split; [by eapply entry_state_stored|].
  split; [done|]. split; [done|]. split.
  - simpl. rewrite Hl, length_zip_with. lia.
  - simpl. intros i o v m Ho Hv Hm.
    destruct (Hslots i o v m) as [_ Hb]; [|done|].
    { apply lookup_zip_with_Some. by exists o, v. }
    split; [done|]. unfold var_data at 1. rewrite Hb, map_app, !pasted_data.
    by rewrite !binding_refs_data.
Qed.

End EntryStates.

(** C4: the first state stored for an offset of a frame, by [store_jump] or
    by the roll-over at the end of a block in [run_frame], becomes the entry
    state of that offset; a state stored later is merged into the recorded
    one slot by slot (the merged slot holds the bindings of the recorded slot
    and those of the incoming slot), the recorded state is not replaced. *)
Theorem entry_state_first_then_merged `{AbstractOps}
    (fr target : nat) (state : FrameState) (vm : VM) (F : Frame) :
  frame_store vm !! fr = Some F ->
  (frame vm = Some fr ->
     store_jump target state vm = store_state fr target state vm) /\
  (forall first rest rn entry st o vm1,
     states F !! op_index first = Some entry ->
     run_ops (first :: rest) entry None vm = (Ok (st, Some o), vm1) ->
     State.has_why st = false -> carry_on_to_next o = true ->
     run_block fr (first :: rest) rn vm =
       (let '(r, vm2) := store_state fr (op_next o) st vm1 in
        (match r with Ok _ => Ok rn | Raise e => Raise e end, vm2))) /\
  (states F !! target = None ->
     exists vm1,
       store_state fr target state vm = (Ok tt, vm1) /\
       entry_state vm1 fr target = Some state /\ program vm1 = program vm) /\
  (forall old,
     states F !! target = Some old ->
     length (data_stack state) = length (data_stack old) ->
     block_stack state = block_stack old ->
     (forall v, v ∈ data_stack old ++ data_stack state ->
        v < length (variables (program vm))) ->
     exists vm1 merged,
       store_state fr target state vm = (Ok tt, vm1) /\
       entry_state vm1 fr target = Some merged /\
       block_stack merged = block_stack old /\ node merged = node old /\
       merged_per_slot (program vm) (program vm1) old state merged).
Proof.
  intros HF. split_and!.
  - intros Hfr. by apply store_jump_run.
  - intros first rest rn entry st o vm1 Hentry Hops Hwhy Hcarry.
    unfold run_block.
    erewrite bind_ok.
    2:{ unfold frame_get, bind, gets. simpl. rewrite HF. simpl. by rewrite Hentry. }
    cbv beta iota. erewrite bind_ok by exact Hops. cbv beta iota.
    rewrite !has_why_false_why_is by done. rewrite Hwhy, Hcarry. simpl.
    unfold bind. by destruct (store_state fr (op_next o) st vm1) as [[[]|e] vm2].
  - intros Hnone. by eapply store_state_first.
  - intros old. by eapply store_state_again.
Qed.

(** ** Containers and truthiness *)

Module AbstractFacts.
Import Cfg Abstract.

Lemma init_type_parameters_spec names i p :
  (forall nm v, type_parameters i !! nm = Some v -> var_bindings p v = []) ->
  cls (fst (init_type_parameters names i p)) = cls i /\
  (forall nm v,
     type_parameters (fst (init_type_parameters names i p)) !! nm = Some v ->
     var_bindings (snd (init_type_parameters names i p)) v = []).
Proof.
  revert i p. induction names as [|nm names IH]; intros i p Hi; [done|].
  cbn [init_type_parameters].
  pose proof (NewVariable_fresh nm p) as (Hv & _ & _).
  pose proof (NewVariable_bindings nm p) as Hb.
  destruct (NewVariable nm p) as [v p1]. simpl in Hv, Hb. subst v.
  apply (IH (mkInstance (cls i) (<[nm := length (variables p)]> (type_parameters i))) p1).
  intros nm' v. simpl. rewrite lookup_insert. case_decide.
  - intros [= <-]. rewrite Hb. by apply var_bindings_fresh.
  - intros Hv. rewrite Hb. by eapply Hi.
Qed.

Lemma has_known_parameter_false i p :
  (forall nm v, type_parameters i !! nm = Some v -> var_bindings p v = []) ->
  has_known_parameter i p = false.
Proof.
  intros Hi. unfold has_known_parameter. apply bool_decide_eq_false_2.
  intros (nm & v & Hv & Hne). apply Hne. by eapply Hi.
Qed.

Lemma has_known_parameter_true i p nm v :
  type_parameters i !! nm = Some v -> var_bindings p v <> [] ->
  has_known_parameter i p = true.
Proof.
  intros Hv Hne. unfold has_known_parameter. apply bool_decide_eq_true_2.
  by exists nm, v.
Qed.

Lemma pasted_nil w refs : pasted w refs = [] -> refs = [].
Proof. unfold pasted. by destruct refs. Qed.

Lemma binding_refs_nil p v : binding_refs p v = [] -> var_bindings p v = [].
Proof. unfold binding_refs. by destruct (var_bindings p v). Qed.

Lemma merge_type_parameter_known n nm value i p :
  (forall nm' v, type_parameters i !! nm' = Some v -> v < length (variables p)) ->
  value < length (variables p) ->
  var_bindings p value <> [] ->
  cls (fst (merge_type_parameter n nm value i p)) = cls i /\
  has_known_parameter (fst (merge_type_parameter n nm value i p))
                      (snd (merge_type_parameter n nm value i p)) = true.
Proof.
  intros Hvalid Hvalue Hne. unfold merge_type_parameter.
  destruct (type_parameters i !! nm) as [old|] eqn:Hold.
  - destruct (MergeVariables_two n nm old value p) as (Hm & _ & _ & Hb);
      [by eapply Hvalid|done|].
    destruct (MergeVariables n nm [old; value] p) as [m p1]. simpl in *. subst m.
    split; [done|].
    eapply (has_known_parameter_true _ _ nm); [simpl; apply lookup_insert_eq|].
    rewrite Hb. intros Hnil. apply app_eq_nil in Hnil as [_ Hnil].
    by apply Hne, binding_refs_nil, (pasted_nil n).
  - simpl. split; [done|].
    eapply (has_known_parameter_true _ _ nm); [simpl; apply lookup_insert_eq|done].
Qed.

(** C8: a list, set or dict value whose type parameters were initialised and
    never merged into cannot be true and can be false; once an element type
    with at least one binding has been merged into one of its type
    parameters, it can be true and can be false. *)
Theorem container_compatible_with (c : InstanceClass) :
  is_container c = true ->
  (forall names p,
     compatible_with (fst (init_type_parameters names (new_instance c) p)) true
                     (snd (init_type_parameters names (new_instance c) p)) = false /\
     compatible_with (fst (init_type_parameters names (new_instance c) p)) false
                     (snd (init_type_parameters names (new_instance c) p)) = true) /\
  (forall i p n nm value,
     cls i = c ->
     (forall nm' v, type_parameters i !! nm' = Some v -> v < length (variables p)) ->
     value < length (variables p) ->
     var_bindings p value <> [] ->
     compatible_with (fst (merge_type_parameter n nm value i p)) true
                     (snd (merge_type_parameter n nm value i p)) = true /\
     compatible_with (fst (merge_type_parameter n nm value i p)) false
                     (snd (merge_type_parameter n nm value i p)) = true).
Proof.
  intros Hc. split.
  - intros names p.
    destruct (init_type_parameters_spec names (new_instance c) p) as [Hcls Hempty];
      [by intros nm v; simpl; rewrite lookup_empty|].
    unfold compatible_with. rewrite Hcls. simpl. rewrite Hc.
    split; [by apply has_known_parameter_false|done].
  - intros i p n nm value Hi Hvalid Hvalue Hne.
    destruct (merge_type_parameter_known n nm value i p Hvalid Hvalue Hne) as [Hcls Hk].
    unfold compatible_with. rewrite Hcls, Hi, Hc. done.
Qed.

End AbstractFacts.

(** ** The complexity abort on its way out *)

Section Abort.
Context `{AbstractOps}.

Lemma aborts_bind_l {A B} (m : M VM A) (k : A -> M VM B) vm :
  aborts m vm -> aborts (bind m k) vm.
Proof.
  unfold aborts, bind. cbv beta. destruct (m vm) as [[a|e] vm1]; simpl; congruence.
Qed.

Lemma aborts_bind_r {A B} (m : M VM A) (k : A -> M VM B) vm a vm1 :
  m vm = (Ok a, vm1) -> aborts (k a) vm1 -> aborts (bind m k) vm.
Proof. intros Hm Hk. unfold aborts. by rewrite (bind_ok _ _ _ _ _ Hm). Qed.

Lemma aborts_try_except {A} (m : M VM A) h vm :
  aborts m vm -> h ProgramTooComplexError = None -> aborts (try_except m h) vm.
Proof.
  unfold aborts, try_except. cbv beta. destruct (m vm) as [[a|e] vm1]; simpl; [done|].
  intros [= ->] Hh. by rewrite Hh.
Qed.

Lemma run_instruction_aborts op state vm fr fn :
  frame vm = Some fr ->
  bytecode_fn (op_name op) = Some fn ->
  aborts (fn state op) (set_frame_store (alter (set_current_opcode (Some op)) fr) vm) ->
  aborts (run_instruction op state) vm.
Proof.
  intros Hfr Hfn Hab. unfold run_instruction.
  eapply aborts_bind_r; [by apply update_self_frame_run|].
  apply aborts_bind_l, aborts_try_except; [by rewrite Hfn|done].
Qed.

Lemma run_ops_app ops1 ops2 state op vm st1 x vm1 :
  run_ops ops1 state op vm = (Ok (st1, x), vm1) ->
  State.has_why st1 = false ->
  run_ops (ops1 ++ ops2) state op vm = run_ops ops2 st1 x vm1.
Proof.
  revert state op vm. induction ops1 as [|o ops1 IH]; intros state op vm Hrun Hwhy.
  - by inversion Hrun.
  - cbn [run_ops app] in *.
    apply bind_inv in Hrun as [(s & vm2 & Hs & Hrun)|(? & ? & ?)]; [|discriminate].
    rewrite (bind_ok _ _ _ _ _ Hs). destruct (State.has_why s) eqn:Hws.
    + inversion Hrun; subst. congruence.
    + by apply IH.
Qed.

Lemma run_ops_aborts ops1 o ops2 state op vm st1 x vm1 :
  run_ops ops1 state op vm = (Ok (st1, x), vm1) ->
  State.has_why st1 = false ->
  aborts (run_instruction o st1) vm1 ->
  aborts (run_ops (ops1 ++ o :: ops2) state op) vm.
Proof.
  intros Hrun Hwhy Hab. unfold aborts.
  rewrite (run_ops_app _ _ _ _ _ _ _ _ Hrun Hwhy).
  cbn [run_ops]. by apply aborts_bind_l.
Qed.

Lemma run_block_aborts fr F first rest rn entry vm :
  frame_store vm !! fr = Some F ->
  states F !! op_index first = Some entry ->
  aborts (run_ops (first :: rest) entry None) vm ->
  aborts (run_block fr (first :: rest) rn) vm.
Proof.
  intros HF Hentry Hab. unfold run_block.
  eapply aborts_bind_r.
  { unfold frame_get, bind, gets. simpl. rewrite HF. simpl. by rewrite Hentry. }
  by apply aborts_bind_l.
Qed.

Lemma run_blocks_aborts fr bs1 b bs2 rn rn1 vm vm1 :
  run_blocks fr bs1 rn vm = (Ok rn1, vm1) ->
  aborts (run_block fr b rn1) vm1 ->
  aborts (run_blocks fr (bs1 ++ b :: bs2) rn) vm.
Proof.
  revert rn vm. induction bs1 as [|b1 bs1 IH]; intros rn vm Hrun Hab.
  - inversion Hrun; subst. cbn [app run_blocks]. by apply aborts_bind_l.
  - cbn [app run_blocks] in *.
    apply bind_inv in Hrun as [(rn2 & vm2 & Hb & Hrun)|(? & ? & ?)]; [|discriminate].
    eapply aborts_bind_r; [exact Hb|]. by eapply IH.
Qed.

Lemma run_frame_aborts fr F n first rest vm :
  frame_store vm !! fr = Some F ->
  co_code (f_code F) = first :: rest ->
  aborts (run_blocks fr (order (f_code F)) [])
         (set_frame_store (alter (set_states <[op_index first := State.init n]>) fr)
            (set_frame (Some fr) (set_frames (fun fs => fs ++ [fr]) vm))) ->
  aborts (run_frame fr n) vm.
Proof.
  intros HF Hcode Hab. unfold run_frame.
  eapply aborts_bind_r; [apply push_frame_run|].
  eapply aborts_bind_r.
  { unfold frame_get, bind, gets. simpl. by rewrite HF. }
  rewrite Hcode.
  eapply aborts_bind_r; [reflexivity|]. by apply aborts_bind_l.
Qed.

Lemma run_bytecode_aborts n code g l fr vm1 vm :
  make_frame n code [] g l None false vm = (Ok fr, vm1) ->
  aborts (run_frame fr n) vm1 ->
  aborts (run_bytecode n code g l) vm.
Proof.
  intros Hmk Hab. unfold run_bytecode.
  eapply aborts_bind_r; [exact Hmk|]. by apply aborts_bind_l.
Qed.

Lemma run_program_aborts_builtins_node builtins code max_depth vm :
  aborts (on_program (ConnectNew (root_cfg_node vm) (Some "builtins")))
         (set_maximum_depth max_depth vm) ->
  aborts (run_program builtins code max_depth) vm.
Proof.
  intros Hab. unfold run_program.
  eapply aborts_bind_r; [reflexivity|].
  eapply aborts_bind_r; [reflexivity|]. by apply aborts_bind_l.
Qed.

Lemma run_program_aborts_builtins bc code max_depth vm n1 vm1 :
  on_program (ConnectNew (root_cfg_node vm) (Some "builtins"))
             (set_maximum_depth max_depth vm) = (Ok n1, vm1) ->
  aborts (run_bytecode n1 bc None None) vm1 ->
  aborts (run_program (Some bc) code max_depth) vm.
Proof.
  intros Hn1 Hab. unfold run_program.
  eapply aborts_bind_r; [reflexivity|].
  eapply aborts_bind_r; [reflexivity|].
  eapply aborts_bind_r; [exact Hn1|].
  apply aborts_bind_l, aborts_bind_l. unfold preload_builtins. by apply aborts_bind_l.
Qed.

Lemma run_program_aborts_code code max_depth vm n1 vm1 n2 vm2 :
  on_program (ConnectNew (root_cfg_node vm) (Some "builtins"))
             (set_maximum_depth max_depth vm) = (Ok n1, vm1) ->
  on_program (ConnectNew n1 (Some "init")) vm1 = (Ok n2, vm2) ->
  aborts (run_bytecode n2 code None None) vm2 ->
  aborts (run_program None code max_depth) vm.
Proof.
  intros Hn1 Hn2 Hab. unfold run_program.
  eapply aborts_bind_r; [reflexivity|].
  eapply aborts_bind_r; [reflexivity|].
  eapply aborts_bind_r; [exact Hn1|].
  eapply aborts_bind_r; [reflexivity|]. cbv beta iota.
  eapply aborts_bind_r; [exact Hn2|]. by apply aborts_bind_l.
Qed.

End Abort.

(** C5: the complexity counter of the Program never decreases; with
    abort_on_complex set, a sequence of graph mutations whose cumulative cost
    takes the counter above the ceiling ends in ProgramTooComplexError, and
    one whose cumulative cost keeps it at or below the ceiling runs to its
    end; nothing between the handler of an instruction and [run_program]
    catches the error: it leaves [run_instruction], the loops of
    [run_frame], [run_bytecode] and [run_program]. *)
Theorem complexity_abort_is_fatal `{AbstractOps} :
  (forall ms p, complexity p <= complexity (snd (Cfg.mutate_all ms p))) /\
  (forall ms p,
     abort_on_complex p = true -> complexity p <= max_complexity p ->
     (complexity p + CfgSpec.cumulative_cost ms p <= max_complexity p ->
      exists p', Cfg.mutate_all ms p = (Ok tt, p') /\
                 complexity p' = complexity p + CfgSpec.cumulative_cost ms p) /\
     (max_complexity p < complexity p + CfgSpec.cumulative_cost ms p ->
      exists p', Cfg.mutate_all ms p = (Raise ProgramTooComplexError, p') /\
                 max_complexity p < complexity p')) /\
  (forall op state vm fr fn,
     frame vm = Some fr ->
     bytecode_fn (op_name op) = Some fn ->
     aborts (fn state op)
            (set_frame_store (alter (set_current_opcode (Some op)) fr) vm) ->
     aborts (run_instruction op state) vm) /\
  (forall ops1 o ops2 state op vm st1 x vm1,
     run_ops ops1 state op vm = (Ok (st1, x), vm1) ->
     State.has_why st1 = false ->
     aborts (run_instruction o st1) vm1 ->
     aborts (run_ops (ops1 ++ o :: ops2) state op) vm) /\
  (forall fr F first rest rn entry vm,
     frame_store vm !! fr = Some F ->
     states F !! op_index first = Some entry ->
     aborts (run_ops (first :: rest) entry None) vm ->
     aborts (run_block fr (first :: rest) rn) vm) /\
  (forall fr bs1 b bs2 rn rn1 vm vm1,
     run_blocks fr bs1 rn vm = (Ok rn1, vm1) ->
     aborts (run_block fr b rn1) vm1 ->
     aborts (run_blocks fr (bs1 ++ b :: bs2) rn) vm) /\
  (forall fr F n first rest vm,
     frame_store vm !! fr = Some F ->
     co_code (f_code F) = first :: rest ->
     aborts (run_blocks fr (order (f_code F)) [])
            (set_frame_store
               (alter (set_states <[op_index first := State.init n]>) fr)
               (set_frame (Some fr) (set_frames (fun fs => fs ++ [fr]) vm))) ->
     aborts (run_frame fr n) vm) /\
  (forall n code g l fr vm1 vm,
     make_frame n code [] g l None false vm = (Ok fr, vm1) ->
     aborts (run_frame fr n) vm1 ->
     aborts (run_bytecode n code g l) vm) /\
  (forall builtins code max_depth vm,
     aborts (on_program (ConnectNew (root_cfg_node vm) (Some "builtins")))
            (set_maximum_depth max_depth vm) ->
     aborts (run_program builtins code max_depth) vm) /\
  (forall bc code max_depth vm n1 vm1,
     on_program (ConnectNew (root_cfg_node vm) (Some "builtins"))
                (set_maximum_depth max_depth vm) = (Ok n1, vm1) ->
     aborts (run_bytecode n1 bc None None) vm1 ->
     aborts (run_program (Some bc) code max_depth) vm) /\
  (forall code max_depth vm n1 vm1 n2 vm2,
     on_program (ConnectNew (root_cfg_node vm) (Some "builtins"))
                (set_maximum_depth max_depth vm) = (Ok n1, vm1) ->
     on_program (ConnectNew n1 (Some "init")) vm1 = (Ok n2, vm2) ->
     aborts (run_bytecode n2 code None None) vm2 ->
     aborts (run_program None code max_depth) vm).
Proof.
  split_and!.
  - intros ms p. apply CfgFacts.mutate_all_mono.
  - intros ms p. apply CfgFacts.mutate_all_ceiling.
  - intros. by eapply run_instruction_aborts.
  - intros. by eapply run_ops_aborts.
  - intros. by eapply run_block_aborts.
  - intros. by eapply run_blocks_aborts.
  - intros. by eapply run_frame_aborts.
  - intros. by eapply run_bytecode_aborts.
  - intros. by eapply run_program_aborts_builtins_node.
  - intros. by eapply run_program_aborts_builtins.
  - intros. by eapply run_program_aborts_code.
Qed.

(** ** What the parts of a call leave alone *)

Section Keeps.
Context (R : VM -> VM -> Prop) `{!Reflexive R} `{!Transitive R}.
Context {A B : Type}.

Lemma keeps_ret (a : A) : keeps R (ret a).
Proof. intros vm r vm' [= <- <-]. reflexivity. Qed.

Lemma keeps_raise (e : Exc) : keeps R (@raise VM A e).
Proof. intros vm r vm' [= <- <-]. reflexivity. Qed.

Lemma keeps_gets (f : VM -> A) : keeps R (gets f).
Proof. intros vm r vm' [= <- <-]. reflexivity. Qed.

Lemma keeps_bind (m : M VM A) (k : A -> M VM B) :
  keeps R m -> (forall a, keeps R (k a)) -> keeps R (bind m k).
Proof.
  intros Hm Hk vm r vm' Hrun.
  destruct (bind_inv _ _ _ _ _ Hrun) as [(a & vm1 & Hm1 & Hk1)|(e & Hm1 & ->)].
  - etransitivity; [eapply Hm|eapply Hk]; eauto.
  - eapply Hm; eauto.
Qed.

Lemma keeps_try_except (m : M VM A) (h : Exc -> option (M VM A)) :
  keeps R m -> (forall e c, h e = Some c -> keeps R c) -> keeps R (try_except m h).
Proof.
  intros Hm Hh vm r vm' Hrun. unfold try_except in Hrun.
  destruct (m vm) as [[a|e] vm1] eqn:Hm1.
  - inversion Hrun; subst. eapply Hm; eauto.
  - destruct (h e) as [c|] eqn:He.
    + etransitivity; [eapply Hm|eapply Hh]; eauto.
    + inversion Hrun; subst. eapply Hm; eauto.
Qed.

Lemma keeps_modify (f : VM -> VM) : (forall vm, R vm (f vm)) -> keeps R (modify f).
Proof. intros Hf vm r vm' [= <- <-]. apply Hf. Qed.

Lemma keeps_assert (b : bool) : keeps R (assert b).
Proof. destruct b; intros vm r vm' [= <- <-]; reflexivity. Qed.

Lemma keeps_on_program (m : M Program A) :
  (forall vm p, R vm (set_program p vm)) -> keeps R (on_program m).
Proof.
  intros Hp vm r vm' Hrun. unfold on_program in Hrun.
  destruct (m (program vm)) as [r1 p]. inversion Hrun; subst. apply Hp.
Qed.

Lemma keeps_with_program (f : Program -> A * Program) :
  (forall vm p, R vm (set_program p vm)) -> keeps R (with_program f).
Proof.
  intros Hp vm r vm' Hrun. unfold with_program in Hrun.
  destruct (f (program vm)) as [a p]. inversion Hrun; subst. apply Hp.
Qed.

End Keeps.

#[local] Instance same_but_nodes_refl : Reflexive same_but_nodes.
Proof. by intros vm. Qed.

#[local] Instance same_but_nodes_trans : Transitive same_but_nodes.
Proof.
  unfold same_but_nodes. intros vm1 vm2 vm3 H12 H23.
  destruct_and!. split_and!; congruence.
Qed.

Create HintDb keeps.

(** Steps through a computation built from parts that keep a relation. *)
Ltac keep :=
  repeat first
    [ match goal with |- forall _, _ => intro end
    | assumption
    | solve [auto 1 with keeps nocore]
    | apply keeps_ret; tc_solve | apply keeps_raise; tc_solve
    | apply keeps_gets; tc_solve | apply keeps_assert; tc_solve
    | apply keeps_on_program; intros ? ?; hnf; by repeat split
    | apply keeps_with_program; intros ? ?; hnf; by repeat split
    | apply keeps_modify; intros ?; hnf; by repeat split
    | apply keeps_bind; [tc_solve| |]
    | match goal with
      | |- keeps _ (match ?x with _ => _ end) => destruct x
      end ].


(** ** Call resolution *)

Section Calls.
Context `{AbstractOps}.

Lemma create_new_unsolvable_eq n nm vm :
  create_new_unsolvable n nm vm =
    (Ok (length (variables (program vm))),
     set_program
       (snd (AddBinding (length (variables (program vm))) Unsolvable (Some (∅, n))
               (snd (NewVariable nm (program vm))))) vm).
Proof.
  unfold create_new_unsolvable, bind, with_program, ret.
  pose proof (NewVariable_fresh nm (program vm)) as (Hv & _ & _).
  destruct (NewVariable nm (program vm)) as [v p1]. simpl in Hv. subst v.
  cbn [program set_program snd].
  by destruct (AddBinding (length (variables (program vm))) Unsolvable (Some (∅, n)) p1).
Qed.

Lemma create_new_unsolvable_run n nm vm :
  exists vm',
    create_new_unsolvable n nm vm = (Ok (length (variables (program vm))), vm') /\
    errorlog vm' = errorlog vm /\ log vm' = log vm /\
    frames vm' = frames vm /\ frame vm' = frame vm /\
    frame_store vm' = frame_store vm /\
    var_bindings (program vm') (length (variables (program vm))) = [unsolvable_at n] /\
    (forall u, u < length (variables (program vm)) ->
       var_bindings (program vm') u = var_bindings (program vm) u).
Proof.
  eexists. split; [apply create_new_unsolvable_eq|].
  pose proof (NewVariable_fresh nm (program vm)) as (_ & Hlen & _).
  pose proof (NewVariable_bindings nm (program vm)) as Hb.
  cbn [program set_program errorlog log frames frame frame_store].
  split_and!; try done.
  - rewrite AddBinding_bindings by lia. rewrite decide_True by done.
    rewrite Hb, var_bindings_fresh by lia. done.
  - intros u Hu. rewrite AddBinding_bindings by lia. rewrite decide_False by lia.
    apply Hb.
Qed.

Lemma call_function_body_fail n args result funcv func nodes error e0 vm e vm1 :
  call func n funcv args vm = (Raise (FailedFunctionCall e), vm1) ->
  call_function_body n args result (funcv, func) (nodes, error, e0) vm =
    (Ok (nodes, Some (default e error), Some e), vm1).
Proof.
  intros Hcall. unfold call_function_body.
  rewrite (bind_ok _ _ vm (inl e) vm1); [done|].
  eapply try_except_caught; [by rewrite (bind_raise _ _ _ _ _ Hcall)|reflexivity].
Qed.

Lemma paste_result_bindings result new_node funcv refs p u :
  result < length (variables p) ->
  var_bindings (paste_result result new_node funcv refs p) u =
    if decide (u = result)
    then var_bindings p result ++
         map (fun bd => mkBinding (snd bd)
                          [mkOrigin new_node {[ {[ fst bd; funcv ]} ]}]) refs
    else var_bindings p u.
Proof.
  unfold paste_result. revert p.
  induction refs as [|[b d] refs IH]; intros p Hvalid; cbn [fold_left].
  - destruct (decide (u = result)) as [->|]; [by rewrite app_nil_r|done].
  - change (let '(copy, q1) := AddBinding result d None p in
            AddOrigin copy new_node {[b; funcv]} q1)
      with (snd (AddBinding result d (Some ({[b; funcv]}, new_node)) p)).
    rewrite IH by (by rewrite AddBinding_length).
    rewrite !AddBinding_bindings by done.
    destruct (decide (u = result)) as [->|]; [|done].
    rewrite decide_True by done. by rewrite <- app_assoc.
Qed.

Lemma paste_result_length result new_node funcv refs p :
  length (variables (paste_result result new_node funcv refs p)) = length (variables p).
Proof.
  unfold paste_result. revert p.
  induction refs as [|[b d] refs IH]; intros p; cbn [fold_left]; [done|].
  change (let '(copy, q1) := AddBinding result d None p in
          AddOrigin copy new_node {[b; funcv]} q1)
    with (snd (AddBinding result d (Some ({[b; funcv]}, new_node)) p)).
  by rewrite IH, AddBinding_length.
Qed.

Lemma call_function_body_returned n args result funcv func nodes error e0 vm
    new_node one_result vm1 :
  call func n funcv args vm = (Ok (new_node, one_result), vm1) ->
  call_function_body n args result (funcv, func) (nodes, error, e0) vm =
    (Ok (nodes ++ [new_node], error, e0),
     set_program
       (paste_result result new_node funcv
          (binding_refs (program vm1) one_result) (program vm1)) vm1).
Proof.
  intros Hcall. unfold call_function_body.
  rewrite (bind_ok _ _ vm (inr (new_node, one_result)) vm1); [done|].
  apply try_except_ok. by rewrite (bind_ok _ _ _ _ _ Hcall).
Qed.

Lemma call_function_loop_run n args result fs vm vm1 os nodes error e0 :
  calls_run n args result fs vm vm1 os ->
  result < length (variables (program vm)) ->
  (exists error' e',
     call_function_loop n args result fs (nodes, error, e0) vm =
       (Ok (nodes ++ success_nodes os, error', e'), vm1)) /\
  var_bindings (program vm1) result =
    var_bindings (program vm) result ++ concat (map reattached os).
Proof.
  intros Hrun. revert nodes error e0.
  induction Hrun as [vm|funcv func fs vm vm1 vm2 e os Hcall Hsame Hvalid1 Hrest IH
                    |funcv func fs vm vm1 vm2 new_node one_result os Hcall Hsame Hvalid1 Hrest IH];
    intros nodes error e0 Hvalid.
  - split; [|by rewrite app_nil_r]. exists error, e0. simpl. by rewrite app_nil_r.
  - destruct (IH nodes (Some (default e error)) (Some e) Hvalid1)
      as [(error' & e' & Hloop) Hb].
    split.
    + exists error', e'. cbn [call_function_loop].
      erewrite bind_ok by (by apply call_function_body_fail). exact Hloop.
    + rewrite Hb, Hsame. done.
  - destruct (IH (nodes ++ [new_node]) error e0) as [(error' & e' & Hloop) Hb].
    { cbn [program set_program]. by rewrite paste_result_length. }
    split.
    + exists error', e'. cbn [call_function_loop].
      erewrite bind_ok by (by apply call_function_body_returned).
      rewrite Hloop. by rewrite <- app_assoc.
    + rewrite Hb. cbn [program set_program].
      rewrite paste_result_bindings by done. rewrite decide_True by done.
      rewrite Hsame. cbn [map concat]. rewrite <- app_assoc. done.
Qed.






End Calls.


(** ** Attribute resolution *)

Section Attributes.
Context `{AbstractOps}.

Lemma retrieve_attr_body_absent n obj attr result b val nodes vm vm1 node2 attr_var :
  get_attribute_generic val n attr b vm = (Ok (node2, attr_var), vm1) ->
  match attr_var with
  | Some av => var_bindings (program vm1) av = []
  | None => True
  end ->
  retrieve_attr_body n obj attr result (b, val) nodes vm =
    (Ok nodes, set_log (fun l => l ++ [LogNoAttrOn attr val]) vm1).
Proof.
  intros Hget Habs. unfold retrieve_attr_body.
  rewrite (bind_ok _ _ vm (node2, attr_var) vm1); [|by apply try_except_ok].
  cbv beta iota. rewrite (bind_ok _ _ vm1 (program vm1) vm1); [|done].
  destruct attr_var as [av|]; [|done].
  by rewrite bool_decide_eq_true_2.
Qed.

Lemma retrieve_attr_loop_absent n obj attr result vals nodes vm vm1 :
  attribute_absent n attr vals vm vm1 ->
  retrieve_attr_loop n obj attr result vals nodes vm = (Ok nodes, vm1).
Proof.
  induction 1 as [vm|b val vals vm vm1 vm2 node2 attr_var Hget Habs Hrest IH]; [done|].
  cbn [retrieve_attr_loop].
  erewrite bind_ok by (by eapply retrieve_attr_body_absent). apply IH.
Qed.

Lemma retrieve_attr_absent n obj attr vm vm1 :
  attribute_absent n attr
    (Bindings (program (with_attr_variable vm obj attr)) obj n)
    (with_attr_variable vm obj attr) vm1 ->
  _retrieve_attr n obj attr vm = (Ok (n, None), vm1).
Proof.
  intros Habs. unfold _retrieve_attr.
  rewrite (bind_ok _ _ vm (length (variables (program vm)))
             (set_program (snd (NewVariable attr (program vm))) vm)).
  2:{ unfold with_program.
      pose proof (NewVariable_fresh attr (program vm)) as (Hv & _ & _).
      destruct (NewVariable attr (program vm)) as [v p1]. simpl in Hv. by subst v. }
  erewrite bind_ok by reflexivity.
  erewrite bind_ok by reflexivity. cbv beta.
  erewrite bind_ok by (by apply retrieve_attr_loop_absent). done.
Qed.

Lemma is_only_none_spec p n obj :
  _is_only_none p n obj = true <-> Forall (of_none_type p) (Data p obj n).
Proof.
  unfold _is_only_none. generalize (Data p obj n). intros xs.
  assert (forall h,
    (fix loop (xs : list Value) (has_none : bool) {struct xs} : bool :=
       match xs with
       | [] => has_none
       | x :: xs' =>
           match cls_of x with
           | Some c =>
               if bool_decide (var_data p c = var_data p none_type)
               then loop xs' true else false
           | None => false
           end
       end) xs h = true <->
    Forall (of_none_type p) xs /\ (xs = [] -> h = true)) as Hloop.
  { induction xs as [|x xs IH]; intros h.
    - split; [by intros ->|]. intros [_ Hh]. by apply Hh.
    - destruct x as [| |nm|c|nm]; simpl;
        try (split; [done|]; intros [Hall _];
             inversion Hall as [|?? (c' & Hc' & _)]; discriminate).
      case_bool_decide as Hc.
      + rewrite IH. split.
        * intros [Hall _]. split; [|done]. constructor; [by exists c|done].
        * intros [Hall _]. inversion Hall; subst. split; done.
      + split; [done|]. intros [Hall _].
        inversion Hall as [|?? (c' & Hc' & Hd)]. inversion Hc'; subst. done. }
  rewrite Hloop. split; [by intros [? _]|by intros ?; split].
Qed.

End Attributes.

(** C7: when the attribute is absent on every binding of the object that is
    visible at the node and the object has a binding, [load_attr] reports
    exactly one error: the none-attribute error when every value of the
    object visible at the node is of the None type, the attribute error
    otherwise; its result is a fresh Variable whose only binding is the
    give-up value. *)
Theorem missing_attribute_reported_once `{AbstractOps}
    (state : FrameState) (obj : Var) (attr : string) (vm vm1 : VM) (op : Opcode) :
  attribute_absent (node state) attr
    (Bindings (program (with_attr_variable vm obj attr)) obj (node state))
    (with_attr_variable vm obj attr) vm1 ->
  var_bindings (program vm1) obj <> [] ->
  self_frame_current_opcode vm1 = (Ok op, vm1) ->
  exists vm2,
    load_attr state obj attr vm
      = (Ok (State.change_cfg_node (node state) state,
             length (variables (program vm1))), vm2) /\
    (Forall (of_none_type (program vm1)) (Data (program vm1) obj (node state)) ->
       errorlog vm2 = errorlog vm1 ++ [none_attr op attr]) /\
    (~ Forall (of_none_type (program vm1)) (Data (program vm1) obj (node state)) ->
       errorlog vm2 = errorlog vm1 ++ [attribute_error op obj attr]) /\
    var_bindings (program vm2) (length (variables (program vm1)))
      = [unsolvable_at (node state)].
Proof.
  intros Habs Hne Hop. unfold load_attr.
  erewrite bind_ok by (by apply retrieve_attr_absent). cbv beta iota.
  pose proof (is_only_none_spec (program vm1) (node state) obj) as Hnone.
  destruct (_is_only_none (program vm1) (node state) obj) eqn:Hb.
  - destruct (create_new_unsolvable_run (node state) "bad attr"
                (set_errorlog (ErrorLog.report (none_attr op attr)) vm1))
      as (vm2 & Hrun & Hlog & _ & _ & _ & _ & Hu & _).
    exists vm2. split_and!; [|done| |done].
    + erewrite bind_ok; [done|].
      erewrite bind_ok by reflexivity. cbv beta.
      rewrite bool_decide_eq_false_2 by done. simpl.
      erewrite bind_ok.
      2:{ erewrite bind_ok by exact Hop. rewrite Hb. reflexivity. }
      exact Hrun.
    + intros Hnot. destruct Hnot. by apply Hnone.
  - destruct (create_new_unsolvable_run (node state) "bad attr"
                (set_errorlog (ErrorLog.report (attribute_error op obj attr)) vm1))
      as (vm2 & Hrun & Hlog & _ & _ & _ & _ & Hu & _).
    exists vm2. split_and!; [| |done|done].
    + erewrite bind_ok; [done|].
      erewrite bind_ok by reflexivity. cbv beta.
      rewrite bool_decide_eq_false_2 by done. simpl.
      erewrite bind_ok.
      2:{ erewrite bind_ok by exact Hop. rewrite Hb. reflexivity. }
      exact Hrun.
    + intros Hall. apply Hnone in Hall. congruence.
Qed.

(** ** Operator dispatch *)

Section Operators.
Context `{AbstractOps}.


(** Reading the current opcode leaves the interpreter as it is. *)
Lemma self_frame_current_opcode_reads vm op :
  fst (self_frame_current_opcode vm) = Ok op ->
  self_frame_current_opcode vm = (Ok op, vm).
Proof.
  unfold self_frame_current_opcode, bind, gets. simpl.
  destruct (frame vm) as [fr|]; [|done].
  destruct (frame_store vm !! fr) as [F|]; [|done].
  destruct (current_opcode F); [|done]. simpl. by intros [= ->].
Qed.

(** [call_binary_operator] after the dispatches: the join of the results and
    the check that may report. *)
Lemma call_binary_operator_run state nm x y re vm st1 results vmr :
  binary_operator_results state nm x y vm = (Ok (st1, results), vmr) ->
  call_binary_operator state nm x y re vm =
    let result := fst (MergeVariables (node st1) nm results (program vmr)) in
    let vmc := set_log (fun l => l ++ [LogResult result])
                 (set_program (snd (MergeVariables (node st1) nm results (program vmr)))
                              vmr) in
    if bool_decide (var_bindings (program vmc) result = []) && re
    then (let* op := self_frame_current_opcode in
          report (unsupported_operands op (node st1) nm x y) ;;;
          ret (st1, result)) vmc
    else (Ok (st1, result), vmc).
Proof.
  intros Hres. unfold call_binary_operator.
  erewrite bind_ok by exact Hres. cbv beta iota.
  unfold join_variables, with_program, bind at 1.
  destruct (MergeVariables (node st1) nm results (program vmr)) as [result p].
  cbv beta iota zeta. cbn [fst snd].
  erewrite bind_ok by reflexivity.
  erewrite bind_ok by reflexivity. cbv beta.
  cbn [program set_log set_program].
  destruct (bool_decide (var_bindings p result = []) && re); [|done].
  unfold bind. by destruct (self_frame_current_opcode _) as [[op|e] vm2].
Qed.

Lemma call_binary_operator_report state nm x y vm sc result vm1 :
  call_binary_operator state nm x y true vm = (Ok (sc, result), vm1) ->
  var_bindings (program vm1) result = [] ->
  exists op log1,
    errorlog vm1 = log1 ++ [unsupported_operands op (node sc) nm x y].
Proof.
  intros Hrun Hempty.
  assert (exists st1 results vmr,
            binary_operator_results state nm x y vm = (Ok (st1, results), vmr))
    as (st1 & results & vmr & Hres).
  { unfold call_binary_operator in Hrun.
    apply bind_inv in Hrun as [([st1 results] & vmr & Hres & _)|(? & ? & ?)];
      [eauto|discriminate]. }
  rewrite (call_binary_operator_run _ _ _ _ _ _ _ _ _ Hres) in Hrun.
  cbv zeta in Hrun. cbn [program set_log set_program] in Hrun.
  case_bool_decide as Hb; cbn [andb] in Hrun.
  - apply bind_inv in Hrun as [(op & vm2 & Hop & Hrun)|(? & ? & ?)]; [|discriminate].
    assert (vm2 = set_log (fun l => l ++ [LogResult
              (fst (MergeVariables (node st1) nm results (program vmr)))])
              (set_program (snd (MergeVariables (node st1) nm results (program vmr)))
                 vmr)) as ->.
    { unfold self_frame_current_opcode, bind, gets in Hop. simpl in Hop.
      repeat case_match; by inversion Hop. }
    inversion Hrun; subst. eexists _, _. reflexivity.
  - inversion Hrun; subst. cbn [program set_log set_program] in Hempty. done.
Qed.

Lemma binary_operator_inv state nm vm st1 vm1 :
  binary_operator state nm vm = (Ok st1, vm1) ->
  exists s0 x y sc result,
    call_binary_operator s0 nm x y true vm = (Ok (sc, result), vm1) /\
    st1 = State.push [result] sc.
Proof.
  unfold binary_operator. intros Hrun.
  apply bind_inv in Hrun as [([s0 vs] & vm0 & Hpop & Hrun)|(? & ? & ?)]; [|discriminate].
  assert (vm0 = vm) as ->.
  { unfold State.popn, raise, ret in Hpop.
    destruct (length (data_stack state) <? 2); inversion Hpop; done. }
  simpl in Hrun. destruct vs as [|x [|y [|z vs]]]; try discriminate.
  apply bind_inv in Hrun as [([sc result] & vm2 & Hcall & Hrun)|(? & ? & ?)];
    [|discriminate].
  inversion Hrun; subst. by exists s0, x, y, sc, result.
Qed.

Lemma topn_two state (vm : VM) :
  2 <= length (data_stack state) ->
  exists container index, State.topn 2 state vm = (Ok [container; index], vm).
Proof.
  intros Hlen. unfold State.topn, ret.
  destruct (drop (length (data_stack state) - 2) (data_stack state))
    as [|a [|b [|c l]]] eqn:Hdrop.
  - apply (f_equal length) in Hdrop. rewrite length_drop in Hdrop. simpl in Hdrop. lia.
  - apply (f_equal length) in Hdrop. rewrite length_drop in Hdrop. simpl in Hdrop. lia.
  - by exists a, b.
  - apply (f_equal length) in Hdrop. rewrite length_drop in Hdrop. simpl in Hdrop. lia.
Qed.









End Operators.


(** C9: when the [__getitem__] dispatch of BINARY_SUBSCR leaves a result
    without bindings, the error log is cut back to where it was before the
    operation (the unsupported-operands error that the dispatch reported is
    dropped with everything the operation reported) and the give-up value
    is bound to the result on top of the stack. *)
Theorem failed_subscript_is_silent `{AbstractOps}
    (state : FrameState) (vm : VM) (st1 : FrameState) (vm1 : VM) (top : Var) :
  2 <= length (data_stack state) ->
  binary_operator state "__getitem__" vm = (Ok st1, vm1) ->
  last (data_stack st1) = Some top ->
  var_bindings (program vm1) top = [] ->
  top < length (variables (program vm1)) ->
  errorlog vm `prefix_of` errorlog vm1 ->
  exists vm2,
    byte_BINARY_SUBSCR state vm = (Ok st1, vm2) /\
    errorlog vm2 = errorlog vm /\
    var_bindings (program vm2) top = [unsolvable_at (node st1)] /\
    exists op x y log1,
      errorlog vm1 = log1 ++ [unsupported_operands op (node st1) "__getitem__" x y].
Proof.
  intros Hlen Hrun Htop Hempty Hvalid [suffix Hprefix].
  destruct (topn_two state vm Hlen) as (container & index & Htopn).
  exists (set_program
            (snd (AddBinding top Unsolvable (Some (∅, node st1)) (program vm1)))
            (set_log (fun l => l ++ [LogCantAccess container index])
               (set_errorlog (ErrorLog.revert_to (ErrorLog.save (errorlog vm))) vm1))).
  split_and!.
  - unfold byte_BINARY_SUBSCR.
    erewrite bind_ok by exact Htopn. cbv beta iota.
    erewrite bind_ok by reflexivity. cbv beta.
    erewrite bind_ok by exact Hrun.
    erewrite bind_ok by (unfold State.top; by rewrite Htop).
    erewrite bind_ok by reflexivity. cbv beta.
    rewrite bool_decide_eq_true_2 by done. cbn [negb].
    erewrite bind_ok by reflexivity.
    erewrite bind_ok by reflexivity.
    unfold with_program, bind. cbn [program set_log set_errorlog].
    by destruct (AddBinding top Unsolvable (Some (∅, node st1)) (program vm1)).
  - cbn [errorlog set_program set_log set_errorlog].
    unfold ErrorLog.revert_to, ErrorLog.save. rewrite Hprefix.
    by rewrite take_app_length.
  - cbn [program set_program]. rewrite AddBinding_bindings by done.
    rewrite decide_True by done. by rewrite Hempty.
  - apply binary_operator_inv in Hrun as (s0 & x & y & sc & result & Hcall & ->).
    simpl in Htop. rewrite last_snoc in Htop. inversion Htop; subst result.
    destruct (call_binary_operator_report _ _ _ _ _ _ _ _ Hcall Hempty)
      as (op & log1 & Hlog).
    by exists op, x, y, log1.
Qed.

(** ** Joining the nodes of the calls *)

Section Join.
Context `{AbstractOps}.

Lemma NewCFGNode_variables nm p r p' :
  NewCFGNode nm p = (r, p') -> variables p' = variables p.
Proof.
  unfold NewCFGNode, charge, bind, gets, modify, ret, raise. simpl.
  destruct (abort_on_complex p && _); intros [= <- <-]; done.
Qed.

Lemma ConnectTo_variables n to p r p' :
  ConnectTo n to p = (r, p') -> variables p' = variables p.
Proof.
  unfold ConnectTo, charge, bind, gets, modify, ret, raise. simpl.
  destruct (abort_on_complex p && _); intros [= <- <-]; done.
Qed.

Lemma keeps_nodes_on_program {A} (m : M Program A) :
  (forall p r p', m p = (r, p') -> variables p' = variables p) ->
  keeps same_but_nodes (on_program m).
Proof.
  intros Hm vm r vm' Hrun. unfold on_program in Hrun.
  destruct (m (program vm)) as [r1 p] eqn:Hp. inversion Hrun; subst.
  unfold same_but_nodes. simpl. split_and!; try done. by eapply Hm.
Qed.

Lemma connect_all_keeps r l :
  keeps same_but_nodes
    ((fix connect (ns : list nat) : M VM unit :=
        match ns with
        | [] => ret tt
        | n :: ns' => on_program (ConnectTo n r);;; connect ns'
        end) l).
Proof.
  induction l as [|x l IH]; [apply keeps_ret; tc_solve|].
  apply keeps_bind; [tc_solve| |by intros _].
  apply keeps_nodes_on_program. intros p r0 p'. apply ConnectTo_variables.
Qed.

Lemma join_cfg_nodes_keeps nodes : keeps same_but_nodes (join_cfg_nodes nodes).
Proof.
  unfold join_cfg_nodes.
  apply keeps_bind; [tc_solve|apply keeps_assert; tc_solve|]. intros _.
  destruct nodes as [|n [|n' nodes]]; [|apply keeps_ret; tc_solve|].
  - apply keeps_bind;
      [tc_solve|apply keeps_nodes_on_program, NewCFGNode_variables|].
    intros r. apply keeps_bind;
      [tc_solve|apply (connect_all_keeps r [])|intros _; apply keeps_ret; tc_solve].
  - apply keeps_bind;
      [tc_solve|apply keeps_nodes_on_program, NewCFGNode_variables|].
    intros r. apply keeps_bind;
      [tc_solve|apply (connect_all_keeps r (n :: n' :: nodes))
      |intros _; apply keeps_ret; tc_solve].
Qed.

Lemma join_cfg_nodes_single n vm : join_cfg_nodes [n] vm = (Ok n, vm).
Proof. reflexivity. Qed.

End Join.

(** C1, as the code has it: [call_function] calls every candidate binding
    of the callable on its own; it reports no failure while at least one call
    returns; the bindings the calls return are all copied into one return
    Variable, each with an Origin at the node its call returned whose source
    set is the returned binding together with the callable binding that was
    called; the node returned is the join of the nodes of the calls. *)
Theorem call_results_merged `{AbstractOps}
    (n : CFGNode) (funcu : Var) (args : FunctionArgs) (fb : bool)
    (vm vm1 : VM) (os : list (Binding * CallOutcome)) :
  binding_refs (program vm) funcu <> [] ->
  calls_run n args (length (variables (program vm)))
            (binding_refs (program vm) funcu)
            (with_return_variable vm funcu) vm1 os ->
  success_nodes os <> [] ->
  call_function n funcu args fb vm =
    (match fst (join_cfg_nodes (success_nodes os) vm1) with
     | Ok j => Ok (j, length (variables (program vm)))
     | Raise e => Raise e
     end, snd (join_cfg_nodes (success_nodes os) vm1)) /\
  errorlog (snd (join_cfg_nodes (success_nodes os) vm1)) = errorlog vm1 /\
  var_bindings (program (snd (join_cfg_nodes (success_nodes os) vm1)))
               (length (variables (program vm)))
    = concat (map reattached os) /\
  (forall new_node, success_nodes os = [new_node] ->
     call_function n funcu args fb vm
       = (Ok (new_node, length (variables (program vm))), vm1)).
Proof.
  intros Hne Hrun Hsome.
  destruct (call_function_loop_run n args _ _ _ _ _ [] None None Hrun)
    as [(error' & e' & Hloop) Hb].
  { unfold with_return_variable. cbn [program set_program].
    pose proof (NewVariable_fresh
      ("<return:" +:+ default "" (name <$> variables (program vm) !! funcu) +:+ ">")
      (program vm)) as (_ & Hlen & _). lia. }
  assert (call_function n funcu args fb vm =
          (let* j := join_cfg_nodes (success_nodes os) in
           ret (j, length (variables (program vm)))) vm1) as Hcf.
  { unfold call_function.
    erewrite bind_ok by reflexivity. cbv beta.
    erewrite bind_ok.
    2:{ unfold assert. by rewrite bool_decide_eq_false_2. }
    erewrite bind_ok by reflexivity. cbv beta.
    erewrite bind_ok by reflexivity. cbv beta.
    erewrite bind_ok by exact Hloop.
    cbv beta iota. simpl app. by rewrite bool_decide_eq_false_2. }
  destruct (join_cfg_nodes (success_nodes os) vm1) as [r vm2] eqn:Hj.
  destruct (join_cfg_nodes_keeps _ _ _ _ Hj) as (Hlog & _ & _ & _ & _ & Hvars).
  cbn [fst snd]. split_and!.
  - rewrite Hcf. unfold bind. rewrite Hj. by destruct r.
  - done.
  - unfold var_bindings in *. rewrite Hvars, Hb.
    unfold with_return_variable. cbn [program set_program].
    fold (var_bindings
            (snd (NewVariable
               ("<return:" +:+ default "" (name <$> variables (program vm) !! funcu) +:+ ">")
               (program vm))) (length (variables (program vm)))).
    rewrite NewVariable_bindings, var_bindings_fresh by done. done.
  - intros new_node Hone. rewrite Hcf, Hone. unfold bind.
    by rewrite join_cfg_nodes_single.
Qed.

(** * Further properties of the virtual machine *)

(** ** Reflected operator names *)

Lemma reversable_cases (P : string -> Prop) :
  Forall P reversable_operators ->
  forall nm, nm ∈ reversable_operators -> P nm.
Proof. intros HP nm Hin. by eapply Forall_forall in HP. Qed.

(** X1. reverse_operator_name: the reflected name of a reversible operator is
    "__r" followed by the name without its first two characters; the name can
    be read back from it; and the reflected name is never itself reversible,
    so a reflected operator has no reflection of its own. *)
Theorem reverse_operator_name_is_one_way (nm r : string) :
  reverse_operator_name nm = Some r ->
  r = "__r" +:+ String.substring 2 (String.length nm - 2) nm /\
  unreversed r = nm /\
  (r ∉ reversable_operators) /\
  reverse_operator_name r = None.
Proof.
  unfold reverse_operator_name. case_bool_decide as Hin; [|discriminate].
  intros [= <-]. revert nm Hin. apply reversable_cases.
  repeat constructor; try reflexivity;
    solve [intros Hr; repeat (apply elem_of_cons in Hr as [Hr|Hr]; [discriminate Hr|]);
           by apply elem_of_nil in Hr].
Qed.

(** X2. reverse_operator_name: two reversible operators never share a reflected
    name. *)
Theorem reverse_operator_name_injective (nm1 nm2 r : string) :
  reverse_operator_name nm1 = Some r ->
  reverse_operator_name nm2 = Some r ->
  nm1 = nm2.
Proof.
  assert (forall nm r', reverse_operator_name nm = Some r' -> unreversed r' = nm) as Hback.
  { intros nm r'. unfold reverse_operator_name. case_bool_decide as Hin; [|discriminate].
    intros [= <-]. revert nm Hin. apply reversable_cases.
    repeat constructor; reflexivity. }
  intros H1 H2. apply Hback in H1, H2. congruence.
Qed.

(** ** The in-place operators *)

(** X3. The in-place opcodes: every INPLACE_X handler names a method whose
    fall-back, the name without its first "i", is the method that the
    BINARY_X handler dispatches to. *)
Theorem inplace_falls_back_to_binary_method :
  Forall (fun '(opname, iname) =>
            assoc (binary_opcode_of opname) binary_opcodes = Some (remove_first_i iname))
         inplace_opcodes /\
  length inplace_opcodes = length binary_opcodes.
Proof. split; [repeat constructor|reflexivity]. Qed.

(** ** The frame stack when it is not used last-in first-out *)

(** X4. pop_frame: on an empty frame stack it raises IndexError and changes
    nothing; when the top of the stack is not the frame given, the assertion
    fails after the top was removed: the stack is one shorter, and the current
    frame is still the one it was. *)
Theorem pop_frame_failures (fr : nat) (vm : VM) :
  (frames vm = [] -> pop_frame fr vm = (Raise IndexError, vm)) /\
  (forall fs top, frames vm = fs ++ [top] -> top <> fr ->
     exists vm',
       pop_frame fr vm = (Raise AssertionError, vm') /\
       frames vm' = fs /\ frame vm' = frame vm /\
       frame_store vm' = frame_store vm /\ program vm' = program vm /\
       errorlog vm' = errorlog vm).
Proof.
  split.
  - intros Hfs. unfold pop_frame, bind, gets. simpl. by rewrite Hfs.
  - intros fs top Hfs Hne. eexists. split.
    + unfold pop_frame, bind, gets, modify, assert. simpl.
      rewrite Hfs, last_snoc. simpl. rewrite bool_decide_eq_false_2 by done.
      reflexivity.
    + simpl. rewrite Hfs, length_app. simpl.
      replace (length fs + 1 - 1) with (length fs) by lia.
      by rewrite take_app_length.
Qed.

(** ** Making frames *)

Section Frames.
Context `{AbstractOps}.

Lemma make_frame_eq n code callargs globals locals closure new_locals vm :
  is_active code vm = false ->
  make_frame n code callargs globals locals closure new_locals vm =
    (log_record LogMakeFrame ;;;
     let* gl :=
       match globals with
       | Some g =>
           assert (bool_decide (is_Some locals)) ;;;
           ret (g, default 0 locals)
       | None =>
           let* fs := gets frames in
           assert (bool_decide (fs = [])) ;;;
           assert (bool_decide (locals = None)) ;;;
           let* d := convert_locals_or_globals in
           ret (d, d)
       end in
     let* l := (if co_newlocals code || new_locals
                then convert_locals_or_globals else ret (snd gl)) in
     let* rv := with_program (NewVariable "return") in
     let* back := gets frame in
     let* fr := gets (fun vm => length (frame_store vm)) in
     modify (set_frame_store
               (fun st => st ++ [mkFrame code (fst gl) l back callargs closure ∅ rv None])) ;;;
     ret fr) vm.
Proof.
  intros Hact. unfold make_frame. unfold bind at 1. unfold gets at 1.
  cbv beta iota. unfold id. by rewrite Hact.
Qed.

End Frames.

(** X5. make_frame, for a code object that is not running: the frame is created
    but not pushed; its [f_back] is the frame that is current, its entry
    states are empty, it has a fresh return Variable without bindings; it gets
    locals of its own exactly when the code has the NEWLOCALS flag or
    [new_locals] is passed, and the locals it was given otherwise. *)
Theorem make_frame_links_new_frame `{AbstractOps}
    (n : CFGNode) (code : Code) (callargs : list (string * Var)) (g l : nat)
    (closure : option Var) (new_locals : bool) (vm : VM) :
  is_active code vm = false ->
  exists vm' F,
    make_frame n code callargs (Some g) (Some l) closure new_locals vm
      = (Ok (length (frame_store vm)), vm') /\
    frame_store vm' = frame_store vm ++ [F] /\
    frames vm' = frames vm /\ frame vm' = frame vm /\ errorlog vm' = errorlog vm /\
    f_code F = code /\ f_back F = frame vm /\ f_callargs F = callargs /\
    states F = ∅ /\ current_opcode F = None /\
    f_globals F = g /\
    f_locals F = (if co_newlocals code || new_locals then next_dict vm else l) /\
    return_variable F = length (variables (program vm)) /\
    var_bindings (program vm') (return_variable F) = [].
Proof.
  intros Hact. rewrite make_frame_eq by done.
  unfold bind, log_record, modify, assert, ret, gets, with_program,
    convert_locals_or_globals. simpl.
  destruct (co_newlocals code || new_locals); simpl;
    (eexists _, _; split; [reflexivity|]; simpl; split_and!; try reflexivity;
     unfold var_bindings; cbn [variables set_variables];
     by rewrite list_lookup_middle).
Qed.

(** X6. make_frame without globals, as for a module: it must be the first frame
    and must not be given locals; globals and locals are then one fresh map of
    names, unless the code has the NEWLOCALS flag or [new_locals] is passed,
    in which case the locals are a second fresh map. *)
Theorem make_frame_for_module `{AbstractOps}
    (n : CFGNode) (code : Code) (callargs : list (string * Var))
    (closure : option Var) (new_locals : bool) (vm : VM) :
  is_active code vm = false ->
  (frames vm = [] ->
   exists vm' F,
     make_frame n code callargs None None closure new_locals vm
       = (Ok (length (frame_store vm)), vm') /\
     frame_store vm' = frame_store vm ++ [F] /\
     f_globals F = next_dict vm /\
     f_locals F = (if co_newlocals code || new_locals
                   then S (next_dict vm) else next_dict vm) /\
     f_back F = frame vm) /\
  (frames vm <> [] ->
   fst (make_frame n code callargs None None closure new_locals vm)
     = Raise AssertionError) /\
  (forall l,
     fst (make_frame n code callargs None (Some l) closure new_locals vm)
       = Raise AssertionError) /\
  (forall g,
     fst (make_frame n code callargs (Some g) None closure new_locals vm)
       = Raise AssertionError).
Proof.
  intros Hact. split_and!.
  - intros Hfs. rewrite make_frame_eq by done.
    unfold bind, log_record, modify, assert, ret, gets, with_program,
      convert_locals_or_globals. simpl. rewrite Hfs. simpl.
    destruct (co_newlocals code || new_locals); simpl;
      (eexists _, _; split; [reflexivity|]; simpl; split_and!; reflexivity).
  - intros Hfs. rewrite make_frame_eq by done.
    unfold bind, log_record, modify, assert, ret, gets. simpl.
    by rewrite bool_decide_eq_false_2.
  - intros l. rewrite make_frame_eq by done.
    unfold bind, log_record, modify, assert, ret, gets. simpl.
    by case_bool_decide.
  - intros g. rewrite make_frame_eq by done.
    unfold bind, log_record, modify, assert, ret, gets. simpl. done.
Qed.

(** ** Running one instruction *)

Section Instructions.
Context `{AbstractOps}.

Lemma why_is_spec w s : State.why_is w s = true <-> why s = Some w.
Proof.
  unfold State.why_is. destruct (why s) as [w'|]; [|by split].
  rewrite String.eqb_eq. split; [by intros ->|by intros [= ->]].
Qed.

Lemma run_instruction_ok op state vm fr fn s1 vm1 fr' :
  frame vm = Some fr ->
  bytecode_fn (op_name op) = Some fn ->
  fn state op (set_frame_store (alter (set_current_opcode (Some op)) fr) vm)
    = (Ok s1, vm1) ->
  frame vm1 = Some fr' ->
  run_instruction op state vm =
    (Ok (if State.why_is "reraise" s1 then State.set_why "exception" s1 else s1),
     set_frame_store (alter (set_current_opcode None) fr') vm1).
Proof.
  intros Hfr Hfn Hrun Hfr'. unfold run_instruction.
  erewrite bind_ok; [|by apply update_self_frame_run].
  erewrite bind_ok; [|apply try_except_ok; rewrite Hfn; exact Hrun].
  cbv beta zeta. erewrite bind_ok; [|by apply update_self_frame_run]. done.
Qed.

Lemma run_instruction_bytecode_exception op state vm fr fr' fn ty vm1 :
  frame vm = Some fr ->
  bytecode_fn (op_name op) = Some fn ->
  fn state op (set_frame_store (alter (set_current_opcode (Some op)) fr) vm)
    = (Raise (ByteCodeException ty), vm1) ->
  frame vm1 = Some fr' ->
  run_instruction op state vm =
    (Ok (State.set_why "exception" (State.set_exception ty state)),
     set_frame_store (alter (set_current_opcode None) fr') vm1).
Proof.
  intros Hfr Hfn Hrun Hfr'. unfold run_instruction.
  erewrite bind_ok; [|by apply update_self_frame_run].
  erewrite bind_ok.
  2:{ eapply try_except_caught; [rewrite Hfn; exact Hrun|reflexivity]. }
  simpl. erewrite bind_ok; [|by apply update_self_frame_run]. done.
Qed.

Lemma run_instruction_inv op state vm st vm' :
  run_instruction op state vm = (Ok st, vm') ->
  exists s1, st = (if State.why_is "reraise" s1 then State.set_why "exception" s1 else s1).
Proof.
  unfold run_instruction. intros Hrun.
  apply bind_inv in Hrun as [(? & vm1 & _ & Hrun)|(? & ? & ?)]; [|discriminate].
  apply bind_inv in Hrun as [(s1 & vm2 & _ & Hrun)|(? & ? & ?)]; [|discriminate].
  cbv zeta in Hrun.
  apply bind_inv in Hrun as [(? & vm3 & _ & Hrun)|(? & ? & ?)]; [|discriminate].
  exists s1. by inversion Hrun.
Qed.

End Instructions.

(** X7. run_instruction, when it fails: without a current frame it raises
    AttributeError before anything is dispatched; an opcode without a handler
    is the VirtualMachineError "Unknown opcode", and an exception of a handler
    that is neither a RecursionException nor a ByteCodeException is passed on;
    in both cases the frame's [current_opcode] is not deleted. *)
Theorem run_instruction_failures `{AbstractOps}
    (op : Opcode) (state : FrameState) (vm : VM) :
  (frame vm = None -> run_instruction op state vm = (Raise AttributeError, vm)) /\
  (forall fr, frame vm = Some fr -> bytecode_fn (op_name op) = None ->
     run_instruction op state vm =
       (Raise (VirtualMachineError ("Unknown opcode: " +:+ op_name op)),
        set_frame_store (alter (set_current_opcode (Some op)) fr) vm)) /\
  (forall fr fn e vm1,
     frame vm = Some fr -> bytecode_fn (op_name op) = Some fn ->
     fn state op (set_frame_store (alter (set_current_opcode (Some op)) fr) vm)
       = (Raise e, vm1) ->
     e <> RecursionException -> (forall ty, e <> ByteCodeException ty) ->
     run_instruction op state vm = (Raise e, vm1)).
Proof.
  split_and!.
  - intros Hfr. unfold run_instruction, update_self_frame, bind, gets. simpl.
    by rewrite Hfr.
  - intros fr Hfr Hfn. unfold run_instruction.
    erewrite bind_ok; [|by apply update_self_frame_run].
    rewrite Hfn. reflexivity.
  - intros fr fn e vm1 Hfr Hfn Hrun Hrec Hbyte. unfold run_instruction.
    erewrite bind_ok; [|by apply update_self_frame_run].
    erewrite bind_raise; [done|].
    eapply try_except_uncaught; [rewrite Hfn; exact Hrun|].
    destruct e; try done. by destruct (Hbyte exception_type).
Qed.

(** X8. run_instruction, when the handler raises a ByteCodeException: the
    instruction ends normally with the state it started from (operand stack
    included), the exception type recorded and the termination reason
    "exception"; run_instruction itself reports no error; and whatever the
    handler does, the state run_instruction returns never has the reason
    "reraise", which it turns into "exception". *)
Theorem run_instruction_never_reraises `{AbstractOps}
    (op : Opcode) (state : FrameState) (vm : VM) :
  (forall st vm', run_instruction op state vm = (Ok st, vm') ->
     why st <> Some "reraise") /\
  (forall fr fn s1 vm1 fr',
     frame vm = Some fr -> bytecode_fn (op_name op) = Some fn ->
     fn state op (set_frame_store (alter (set_current_opcode (Some op)) fr) vm)
       = (Ok s1, vm1) ->
     frame vm1 = Some fr' -> why s1 = Some "reraise" ->
     fst (run_instruction op state vm) = Ok (State.set_why "exception" s1)) /\
  (forall fr fn ty vm1 fr',
     frame vm = Some fr -> bytecode_fn (op_name op) = Some fn ->
     fn state op (set_frame_store (alter (set_current_opcode (Some op)) fr) vm)
       = (Raise (ByteCodeException ty), vm1) ->
     frame vm1 = Some fr' ->
     exists vm',
       run_instruction op state vm =
         (Ok (State.set_why "exception" (State.set_exception ty state)), vm') /\
       errorlog vm' = errorlog vm1 /\ program vm' = program vm1 /\
       frames vm' = frames vm1).
Proof.
  split_and!.
  - intros st vm' Hrun. apply run_instruction_inv in Hrun as [s1 ->].
    destruct (State.why_is "reraise" s1) eqn:Hw; [done|].
    intros Hre. apply why_is_spec in Hre. congruence.
  - intros fr fn s1 vm1 fr' Hfr Hfn Hrun Hfr' Hwhy.
    rewrite (run_instruction_ok _ _ _ _ _ _ _ _ Hfr Hfn Hrun Hfr'). simpl.
    apply why_is_spec in Hwhy. by rewrite Hwhy.
  - intros fr fn ty vm1 fr' Hfr Hfn Hrun Hfr'. eexists. split.
    + by eapply run_instruction_bytecode_exception.
    + done.
Qed.

(** ** Running the instructions of a block *)

(** X9. The inner loop of run_frame: once an instruction has set a termination
    reason, the instructions after it in the block are not run; until then
    the instructions run one after the other, each on the state the one
    before it left; and an exception that escapes an instruction ends the
    loop. *)
Theorem block_stops_at_first_reason `{AbstractOps}
    (ops1 ops2 : list Opcode) (state : FrameState) (op : option Opcode) (vm : VM) :
  (forall st o vm1,
     ops1 <> [] ->
     run_ops ops1 state op vm = (Ok (st, o), vm1) -> State.has_why st = true ->
     run_ops (ops1 ++ ops2) state op vm = (Ok (st, o), vm1)) /\
  (forall st o vm1,
     run_ops ops1 state op vm = (Ok (st, o), vm1) -> State.has_why st = false ->
     run_ops (ops1 ++ ops2) state op vm = run_ops ops2 st o vm1) /\
  (forall e vm1,
     run_ops ops1 state op vm = (Raise e, vm1) ->
     run_ops (ops1 ++ ops2) state op vm = (Raise e, vm1)).
Proof.
  split_and!.
  - intros st o vm1 Hne Hrun Hwhy. revert state op vm Hrun.
    induction ops1 as [|o1 ops1 IH]; intros state op vm Hrun; [done|].
    cbn [run_ops app] in *.
    apply bind_inv in Hrun as [(s & vm2 & Hs & Hrun)|(? & ? & ?)]; [|discriminate].
    rewrite (bind_ok _ _ _ _ _ Hs). destruct (State.has_why s) eqn:Hws; [done|].
    destruct ops1 as [|o2 ops1].
    + inversion Hrun; subst. congruence.
    + by apply IH.
  - intros st o vm1 Hrun Hwhy. by apply run_ops_app.
  - intros e vm1. revert state op vm.
    induction ops1 as [|o1 ops1 IH]; intros state op vm Hrun; [done|].
    cbn [run_ops app] in *.
    apply bind_inv in Hrun as [(s & vm2 & Hs & Hrun)|(e' & Hs & [= ->])].
    + rewrite (bind_ok _ _ _ _ _ Hs). destruct (State.has_why s); [done|].
      by apply IH.
    + by rewrite (bind_raise _ _ _ _ _ Hs).
Qed.

(** ** Attribute loads on a Variable without bindings *)

(** X10. load_attr on a Variable without bindings: no error is reported, and the
    result is a fresh Variable bound to the give-up value at the node of the
    state; load_attr_noerror returns no Variable. *)
Theorem load_attr_of_nothing_is_silent `{AbstractOps}
    (state : FrameState) (obj : Var) (attr : string) (vm : VM) :
  var_bindings (program vm) obj = [] ->
  load_attr_noerror state obj attr vm
    = (Ok (State.change_cfg_node (node state) state, None),
       with_attr_variable vm obj attr) /\
  exists vm',
    load_attr state obj attr vm
      = (Ok (State.change_cfg_node (node state) state,
             S (length (variables (program vm)))), vm') /\
    errorlog vm' = errorlog vm /\
    var_bindings (program vm') (S (length (variables (program vm))))
      = [unsolvable_at (node state)].
Proof.
  intros Hempty.
  assert (_retrieve_attr (node state) obj attr vm
          = (Ok (node state, None), with_attr_variable vm obj attr)) as Hret.
  { apply retrieve_attr_absent.
    assert (Bindings (program (with_attr_variable vm obj attr)) obj (node state) = [])
      as ->; [|constructor].
    unfold Bindings, binding_refs, with_attr_variable. cbn [program set_log set_program].
    by rewrite NewVariable_bindings, Hempty. }
  split.
  - unfold load_attr_noerror. by rewrite (bind_ok _ _ _ _ _ Hret).
  - unfold load_attr. rewrite (bind_ok _ _ _ _ _ Hret). cbv beta iota.
    assert (length (variables (program (with_attr_variable vm obj attr)))
            = S (length (variables (program vm)))) as Hlen.
    { unfold with_attr_variable. cbn [program set_log set_program].
      apply NewVariable_fresh. }
    assert (var_bindings (program (with_attr_variable vm obj attr)) obj = []) as Hempty'.
    { unfold with_attr_variable. cbn [program set_log set_program].
      by rewrite NewVariable_bindings. }
    destruct (create_new_unsolvable_run (node state) "bad attr"
                (with_attr_variable vm obj attr))
      as (vm' & Hrun & Hlog & _ & _ & _ & _ & Hu & _).
    rewrite Hlen in Hrun, Hu.
    exists vm'. split_and!; [|done|done].
    rewrite (bind_ok _ _ _ (S (length (variables (program vm)))) vm'); [done|].
    erewrite bind_ok by reflexivity. cbv beta.
    rewrite Hempty', bool_decide_eq_true_2 by done. cbn [negb].
    erewrite bind_ok by reflexivity. exact Hrun.
Qed.

(** ** Joining CFG nodes *)

Section JoinNodes.
Context `{AbstractOps}.

Lemma has_edge_alter_mono (f : CFGNodeData -> CFGNodeData) (k : nat)
    (ns : list CFGNodeData) (n to : nat) :
  (forall nd, outgoing nd ⊆ outgoing (f nd)) ->
  (exists nd, ns !! n = Some nd /\ to ∈ outgoing nd) ->
  exists nd, alter f k ns !! n = Some nd /\ to ∈ outgoing nd.
Proof.
  intros Hf (nd & Hnd & Hto). destruct (decide (n = k)) as [->|Hne].
  - exists (f nd). rewrite list_lookup_alter_eq, Hnd. split; [done|]. by apply Hf.
  - exists nd. by rewrite list_lookup_alter_ne.
Qed.

Lemma ConnectTo_run n to p :
  abort_on_complex p = false ->
  exists p',
    ConnectTo n to p = (Ok tt, p') /\
    abort_on_complex p' = false /\
    length (cfg_nodes p') = length (cfg_nodes p) /\
    (n < length (cfg_nodes p) -> has_edge p' n to) /\
    (forall a b, has_edge p a b -> has_edge p' a b).
Proof.
  intros Hab. eexists. split.
  - unfold ConnectTo, charge, bind, gets, modify, ret. simpl. rewrite Hab. simpl.
    reflexivity.
  - simpl. split_and!; [done|by rewrite length_alter| |].
    + intros Hn. destruct (lookup_lt_is_Some_2 _ _ Hn) as [nd Hnd].
      unfold has_edge. simpl. rewrite list_lookup_alter_eq, Hnd. simpl.
      eexists. split; [done|]. case_decide; [done|]. simpl.
      apply elem_of_app. right. by left.
    + intros a b. unfold has_edge. simpl. apply has_edge_alter_mono.
      intros nd. case_decide; [done|]. simpl. intros x Hx.
      apply elem_of_app. by left.
Qed.

Lemma connect_all_run r l vm :
  abort_on_complex (program vm) = false ->
  exists vm',
    (fix connect (ns : list nat) : M VM unit :=
       match ns with
       | [] => ret tt
       | n :: ns' => on_program (ConnectTo n r) ;;; connect ns'
       end) l vm = (Ok tt, vm') /\
    abort_on_complex (program vm') = false /\
    length (cfg_nodes (program vm')) = length (cfg_nodes (program vm)) /\
    Forall (fun n => n < length (cfg_nodes (program vm)) -> has_edge (program vm') n r) l /\
    (forall a b, has_edge (program vm) a b -> has_edge (program vm') a b).
Proof.
  revert vm. induction l as [|n l IH]; intros vm Hab.
  - exists vm. split_and!; try done.
  - destruct (ConnectTo_run n r (program vm) Hab) as (p' & Hrun & Hab' & Hlen & He & Hmono).
    destruct (IH (set_program p' vm) Hab') as (vm' & Hrest & Hab'' & Hlen' & Hall & Hmono').
    cbn [program set_program] in *.
    exists vm'. split_and!.
    + erewrite bind_ok; [exact Hrest|]. unfold on_program. by rewrite Hrun.
    + done.
    + congruence.
    + constructor.
      * intros Hn. apply Hmono'. by apply He.
      * eapply Forall_impl; [exact Hall|]. intros x Hx Hlt. apply Hx. congruence.
    + intros a b Hedge. by apply Hmono', Hmono.
Qed.

End JoinNodes.

(** X11. join_cfg_nodes: no node to join is a failed assertion; one node is
    returned as it is, and nothing changes; for two nodes or more (and without
    a complexity ceiling) the result is a fresh node, every node of the list
    gets an edge to it, no edge is removed, and nothing but the graph of nodes
    changes. *)
Theorem join_cfg_nodes_connects `{AbstractOps} (nodes : list CFGNode) (vm : VM) :
  (nodes = [] -> join_cfg_nodes nodes vm = (Raise AssertionError, vm)) /\
  (forall n, nodes = [n] -> join_cfg_nodes nodes vm = (Ok n, vm)) /\
  (2 <= length nodes ->
   abort_on_complex (program vm) = false ->
   Forall (fun n => n < length (cfg_nodes (program vm))) nodes ->
   exists vm',
     join_cfg_nodes nodes vm = (Ok (length (cfg_nodes (program vm))), vm') /\
     length (cfg_nodes (program vm')) = S (length (cfg_nodes (program vm))) /\
     Forall (fun n => has_edge (program vm') n (length (cfg_nodes (program vm)))) nodes /\
     (forall a b, has_edge (program vm) a b -> has_edge (program vm') a b) /\
     same_but_nodes vm vm').
Proof.
  split_and!.
  - by intros ->.
  - by intros n ->.
  - intros Hlen Hab Hvalid.
    set (L := length (cfg_nodes (program vm))).
    set (p1 := set_cfg_nodes (fun ns => ns ++ [mkCFGNode None []])
                 (set_complexity (fun c => c + 0) (program vm))).
    assert (on_program (NewCFGNode None) vm = (Ok L, set_program p1 vm)) as Hnew.
    { unfold on_program, NewCFGNode, charge, bind, gets, modify, ret. simpl.
      rewrite Hab. simpl. reflexivity. }
    destruct (connect_all_run L nodes (set_program p1 vm)) as
      (vm' & Hrun & _ & Hlen' & Hall & Hmono); [done|].
    assert (join_cfg_nodes nodes vm = (Ok L, vm')) as Hjoin.
    { unfold join_cfg_nodes.
      destruct nodes as [|n1 [|n2 nodes]]; [simpl in Hlen; lia..|].
      erewrite bind_ok by reflexivity.
      rewrite (bind_ok _ _ _ _ _ Hnew).
      rewrite (bind_ok _ _ _ _ _ Hrun). done. }
    exists vm'. split_and!; [done| | | |].
    + rewrite Hlen'. subst p1. simpl. rewrite length_app. simpl. lia.
    + rewrite Forall_forall in Hall, Hvalid. apply Forall_forall. intros x Hx.
      apply Hall; [done|]. specialize (Hvalid x Hx).
      subst p1. simpl. rewrite length_app. simpl. lia.
    + intros a b (nd & Hnd & Hb). apply Hmono. exists nd. split; [|done].
      subst p1. simpl. by apply lookup_app_l_Some.
    + by eapply join_cfg_nodes_keeps.
Qed.

(** ** What the operators do to the frame state *)

Section StateThreading.
Context `{AbstractOps}.

Lemma moved_refl s : moved s s.
Proof. exists (node s). by destruct s. Qed.

Lemma moved_trans s1 s2 s3 : moved s1 s2 -> moved s2 s3 -> moved s1 s3.
Proof. intros [n ->] [m ->]. by exists m. Qed.

Lemma load_attr_noerror_moved s obj attr vm s' r vm' :
  load_attr_noerror s obj attr vm = (Ok (s', r), vm') -> moved s s'.
Proof.
  unfold load_attr_noerror. intros Hrun.
  apply bind_inv in Hrun as [(x & vm1 & _ & Hrun)|(? & ? & ?)]; [|discriminate].
  inversion Hrun. by eexists.
Qed.

Lemma load_attr_moved s obj attr vm s' r vm' :
  load_attr s obj attr vm = (Ok (s', r), vm') -> moved s s'.
Proof.
  unfold load_attr. intros Hrun.
  apply bind_inv in Hrun as [([n result] & vm1 & _ & Hrun)|(? & ? & ?)]; [|discriminate].
  apply bind_inv in Hrun as [(x & vm2 & _ & Hrun)|(? & ? & ?)]; [|discriminate].
  inversion Hrun. by eexists.
Qed.

Lemma call_function_with_state_moved s funcu pos fb vm s' r vm' :
  call_function_with_state s funcu pos fb vm = (Ok (s', r), vm') -> moved s s'.
Proof.
  unfold call_function_with_state. intros Hrun.
  apply bind_inv in Hrun as [(x & vm1 & _ & Hrun)|(? & ? & ?)]; [|discriminate].
  inversion Hrun. by eexists.
Qed.

Lemma dispatch_operator_moved s obj nm arg results missing vm s' rs vm' :
  dispatch_operator s obj nm arg results missing vm = (Ok (s', rs), vm') -> moved s s'.
Proof.
  unfold dispatch_operator. intros Hrun.
  apply bind_inv in Hrun as [([s1 a] & vm1 & Hload & Hrun)|(? & ? & ?)]; [|discriminate].
  apply load_attr_noerror_moved in Hload. simpl in Hrun. destruct a as [attr_var|].
  - apply bind_inv in Hrun as [([s2 c] & vm2 & Hcall & Hrun)|(? & ? & ?)]; [|discriminate].
    apply call_function_with_state_moved in Hcall. inversion Hrun; subst.
    by eapply moved_trans.
  - apply bind_inv in Hrun as [(? & vm2 & _ & Hrun)|(? & ? & ?)]; [|discriminate].
    by inversion Hrun; subst.
Qed.

Lemma call_binary_operator_moved s nm x y re vm s' r vm' :
  call_binary_operator s nm x y re vm = (Ok (s', r), vm') -> moved s s'.
Proof.
  unfold call_binary_operator. intros Hrun.
  apply bind_inv in Hrun as [([s1 results] & vm1 & Hres & Hrun)|(? & ? & ?)]; [|discriminate].
  assert (moved s s1) as Hmoved.
  { unfold binary_operator_results in Hres.
    apply bind_inv in Hres as [(? & vm0 & _ & Hres)|(? & ? & ?)]; [|discriminate].
    apply bind_inv in Hres as [([s0 rs] & vm2 & Hd & Hres)|(? & ? & ?)]; [|discriminate].
    apply dispatch_operator_moved in Hd.
    destruct (reverse_operator_name nm) as [rname|]; [destruct reverse_operators|].
    - apply dispatch_operator_moved in Hres. by eapply moved_trans.
    - by inversion Hres; subst.
    - by inversion Hres; subst. }
  apply bind_inv in Hrun as [(result & vm2 & _ & Hrun)|(? & ? & ?)]; [|discriminate].
  apply bind_inv in Hrun as [(? & vm3 & _ & Hrun)|(? & ? & ?)]; [|discriminate].
  apply bind_inv in Hrun as [(p & vm4 & _ & Hrun)|(? & ? & ?)]; [|discriminate].
  apply bind_inv in Hrun as [(? & vm5 & _ & Hrun)|(? & ? & ?)]; [|discriminate].
  by inversion Hrun; subst.
Qed.

Lemma call_inplace_operator_moved s nm x y vm s' r vm' :
  call_inplace_operator s nm x y vm = (Ok (s', r), vm') -> moved s s'.
Proof.
  unfold call_inplace_operator. intros Hrun.
  apply bind_inv in Hrun as [([s1 a] & vm1 & Hload & Hrun)|(? & ? & ?)]; [|discriminate].
  apply load_attr_noerror_moved in Hload. simpl in Hrun. destruct a as [attr_var|].
  - apply call_function_with_state_moved in Hrun. by eapply moved_trans.
  - apply bind_inv in Hrun as [(? & vm2 & _ & Hrun)|(? & ? & ?)]; [|discriminate].
    apply call_binary_operator_moved in Hrun. by eapply moved_trans.
Qed.

(** Popping from a stack that is long enough, and from one that is not. *)
Lemma popn_app {S} n (s : FrameState) rest items (x : S) :
  data_stack s = rest ++ items -> length items = n ->
  State.popn n s x = (Ok (State.set_data_stack rest s, items), x).
Proof.
  intros Hst Hn. unfold State.popn. rewrite Hst, length_app.
  destruct (Nat.ltb_spec (length rest + length items) n) as [Hlt|_]; [lia|].
  replace (length rest + length items - n) with (length rest) by lia.
  by rewrite take_app_length, drop_app_length.
Qed.

Lemma popn_short {S} n (s : FrameState) (x : S) :
  length (data_stack s) < n -> State.popn n s x = (Raise IndexError, x).
Proof.
  intros Hlt. unfold State.popn.
  by destruct (Nat.ltb_spec (length (data_stack s)) n) as [_|Hge]; [|lia].
Qed.

Lemma popn_inv {S} n (s : FrameState) (x : S) r x' :
  State.popn n s x = (Ok r, x') ->
  x' = x /\ data_stack s = data_stack (fst r) ++ snd r /\ length (snd r) = n /\
  fst r = State.set_data_stack (data_stack (fst r)) s.
Proof.
  unfold State.popn.
  destruct (Nat.ltb_spec (length (data_stack s)) n) as [Hlt|Hge]; [discriminate|].
  intros [= <- <-]. simpl. split_and!; [done|by rewrite take_drop| |done].
  rewrite length_drop. lia.
Qed.

Lemma pop_app {S} (s : FrameState) rest v (x : S) :
  data_stack s = rest ++ [v] ->
  State.pop s x = (Ok (State.set_data_stack rest s, v), x).
Proof.
  intros Hst. unfold State.pop. rewrite Hst, last_snoc, length_app. simpl.
  replace (length rest + 1 - 1) with (length rest) by lia.
  by rewrite take_app_length.
Qed.

Lemma pop_empty {S} (s : FrameState) (x : S) :
  data_stack s = [] -> State.pop s x = (Raise IndexError, x).
Proof. intros Hst. unfold State.pop. by rewrite Hst. Qed.

Lemma pop_inv {S} (s : FrameState) (x : S) s' v x' :
  State.pop s x = (Ok (s', v), x') ->
  exists rest, data_stack s = rest ++ [v] /\ s' = State.set_data_stack rest s /\ x' = x.
Proof.
  unfold State.pop. destruct (last (data_stack s)) as [w|] eqn:Hlast; [|discriminate].
  intros [= <- <- <-]. apply last_Some in Hlast as [rest Hrest].
  exists rest. rewrite Hrest, length_app. simpl.
  replace (length rest + 1 - 1) with (length rest) by lia.
  by rewrite take_app_length.
Qed.

Lemma set_data_stack_same s : State.set_data_stack (data_stack s) s = s.
Proof. by destruct s. Qed.

End StateThreading.

(** X12. binary_operator and inplace_operator: with fewer than two values on the
    operand stack they raise IndexError and change nothing; when they return,
    the two operands have been replaced by one result, and nothing else of the
    frame state has changed but its CFG node. *)
Theorem binary_operators_pop_two_push_one `{AbstractOps}
    (state : FrameState) (nm : string) (vm : VM) :
  (length (data_stack state) < 2 ->
     binary_operator state nm vm = (Raise IndexError, vm) /\
     inplace_operator state nm vm = (Raise IndexError, vm)) /\
  (forall st vm',
     binary_operator state nm vm = (Ok st, vm') \/
     inplace_operator state nm vm = (Ok st, vm') ->
     exists rest x y r,
       data_stack state = rest ++ [x; y] /\
       moved_with_stack state (rest ++ [r]) st).
Proof.
  split.
  - intros Hlt. unfold binary_operator, inplace_operator.
    by rewrite !(bind_raise _ _ _ _ _ (popn_short 2 state vm Hlt)).
  - intros st vm' Hrun.
    assert (exists s1 x y s2 r,
              data_stack state = data_stack s1 ++ [x; y] /\
              s1 = State.set_data_stack (data_stack s1) state /\
              moved s1 s2 /\ st = State.push [r] s2) as (s1 & x & y & s2 & r & Hst & Hs1 & Hm & ->).
    { destruct Hrun as [Hrun|Hrun];
        [unfold binary_operator in Hrun|unfold inplace_operator in Hrun];
        (apply bind_inv in Hrun as [([s1 items] & vm1 & Hpop & Hrun)|(? & ? & ?)];
           [|discriminate]);
        apply popn_inv in Hpop as (-> & Hst & Hlen & Hs1); simpl in *;
        destruct items as [|x [|y [|z items]]]; try discriminate;
        (apply bind_inv in Hrun as [([s2 r] & vm2 & Hcall & Hrun)|(? & ? & ?)];
           [|discriminate]);
        [apply call_binary_operator_moved in Hcall
        |apply call_inplace_operator_moved in Hcall];
        inversion Hrun; subst; by exists s1, x, y, s2, r. }
    exists (data_stack s1), x, y, r. split; [done|].
    destruct Hm as [n ->]. exists n. rewrite Hs1. by destruct state.
Qed.

(** X13. unary_operator: on an empty operand stack it raises IndexError and
    changes nothing; when it returns, the operand has been replaced by one
    result, and nothing else of the frame state has changed but its CFG
    node. *)
Theorem unary_operator_pops_one_pushes_one `{AbstractOps}
    (state : FrameState) (nm : string) (vm : VM) :
  (data_stack state = [] -> unary_operator state nm vm = (Raise IndexError, vm)) /\
  (forall st vm',
     unary_operator state nm vm = (Ok st, vm') ->
     exists rest x r,
       data_stack state = rest ++ [x] /\
       moved_with_stack state (rest ++ [r]) st).
Proof.
  split.
  - intros Hempty. unfold unary_operator.
    by rewrite (bind_raise _ _ _ _ _ (pop_empty state vm Hempty)).
  - intros st vm' Hrun. unfold unary_operator in Hrun.
    apply bind_inv in Hrun as [([s1 x] & vm1 & Hpop & Hrun)|(? & ? & ?)]; [|discriminate].
    apply pop_inv in Hpop as (rest & Hst & -> & ->). cbv beta iota in Hrun.
    apply bind_inv in Hrun as [([s2 m] & vm2 & Hload & Hrun)|(? & ? & ?)]; [|discriminate].
    apply load_attr_moved in Hload. cbv beta iota in Hrun.
    apply bind_inv in Hrun as [([s3 r] & vm3 & Hcall & Hrun)|(? & ? & ?)]; [|discriminate].
    apply call_function_with_state_moved in Hcall. inversion Hrun; subst.
    exists rest, x, r. split; [done|].
    destruct (moved_trans _ _ _ Hload Hcall) as [n ->]. by exists n.
Qed.

(** ** Moving values on the operand stack *)

Lemma with_stack_stack st s : data_stack (with_stack st s) = st.
Proof. done. Qed.

Lemma with_stack_twice st st' s : with_stack st (with_stack st' s) = with_stack st s.
Proof. done. Qed.

Lemma stack_split2 (l : list Var) :
  2 <= length l -> exists rest a b, l = rest ++ [a; b].
Proof.
  intros Hlen. exists (take (length l - 2) l).
  pose proof (take_drop (length l - 2) l) as Hl.
  pose proof (length_drop l (length l - 2)) as Hd.
  destruct (drop (length l - 2) l) as [|a [|b [|c d]]]; simpl in Hd; try lia.
  by exists a, b.
Qed.

Lemma stack_split3 (l : list Var) :
  3 <= length l -> exists rest a b c, l = rest ++ [a; b; c].
Proof.
  intros Hlen. exists (take (length l - 3) l).
  pose proof (take_drop (length l - 3) l) as Hl.
  pose proof (length_drop l (length l - 3)) as Hd.
  destruct (drop (length l - 3) l) as [|a [|b [|c [|d e]]]]; simpl in Hd; try lia.
  by exists a, b, c.
Qed.

Lemma stack_split4 (l : list Var) :
  4 <= length l -> exists rest a b c d, l = rest ++ [a; b; c; d].
Proof.
  intros Hlen. exists (take (length l - 4) l).
  pose proof (take_drop (length l - 4) l) as Hl.
  pose proof (length_drop l (length l - 4)) as Hd.
  destruct (drop (length l - 4) l) as [|a [|b [|c [|d [|e f]]]]]; simpl in Hd; try lia.
  by exists a, b, c, d.
Qed.

Lemma rot_two_run s vm rest a b :
  data_stack s = rest ++ [a; b] ->
  byte_ROT_TWO s vm = (Ok (with_stack (rest ++ [b; a]) s), vm).
Proof.
  intros Hst. unfold byte_ROT_TWO.
  (erewrite bind_ok; [|by apply popn_app]); by destruct s.
Qed.

Lemma rot_three_run s vm rest a b c :
  data_stack s = rest ++ [a; b; c] ->
  byte_ROT_THREE s vm = (Ok (with_stack (rest ++ [c; a; b]) s), vm).
Proof.
  intros Hst. unfold byte_ROT_THREE.
  (erewrite bind_ok; [|by apply popn_app]); by destruct s.
Qed.

Lemma rot_four_run s vm rest a b c d :
  data_stack s = rest ++ [a; b; c; d] ->
  byte_ROT_FOUR s vm = (Ok (with_stack (rest ++ [d; a; b; c]) s), vm).
Proof.
  intros Hst. unfold byte_ROT_FOUR.
  (erewrite bind_ok; [|by apply popn_app]); by destruct s.
Qed.

(** X14. ROT_TWO twice, ROT_THREE three times and ROT_FOUR four times leave a
    frame state with enough values on its operand stack as it was. *)
Theorem rotations_cycle (state : FrameState) (vm : VM) :
  (2 <= length (data_stack state) ->
     (let* s1 := byte_ROT_TWO state in byte_ROT_TWO s1) vm = (Ok state, vm)) /\
  (3 <= length (data_stack state) ->
     (let* s1 := byte_ROT_THREE state in
      let* s2 := byte_ROT_THREE s1 in
      byte_ROT_THREE s2) vm = (Ok state, vm)) /\
  (4 <= length (data_stack state) ->
     (let* s1 := byte_ROT_FOUR state in
      let* s2 := byte_ROT_FOUR s1 in
      let* s3 := byte_ROT_FOUR s2 in
      byte_ROT_FOUR s3) vm = (Ok state, vm)).
Proof.
  split_and!; intros Hlen.
  - apply stack_split2 in Hlen as (rest & a & b & Hst).
    rewrite (bind_ok _ _ _ _ _ (rot_two_run state vm rest a b Hst)).
    erewrite rot_two_run by reflexivity.
    rewrite with_stack_twice, <- Hst. unfold with_stack.
    by rewrite set_data_stack_same.
  - apply stack_split3 in Hlen as (rest & a & b & c & Hst).
    rewrite (bind_ok _ _ _ _ _ (rot_three_run state vm rest a b c Hst)).
    erewrite bind_ok by (apply rot_three_run; reflexivity).
    erewrite rot_three_run by reflexivity.
    rewrite !with_stack_twice, <- Hst. unfold with_stack.
    by rewrite set_data_stack_same.
  - apply stack_split4 in Hlen as (rest & a & b & c & d & Hst).
    rewrite (bind_ok _ _ _ _ _ (rot_four_run state vm rest a b c d Hst)).
    erewrite bind_ok by (apply rot_four_run; reflexivity).
    erewrite bind_ok by (apply rot_four_run; reflexivity).
    erewrite rot_four_run by reflexivity.
    rewrite !with_stack_twice, <- Hst. unfold with_stack.
    by rewrite set_data_stack_same.
Qed.

(** X15. DUP_TOPX with argument n puts a second copy of the n topmost values on
    top of them; with the argument 1 it is DUP_TOP and with the argument 2 it
    is DUP_TOP_TWO, also where these fail; and POP_TOP after DUP_TOP gives the
    state back. *)
Theorem dup_topx_copies_the_top (state : FrameState) (op : Opcode) (vm : VM) :
  (forall rest items,
     op_arg op = Some (length items) -> data_stack state = rest ++ items ->
     byte_DUP_TOPX state op vm = (Ok (with_stack (rest ++ items ++ items) state), vm)) /\
  (op_arg op = Some 1 -> byte_DUP_TOPX state op vm = byte_DUP_TOP state vm) /\
  (op_arg op = Some 2 -> byte_DUP_TOPX state op vm = byte_DUP_TOP_TWO state vm) /\
  (data_stack state <> [] ->
     (let* s1 := byte_DUP_TOP state in byte_POP_TOP s1) vm = (Ok state, vm)).
Proof.
  split_and!.
  - intros rest items Harg Hst. unfold byte_DUP_TOPX, op_arg_of. rewrite Harg.
    erewrite bind_ok by reflexivity.
    (erewrite bind_ok; [|by apply popn_app]). destruct state. simpl in *.
    unfold with_stack, State.push, State.set_data_stack. simpl.
    by rewrite <- app_assoc.
  - intros Harg. unfold byte_DUP_TOPX, byte_DUP_TOP, op_arg_of. rewrite Harg.
    erewrite bind_ok by reflexivity.
    destruct (data_stack state) as [|v l] eqn:Hst using rev_ind.
    + rewrite (bind_raise _ _ _ _ _ (popn_short 1 state vm ltac:(rewrite Hst; simpl; lia))).
      unfold State.top, bind. by rewrite Hst.
    + clear IHl. rewrite (bind_ok _ _ _ _ _ (popn_app 1 state l [v] vm Hst eq_refl)).
      unfold State.top, bind. rewrite Hst, last_snoc. destruct state. simpl in *.
      subst. unfold ret, State.push, State.set_data_stack. simpl.
      by rewrite <- app_assoc.
  - intros Harg. unfold byte_DUP_TOPX, byte_DUP_TOP_TWO, op_arg_of. rewrite Harg.
    erewrite bind_ok by reflexivity.
    destruct (decide (length (data_stack state) < 2)) as [Hlt|Hge].
    + by rewrite !(bind_raise _ _ _ _ _ (popn_short 2 state vm Hlt)).
    + destruct (stack_split2 (data_stack state)) as (rest & a & b & Hst); [lia|].
      rewrite !(bind_ok _ _ _ _ _ (popn_app 2 state rest [a; b] vm Hst eq_refl)).
      destruct state. simpl in *. unfold ret, State.push, State.set_data_stack. simpl.
      by rewrite <- app_assoc.
  - intros Hne. unfold byte_DUP_TOP, byte_POP_TOP, State.pop_and_discard.
    destruct (data_stack state) as [|v l] eqn:Hst using rev_ind; [done|]. clear IHl.
    erewrite bind_ok.
    2:{ unfold State.top, bind. rewrite Hst, last_snoc. reflexivity. }
    unfold ret. f_equal. f_equal. destruct state. simpl in *. subst.
    unfold State.push, State.set_data_stack. simpl. f_equal.
    replace (length ((l ++ [v]) ++ [v]) - 1) with (length (l ++ [v]))
      by (rewrite (length_app (l ++ [v])); simpl; lia).
    by rewrite take_app_length.
Qed.

(** X16. The opcodes that move values on the operand stack, on a stack that
    holds fewer values than they take: DUP_TOP, DUP_TOP_TWO, DUP_TOPX,
    ROT_TWO, ROT_THREE and ROT_FOUR raise IndexError and leave the machine
    state as it was; POP_TOP raises nothing: it drops the top value when there
    is one and returns an empty stack as it is; DUP_TOPX without an argument
    is an AttributeError. *)
Theorem stack_underflow_outcomes (state : FrameState) (vm : VM) :
  (data_stack state = [] ->
     byte_POP_TOP state vm = (Ok state, vm) /\
     byte_DUP_TOP state vm = (Raise IndexError, vm)) /\
  (forall rest v, data_stack state = rest ++ [v] ->
     byte_POP_TOP state vm = (Ok (with_stack rest state), vm)) /\
  (length (data_stack state) < 2 ->
     byte_ROT_TWO state vm = (Raise IndexError, vm) /\
     byte_DUP_TOP_TWO state vm = (Raise IndexError, vm)) /\
  (length (data_stack state) < 3 ->
     byte_ROT_THREE state vm = (Raise IndexError, vm)) /\
  (length (data_stack state) < 4 ->
     byte_ROT_FOUR state vm = (Raise IndexError, vm)) /\
  (forall op n, op_arg op = Some n -> length (data_stack state) < n ->
     byte_DUP_TOPX state op vm = (Raise IndexError, vm)) /\
  (forall op, op_arg op = None ->
     byte_DUP_TOPX state op vm = (Raise AttributeError, vm)).
Proof.
  split_and!.
  - intros Hempty. split.
    + unfold byte_POP_TOP, State.pop_and_discard, ret. rewrite Hempty.
      destruct state. simpl in *. by subst.
    + unfold byte_DUP_TOP, State.top, bind. by rewrite Hempty.
  - intros rest v Hst. unfold byte_POP_TOP, State.pop_and_discard, ret, with_stack.
    rewrite Hst.
    replace (length (rest ++ [v]) - 1) with (length rest)
      by (rewrite length_app; simpl; lia).
    by rewrite take_app_length.
  - intros Hlt. unfold byte_ROT_TWO, byte_DUP_TOP_TWO.
    by rewrite !(bind_raise _ _ _ _ _ (popn_short 2 state vm Hlt)).
  - intros Hlt. unfold byte_ROT_THREE.
    by rewrite !(bind_raise _ _ _ _ _ (popn_short 3 state vm Hlt)).
  - intros Hlt. unfold byte_ROT_FOUR.
    by rewrite !(bind_raise _ _ _ _ _ (popn_short 4 state vm Hlt)).
  - intros op n Harg Hlt. unfold byte_DUP_TOPX, op_arg_of. rewrite Harg.
    erewrite bind_ok by reflexivity.
    by rewrite !(bind_raise _ _ _ _ _ (popn_short n state vm Hlt)).
  - intros op Harg. unfold byte_DUP_TOPX, op_arg_of. by rewrite Harg.
Qed.

(** ** Blocks *)

(** X17. SETUP_LOOP pushes a block of type "loop" whose handler is the target of
    the opcode and whose level is the depth of the operand stack at that
    moment, and leaves the operand stack alone; POP_BLOCK after it gives the
    state back. *)
Theorem setup_loop_records_stack_depth (state : FrameState) (op : Opcode) (vm : VM) :
  (exists s1,
     byte_SETUP_LOOP state op vm = (Ok s1, vm) /\
     block_stack s1 = block_stack state ++
       [mkBlock "loop" (Some (op_target op)) (length (data_stack state))] /\
     data_stack s1 = data_stack state) /\
  (let* s1 := byte_SETUP_LOOP state op in byte_POP_BLOCK s1) vm = (Ok state, vm) /\
  (forall t h l, level <$> last (block_stack (push_block state t h (Some l))) = Some l).
Proof.
  split_and!.
  - eexists. split; [reflexivity|]. done.
  - unfold byte_SETUP_LOOP, byte_POP_BLOCK, pop_block, push_block, bind, ret. simpl.
    rewrite last_snoc, length_app. simpl.
    replace (length (block_stack state) + 1 - 1) with (length (block_stack state)) by lia.
    rewrite take_app_length. by destruct state.
  - intros t h l. unfold push_block. simpl. by rewrite last_snoc.
Qed.

(** ** The arguments of MAKE_FUNCTION *)

Section ExtraFunctionArgs.
Context `{InterpreterOps}.

Lemma land_low (a : N) (k : N) : N.land a (N.ones k) = (a mod 2 ^ k)%N.
Proof. apply N.land_ones. Qed.

Lemma field_low (lo hi w : N) :
  (lo < 2 ^ w)%N -> N.land (lo + 2 ^ w * hi) (N.ones w) = lo.
Proof.
  intros Hlo. rewrite N.land_ones. symmetry.
  apply (N.mod_unique _ _ hi); [done|lia].
Qed.

Lemma field_high (lo hi w : N) :
  (lo < 2 ^ w)%N -> N.shiftr (lo + 2 ^ w * hi) w = hi.
Proof.
  intros Hlo. rewrite N.shiftr_div_pow2. symmetry.
  apply (N.div_unique _ _ _ lo); [done|lia].
Qed.

Lemma field_whole (a w : N) : (a < 2 ^ w)%N -> N.land a (N.ones w) = a.
Proof. intros Ha. rewrite N.land_ones. by apply N.mod_small. Qed.

Lemma pop_three (state : FrameState) (vm : VM) rest posd kwd annd n1 n2 n3 :
  data_stack state = rest ++ posd ++ kwd ++ annd ->
  length annd = n1 -> length kwd = n2 -> length posd = n3 ->
  (let* r1 := State.popn n1 state in
   let* r2 := State.popn n2 (fst r1) in
   let* r3 := State.popn n3 (fst r2) in
   ret (fst r3, snd r3, snd r2, snd r1)) vm
  = (Ok (with_stack rest state, posd, kwd, annd), vm).
Proof.
  intros Hst H1 H2 H3.
  erewrite bind_ok
    by (apply (popn_app n1 state (rest ++ posd ++ kwd) annd);
        [by rewrite Hst, <- !app_assoc|done]).
  cbn [fst snd].
  erewrite bind_ok
    by (apply (popn_app n2 _ (rest ++ posd) kwd);
        [by simpl; rewrite <- !app_assoc|done]).
  cbn [fst snd].
  erewrite bind_ok by (by apply (popn_app n3 _ rest posd)).
  done.
Qed.

End ExtraFunctionArgs.

(** X18. _pop_extra_function_args under Python 2: the argument of the opcode
    holds the number of positional defaults in its low 16 bits and the number
    of annotations in the 15 bits above them; the annotations are popped
    first, there are no keyword defaults, and the state is left with what was
    under them. *)
Theorem pop_extra_function_args_py2 `{InterpreterOps}
    (state : FrameState) (vm : VM) (rest posd annd : list Var) (pos ann : N) :
  fst python_version = 2 ->
  (pos < 65536)%N -> (ann < 32768)%N ->
  length posd = N.to_nat pos -> length annd = N.to_nat ann ->
  data_stack state = rest ++ posd ++ annd ->
  _pop_extra_function_args state (pos + 65536 * ann) vm
    = (Ok (with_stack rest state, posd, [], annd), vm).
Proof.
  intros Hver Hpos Hann Hlp Hla Hst. unfold _pop_extra_function_args.
  rewrite Hver. cbn [Nat.eqb]. erewrite bind_ok by reflexivity. cbv beta iota.
  change 0xffff%N with (N.ones 16). change 0x7fff%N with (N.ones 15).
  change 65536%N with (2 ^ 16)%N in *. change 32768%N with (2 ^ 15)%N in *.
  rewrite field_low, field_high, field_whole by done.
  apply (pop_three state vm rest posd [] annd); by rewrite ?Hst.
Qed.

(** X19. _pop_extra_function_args under Python 3: the argument holds the number
    of positional defaults in its low 8 bits, the number of keyword defaults
    in the next 8 bits and the number of annotations in the 15 bits above;
    each keyword default takes two values of the stack (its name and its
    value); annotations are popped first, then keyword defaults, then
    positional defaults.  Under any other major version the assertion
    fails. *)
Theorem pop_extra_function_args_py3 `{InterpreterOps}
    (state : FrameState) (vm : VM) (rest posd kwd annd : list Var) (pos kw ann : N) :
  (fst python_version = 3 ->
   (pos < 256)%N -> (kw < 256)%N -> (ann < 32768)%N ->
   length posd = N.to_nat pos -> length kwd = 2 * N.to_nat kw ->
   length annd = N.to_nat ann ->
   data_stack state = rest ++ posd ++ kwd ++ annd ->
   _pop_extra_function_args state (pos + 256 * kw + 65536 * ann) vm
     = (Ok (with_stack rest state, posd, kwd, annd), vm)) /\
  (fst python_version <> 2 -> fst python_version <> 3 ->
   forall arg, _pop_extra_function_args state arg vm = (Raise AssertionError, vm)).
Proof.
  split.
  - intros Hver Hpos Hkw Hann Hlp Hlk Hla Hst. unfold _pop_extra_function_args.
    rewrite Hver. cbn [Nat.eqb]. erewrite bind_ok by reflexivity. cbv beta iota.
    change 0xff%N with (N.ones 8). change 0x7fff%N with (N.ones 15).
    replace (pos + 256 * kw + 65536 * ann)%N
      with (pos + 2 ^ 8 * (kw + 2 ^ 8 * ann))%N by (change (2 ^ 8)%N with 256%N; lia).
    rewrite (field_high pos (kw + 2 ^ 8 * ann) 8) by done.
    rewrite (field_low pos (kw + 2 ^ 8 * ann) 8) by done.
    rewrite (field_low kw ann 8) by done.
    replace (pos + 2 ^ 8 * (kw + 2 ^ 8 * ann))%N
      with ((pos + 2 ^ 8 * kw) + 2 ^ 16 * ann)%N
      by (change (2 ^ 8)%N with 256%N; change (2 ^ 16)%N with 65536%N; lia).
    rewrite field_high by (change (2 ^ 8)%N with 256%N; change (2 ^ 16)%N with 65536%N; lia).
    rewrite field_whole by done.
    apply (pop_three state vm rest posd kwd annd); [done|done|lia|done].
  - intros H2 H3 arg. unfold _pop_extra_function_args.
    apply Nat.eqb_neq in H2, H3. rewrite H2. unfold assert. rewrite H3. done.
Qed.

(** ** Returning *)

(** X20. RETURN_VALUE: the value on top of the operand stack is popped and its
    bindings are pasted into the return Variable of the current frame, which
    keeps the values it had: after it the return Variable holds a value
    exactly when it held it before or the returned Variable holds it; no other
    Variable changes, nothing is reported, and the state ends with the reason
    "return".  On an empty stack it raises IndexError. *)
Theorem return_value_joins_return_variable `{AbstractOps}
    (state : FrameState) (vm : VM) :
  (data_stack state = [] -> byte_RETURN_VALUE state vm = (Raise IndexError, vm)) /\
  (forall rest v fr F,
     data_stack state = rest ++ [v] ->
     frame vm = Some fr -> frame_store vm !! fr = Some F ->
     return_variable F < length (variables (program vm)) ->
     exists vm',
       byte_RETURN_VALUE state vm
         = (Ok (State.set_why "return" (with_stack rest state)), vm') /\
       (forall d, d ∈ var_data (program vm') (return_variable F) <->
                  d ∈ var_data (program vm) (return_variable F) \/
                  d ∈ var_data (program vm) v) /\
       (forall u, u <> return_variable F ->
          var_bindings (program vm') u = var_bindings (program vm) u) /\
       errorlog vm' = errorlog vm /\ frames vm' = frames vm /\
       frame_store vm' = frame_store vm).
Proof.
  split.
  - intros Hempty. unfold byte_RETURN_VALUE.
    by rewrite (bind_raise _ _ _ _ _ (pop_empty state vm Hempty)).
  - intros rest v fr F Hst Hfr HF Hrv. eexists. split.
    + unfold byte_RETURN_VALUE.
      rewrite (bind_ok _ _ _ _ _ (pop_app state rest v vm Hst)). cbv beta iota.
      erewrite bind_ok by (unfold self_frame, bind, gets; by rewrite Hfr).
      erewrite bind_ok by (unfold frame_get, bind, gets; by rewrite HF).
      erewrite bind_ok by reflexivity. reflexivity.
    + cbn [program set_program errorlog frames frame_store]. split_and!; try done.
      * intros d. unfold var_data. rewrite PasteVariable_bindings by done.
        rewrite decide_True by done.
        rewrite map_app, pasted_data, binding_refs_data, elem_of_app. done.
      * intros u Hu. rewrite PasteVariable_bindings by done.
        by rewrite decide_False.
Qed.

(** ** Iteration *)

(** X21. GET_ITER on an object that has neither [__iter__] nor [__getitem__] on
    any visible binding: the object is popped and a fresh Variable bound to
    the give-up value is pushed; when the object has bindings, one attribute
    error is reported, and it names [__iter__]; when it has none, nothing is
    reported. *)
Theorem get_iter_reports_missing_iter `{AbstractOps} `{InterpreterOps}
    (state : FrameState) (vm vm1 vm2 : VM) (rest : list Var) (seq : Var) :
  data_stack state = rest ++ [seq] ->
  attribute_absent (node state) "__iter__"
    (Bindings (program (with_attr_variable vm seq "__iter__")) seq (node state))
    (with_attr_variable vm seq "__iter__") vm1 ->
  attribute_absent (node state) "__getitem__"
    (Bindings (program (with_attr_variable vm1 seq "__getitem__")) seq (node state))
    (with_attr_variable vm1 seq "__getitem__") vm2 ->
  (forall op,
     var_bindings (program vm2) seq <> [] ->
     self_frame_current_opcode vm2 = (Ok op, vm2) ->
     exists vm3,
       byte_GET_ITER state vm
         = (Ok (State.push [length (variables (program vm2))]
                  (State.change_cfg_node (node state) (with_stack rest state))), vm3) /\
       errorlog vm3 = errorlog vm2 ++ [attribute_error op seq "__iter__"] /\
       var_bindings (program vm3) (length (variables (program vm2)))
         = [unsolvable_at (node state)]) /\
  (var_bindings (program vm2) seq = [] ->
     exists vm3,
       byte_GET_ITER state vm
         = (Ok (State.push [length (variables (program vm2))]
                  (State.change_cfg_node (node state) (with_stack rest state))), vm3) /\
       errorlog vm3 = errorlog vm2 /\
       var_bindings (program vm3) (length (variables (program vm2)))
         = [unsolvable_at (node state)]).
Proof.
  intros Hst Hiter Hgetitem.
  assert (forall k vm3,
    (let* p := gets program in
     (if negb (bool_decide (var_bindings p seq = [])) then
        let* op := self_frame_current_opcode in
        report (attribute_error op seq "__iter__")
      else ret tt) ;;;
     let* it := create_new_unsolvable (node state) "bad attr" in
     ret (State.push [it] (State.change_cfg_node (node state) (with_stack rest state)))) vm2
      = (Ok k, vm3) ->
    byte_GET_ITER state vm = (Ok k, vm3)) as Hstart.
  { intros k vm3 Hrest. unfold byte_GET_ITER.
    rewrite (bind_ok _ _ _ _ _ (pop_app state rest seq vm Hst)). cbv beta iota.
    erewrite bind_ok.
    2:{ unfold load_attr_noerror.
        erewrite bind_ok by (apply retrieve_attr_absent; exact Hiter). reflexivity. }
    cbv beta iota. cbn [fst snd].
    erewrite bind_ok.
    2:{ unfold load_attr_noerror.
        erewrite bind_ok by (apply retrieve_attr_absent; exact Hgetitem). reflexivity. }
    cbv beta iota. cbn [fst snd]. exact Hrest. }
  split.
  - intros op Hne Hop.
    destruct (create_new_unsolvable_run (node state) "bad attr"
                (set_errorlog (ErrorLog.report (attribute_error op seq "__iter__")) vm2))
      as (vm3 & Hrun & Hlog & _ & _ & _ & _ & Hu & _).
    exists vm3. split_and!; [|done|done].
    apply Hstart. erewrite bind_ok by reflexivity. cbv beta.
    rewrite bool_decide_eq_false_2 by done. cbn [negb].
    erewrite bind_ok.
    2:{ erewrite bind_ok by exact Hop. reflexivity. }
    erewrite bind_ok by exact Hrun. done.
  - intros Hempty.
    destruct (create_new_unsolvable_run (node state) "bad attr" vm2)
      as (vm3 & Hrun & Hlog & _ & _ & _ & _ & Hu & _).
    exists vm3. split_and!; [|done|done].
    apply Hstart. erewrite bind_ok by reflexivity. cbv beta.
    rewrite bool_decide_eq_true_2 by done. cbn [negb].
    erewrite bind_ok by reflexivity.
    erewrite bind_ok by exact Hrun. done.
Qed.

(** ** Jumps and loop exits *)

Section Jumps.
Context `{AbstractOps}.

Lemma ConnectNew_run n nm p :
  abort_on_complex p = false ->
  exists p',
    ConnectNew n nm p = (Ok (length (cfg_nodes p)), p') /\
    abort_on_complex p' = false /\
    length (cfg_nodes p') = S (length (cfg_nodes p)) /\
    variables p' = variables p /\
    (n < length (cfg_nodes p) -> has_edge p' n (length (cfg_nodes p))) /\
    (forall a b, has_edge p a b -> has_edge p' a b).
Proof.
  intros Hab.
  set (p1 := set_cfg_nodes (fun ns => ns ++ [mkCFGNode nm []])
               (set_complexity (fun c => c + 0) p)).
  assert (NewCFGNode nm p = (Ok (length (cfg_nodes p)), p1)) as Hnew.
  { unfold NewCFGNode, charge, bind, gets, modify, ret. simpl. by rewrite Hab. }
  destruct (ConnectTo_run n (length (cfg_nodes p)) p1 Hab)
    as (p' & Hrun & Hab' & Hlen & Hedge & Hmono).
  assert (length (cfg_nodes p1) = S (length (cfg_nodes p))) as Hlen1.
  { subst p1. simpl. rewrite length_app. simpl. lia. }
  exists p'. split_and!.
  - unfold ConnectNew. rewrite (bind_ok _ _ _ _ _ Hnew).
    by rewrite (bind_ok _ _ _ _ _ Hrun).
  - done.
  - congruence.
  - by apply ConnectTo_variables in Hrun.
  - intros Hn. apply Hedge. lia.
  - intros a b (nd & Hnd & Hb). apply Hmono. exists nd. split; [|done].
    subst p1. simpl. by apply lookup_app_l_Some.
Qed.

Lemma jump_run (state : FrameState) (target : nat) (vm : VM) fr F :
  frame vm = Some fr -> frame_store vm !! fr = Some F ->
  states F !! target = None ->
  abort_on_complex (program vm) = false ->
  node state < length (cfg_nodes (program vm)) ->
  exists vm',
    (let* s := on_program (State.forward_cfg_node state) in
     store_jump target s ;;; ret state) vm = (Ok state, vm') /\
    entry_state vm' fr target
      = Some (State.change_cfg_node (length (cfg_nodes (program vm))) state) /\
    has_edge (program vm') (node state) (length (cfg_nodes (program vm))) /\
    errorlog vm' = errorlog vm /\ frames vm' = frames vm /\
    variables (program vm') = variables (program vm).
Proof.
  intros Hfr HF Hnone Hab Hnode.
  destruct (ConnectNew_run (node state) None (program vm) Hab)
    as (p' & Hnew & _ & _ & Hvars & Hedge & _).
  destruct (store_state_first fr F target
              (State.change_cfg_node (length (cfg_nodes (program vm))) state)
              (set_program p' vm) HF Hnone) as (vm' & Hstore & Hentry & Hprog).
  exists vm'. split_and!.
  - erewrite bind_ok.
    2:{ unfold on_program, State.forward_cfg_node.
        rewrite (bind_ok _ _ _ _ _ Hnew). reflexivity. }
    erewrite bind_ok; [reflexivity|].
    rewrite (store_jump_run fr) by exact Hfr. exact Hstore.
  - done.
  - rewrite Hprog. by apply Hedge.
  - rewrite (store_state_run fr F _ _ (set_program p' vm) HF), Hnone,
      merge_into_first in Hstore.
    by inversion Hstore.
  - rewrite (store_state_run fr F _ _ (set_program p' vm) HF), Hnone,
      merge_into_first in Hstore.
    by inversion Hstore.
  - by rewrite Hprog.
Qed.

End Jumps.

(** X22. JUMP_FORWARD and JUMP_ABSOLUTE, to a target that has no entry state yet:
    the state that is returned is the one that came in, at the same CFG node;
    what is recorded for the target is that state at a fresh node, to which
    the node of the state has an edge; nothing is reported and no Variable
    changes. *)
Theorem jump_forks_a_node `{AbstractOps}
    (state : FrameState) (op : Opcode) (vm : VM) (fr : nat) (F : Frame) :
  frame vm = Some fr -> frame_store vm !! fr = Some F ->
  states F !! op_target op = None ->
  abort_on_complex (program vm) = false ->
  node state < length (cfg_nodes (program vm)) ->
  exists vm',
    byte_JUMP_FORWARD state op vm = (Ok state, vm') /\
    byte_JUMP_ABSOLUTE state op vm = (Ok state, vm') /\
    entry_state vm' fr (op_target op)
      = Some (State.change_cfg_node (length (cfg_nodes (program vm))) state) /\
    has_edge (program vm') (node state) (length (cfg_nodes (program vm))) /\
    errorlog vm' = errorlog vm /\ frames vm' = frames vm /\
    variables (program vm') = variables (program vm).
Proof.
  intros Hfr HF Hnone Hab Hnode.
  destruct (jump_run state (op_target op) vm fr F Hfr HF Hnone Hab Hnode)
    as (vm' & Hrun & Hrest).
  exists vm'. split; [exact Hrun|]. split; [exact Hrun|]. exact Hrest.
Qed.

(** X23. BREAK_LOOP and CONTINUE_LOOP, run as instructions of a block: the
    instruction sets the reason "break" or "continue" and touches nothing else
    of the state, so the block ends there: the instructions after it in the
    block are not run; the graph, the error log and the frame stack are as
    before. *)
Theorem break_and_continue_end_the_block `{AbstractOps}
    (op : Opcode) (rest : list Opcode) (state : FrameState) (o : option Opcode)
    (vm : VM) (fr : nat) :
  frame vm = Some fr ->
  (op_name op = "BREAK_LOOP" ->
     exists vm',
       run_ops (op :: rest) state o vm = (Ok (State.set_why "break" state, Some op), vm') /\
       program vm' = program vm /\ errorlog vm' = errorlog vm /\
       frames vm' = frames vm /\ frame vm' = frame vm) /\
  (op_name op = "CONTINUE_LOOP" ->
     exists vm',
       run_ops (op :: rest) state o vm
         = (Ok (State.set_why "continue" state, Some op), vm') /\
       program vm' = program vm /\ errorlog vm' = errorlog vm /\
       frames vm' = frames vm /\ frame vm' = frame vm).
Proof.
  intros Hfr. split; intros Hname.
  - eexists. split.
    + cbn [run_ops]. erewrite bind_ok.
      2:{ eapply (run_instruction_ok op state vm fr
                    (fun s _ => byte_BREAK_LOOP s)); [done| |reflexivity|exact Hfr].
          by rewrite Hname. }
      reflexivity.
    + done.
  - eexists. split.
    + cbn [run_ops]. erewrite bind_ok.
      2:{ eapply (run_instruction_ok op state vm fr byte_CONTINUE_LOOP);
            [done| |reflexivity|exact Hfr].
          by rewrite Hname. }
      reflexivity.
    + done.
Qed.

(** ** Attributes that some bindings have *)

Section AttributesFound.
Context `{AbstractOps}.

Lemma retrieve_attr_body_found n obj attr result b val nodes vm vm1 node2 av :
  get_attribute_generic val n attr b vm = (Ok (node2, Some av), vm1) ->
  var_bindings (program vm1) av <> [] ->
  retrieve_attr_body n obj attr result (b, val) nodes vm =
    (Ok (nodes ++ [node2]),
     set_program (PasteVariable result av node2 (program vm1))
       (set_log (fun l => l ++ [LogGotChoice attr obj val av]) vm1)).
Proof.
  intros Hget Hne. unfold retrieve_attr_body.
  rewrite (bind_ok _ _ vm (node2, Some av) vm1); [|by apply try_except_ok].
  cbv beta iota. rewrite (bind_ok _ _ vm1 (program vm1) vm1); [|done].
  by rewrite bool_decide_eq_false_2.
Qed.

Lemma retrieve_attr_loop_run n obj attr result vals acc vm vm1 nodes :
  attribute_lookups n attr obj result vals vm vm1 nodes ->
  retrieve_attr_loop n obj attr result vals acc vm = (Ok (acc ++ nodes), vm1).
Proof.
  intros Hrun. revert acc.
  induction Hrun as [vm|b val vals vm vm1 vm2 node2 attr_var nodes Hget Habs Hrest IH
                    |b val vals vm vm1 vm2 node2 av nodes Hget Hne Hrest IH];
    intros acc; cbn [retrieve_attr_loop].
  - by rewrite app_nil_r.
  - erewrite bind_ok by (by eapply retrieve_attr_body_absent). apply IH.
  - erewrite bind_ok by (by eapply retrieve_attr_body_found).
    rewrite IH. by rewrite <- app_assoc.
Qed.

Lemma retrieve_attr_found n obj attr vm vm1 nodes :
  attribute_lookups n attr obj (length (variables (program vm)))
    (Bindings (program (with_attr_variable vm obj attr)) obj n)
    (with_attr_variable vm obj attr) vm1 nodes ->
  nodes <> [] ->
  _retrieve_attr n obj attr vm =
    (let* j := join_cfg_nodes nodes in
     ret (j, Some (length (variables (program vm))))) vm1.
Proof.
  intros Hrun Hne. unfold _retrieve_attr.
  rewrite (bind_ok _ _ vm (length (variables (program vm)))
             (set_program (snd (NewVariable attr (program vm))) vm)).
  2:{ unfold with_program.
      pose proof (NewVariable_fresh attr (program vm)) as (Hv & _ & _).
      destruct (NewVariable attr (program vm)) as [v p1]. simpl in Hv. by subst v. }
  erewrite bind_ok by reflexivity.
  erewrite bind_ok by reflexivity. cbv beta.
  erewrite bind_ok by (by apply retrieve_attr_loop_run).
  cbn [app]. by rewrite bool_decide_eq_false_2.
Qed.

End AttributesFound.

(** X24. load_attr, when at least one visible binding of the object has the
    attribute: the Variable that collects the attribute from those bindings is
    returned, at the join of their nodes, and load_attr reports no error,
    whether or not other bindings lack the attribute; with one such binding
    the node is the one its lookup returned and nothing is joined. *)
Theorem found_attribute_is_not_an_error `{AbstractOps}
    (state : FrameState) (obj : Var) (attr : string) (vm vm1 : VM)
    (nodes : list CFGNode) :
  attribute_lookups (node state) attr obj (length (variables (program vm)))
    (Bindings (program (with_attr_variable vm obj attr)) obj (node state))
    (with_attr_variable vm obj attr) vm1 nodes ->
  nodes <> [] ->
  load_attr state obj attr vm =
    (match fst (join_cfg_nodes nodes vm1) with
     | Ok j => Ok (State.change_cfg_node j state, length (variables (program vm)))
     | Raise e => Raise e
     end, snd (join_cfg_nodes nodes vm1)) /\
  errorlog (snd (join_cfg_nodes nodes vm1)) = errorlog vm1 /\
  (forall n2, nodes = [n2] ->
     load_attr state obj attr vm
       = (Ok (State.change_cfg_node n2 state, length (variables (program vm))), vm1)).
Proof.
  intros Hrun Hne.
  pose proof (retrieve_attr_found _ _ _ _ _ _ Hrun Hne) as Hret.
  assert (load_attr state obj attr vm =
    (match fst (join_cfg_nodes nodes vm1) with
     | Ok j => Ok (State.change_cfg_node j state, length (variables (program vm)))
     | Raise e => Raise e
     end, snd (join_cfg_nodes nodes vm1))) as Hload.
  { unfold load_attr. unfold bind at 1. rewrite Hret. unfold bind at 1.
    destruct (join_cfg_nodes nodes vm1) as [[j|e] vm2]; [|done]. done. }
  split; [exact Hload|]. split.
  - destruct (join_cfg_nodes nodes vm1) as [r vm2] eqn:Hjoin.
    by apply join_cfg_nodes_keeps in Hjoin as (Hlog & _).
  - intros n2 ->. by rewrite Hload, join_cfg_nodes_single.
Qed.

(** ** Subscripts that succeed *)

(** X25. BINARY_SUBSCR, when the [__getitem__] dispatch leaves a result that has
    a binding: the opcode is the binary operator and nothing more: the error
    log keeps what the dispatch reported, and no give-up binding is added.
    With fewer than two values on the stack the two operands cannot be
    unpacked from the slice of the top two, which is a ValueError raised
    before anything else happens. *)
Theorem successful_subscript_is_a_binary_operator `{AbstractOps}
    (state : FrameState) (vm : VM) :
  (length (data_stack state) < 2 ->
     byte_BINARY_SUBSCR state vm = (Raise ValueError, vm)) /\
  (forall st1 vm1 top,
     binary_operator state "__getitem__" vm = (Ok st1, vm1) ->
     last (data_stack st1) = Some top ->
     var_bindings (program vm1) top <> [] ->
     byte_BINARY_SUBSCR state vm = (Ok st1, vm1)).
Proof.
  split.
  - intros Hlt. unfold byte_BINARY_SUBSCR, State.topn, bind, ret.
    destruct (drop (length (data_stack state) - 2) (data_stack state))
      as [|a [|b [|c l]]] eqn:Hdrop; try done.
    apply (f_equal length) in Hdrop. rewrite length_drop in Hdrop.
    simpl in Hdrop. lia.
  - intros st1 vm1 top Hrun Htop Hne.
    assert (2 <= length (data_stack state)) as Hlen.
    { destruct (decide (length (data_stack state) < 2)) as [Hlt|]; [|lia].
      unfold binary_operator in Hrun.
      by rewrite (bind_raise _ _ _ _ _ (popn_short 2 state vm Hlt)) in Hrun. }
    destruct (topn_two state vm Hlen) as (container & index & Htopn).
    unfold byte_BINARY_SUBSCR.
    erewrite bind_ok by exact Htopn. cbv beta iota.
    erewrite bind_ok by reflexivity. cbv beta.
    erewrite bind_ok by exact Hrun.
    erewrite bind_ok by (unfold State.top; rewrite Htop; reflexivity).
    erewrite bind_ok by reflexivity. cbv beta.
    by rewrite bool_decide_eq_false_2.
Qed.

(** * The properties on the small instance *)

Import Demo.

Section DemoFacts.

Lemma balanced_add_bindings v vals n : balanced (add_bindings v vals n).
Proof. induction vals as [|d vals IH]; simpl; balance. Qed.

Lemma balanced_fresh_variable nm vals n : balanced (fresh_variable nm vals n).
Proof. unfold fresh_variable. balance; try apply balanced_add_bindings. Qed.

Lemma balanced_make_frame n code callargs g l closure new_locals :
  balanced (make_frame n code callargs g l closure new_locals).
Proof.
  unfold make_frame, convert_locals_or_globals, log_record. balance.
Qed.

#[export] Instance demo_balanced : BalancedOps.
Proof.
  split.
  - intros v n b a. unfold call. simpl. unfold demo_call.
    balance; try apply balanced_fresh_variable.
  - intros v n a b. unfold get_attribute_generic. simpl.
    unfold demo_get_attribute_generic. balance; try apply balanced_fresh_variable.
  - intros nm h Hh s op. simpl in Hh. case_match; simplify_eq.
    unfold byte_RECURSE, self_frame, frame_get. balance;
      try apply balanced_make_frame.
Qed.

End DemoFacts.

(** The frame stack of [vm0] holds frame 0; running frame 1 pushes it, runs
    its two blocks and pops it. *)
Lemma frame_stack_is_lifo_witness :
  frames (snd (run_frame 1 0 vm0)) = frames vm0 /\
  length (frames (snd (run_frame 1 0 vm0))) = length (frames vm0) /\
  frame (snd (run_frame 1 0 vm0)) = last (frames vm0).
Proof.
  destruct (frame_stack_is_lifo 1) as (_ & _ & Hrun).
  apply (Hrun 0 vm0 (0, 6)).
  apply run_result. vm_compute. reflexivity.
Defined.
(** Frame 0 of [vm0] runs [code_recursive]: making a frame for that code
    raises RecursionException, and the instruction RECURSE ends with the
    termination reason "recursion" and an unchanged error log. *)
Lemma direct_recursion_is_cut_witness :
  (exists vm',
     make_frame 0 code_recursive [] (Some 0) (Some 0) None false vm0
       = (Raise RecursionException, vm') /\
     errorlog vm' = errorlog vm0 /\ frames vm' = frames vm0 /\
     frame_store vm' = frame_store vm0) /\
  (exists vm2,
     run_instruction op_recurse (State.init 0) vm0
       = (Ok (State.set_why "recursion" (State.init 0)), vm2) /\
     why (State.set_why "recursion" (State.init 0)) = Some "recursion" /\
     errorlog vm2 = [] /\
     forall rest o,
       run_ops (op_recurse :: rest) (State.init 0) o vm0
         = (Ok (State.set_why "recursion" (State.init 0), Some op_recurse), vm2)).
Proof.
  destruct direct_recursion_is_cut as [Hmake Hrun]. split.
  - apply Hmake. vm_compute. reflexivity.
  - destruct (Hrun op_recurse (State.init 0) vm0 0 0 byte_RECURSE
                (snd (byte_RECURSE (State.init 0) op_recurse
                        (set_frame_store
                           (alter (set_current_opcode (Some op_recurse)) 0) vm0))))
      as (vm2 & Hinstr & Hwhy & Hlog & Hops).
    + reflexivity.
    + reflexivity.
    + apply run_result. vm_compute. reflexivity.
    + vm_compute. reflexivity.
    + exists vm2. split; [exact Hinstr|]. split; [exact Hwhy|].
      split; [|exact Hops].
      rewrite Hlog. vm_compute. reflexivity.
Defined.
(** Offset 5 of frame 0 has no entry state in [vm0]: storing [stack_a]
    records it; storing [stack_b] afterwards merges it slot by slot. *)
Lemma entry_state_first_then_merged_witness :
  (exists vm1,
     store_state 0 5 stack_a vm0 = (Ok tt, vm1) /\
     entry_state vm1 0 5 = Some stack_a /\ program vm1 = program vm0) /\
  (exists vm1 merged,
     store_state 0 5 stack_b (snd (store_state 0 5 stack_a vm0)) = (Ok tt, vm1) /\
     entry_state vm1 0 5 = Some merged /\
     block_stack merged = block_stack stack_a /\ node merged = node stack_a /\
     merged_per_slot (program (snd (store_state 0 5 stack_a vm0))) (program vm1)
                     stack_a stack_b merged).
Proof.
  split.
  - destruct (entry_state_first_then_merged 0 5 stack_a vm0
                (mkFrame code_recursive 0 0 None [] None ∅ 6 (Some op_add)))
      as (_ & _ & Hfirst & _); [reflexivity|].
    apply Hfirst. reflexivity.
  - destruct (entry_state_first_then_merged 0 5 stack_b
                (snd (store_state 0 5 stack_a vm0))
                (mkFrame code_recursive 0 0 None [] None (<[5 := stack_a]> ∅) 6
                         (Some op_add)))
      as (_ & _ & _ & Hagain); [vm_compute; reflexivity|].
    apply (Hagain stack_a).
    + vm_compute. reflexivity.
    + reflexivity.
    + reflexivity.
    + intros v Hv. simpl in Hv.
      repeat (apply elem_of_cons in Hv as [->|Hv]);
        [vm_compute; lia..|by apply elem_of_nil in Hv].
Defined.

(** A list whose parameter T was initialised in [vm0] cannot be true; after
    the unknown value (Variable 4) is merged into T, it can. *)
Lemma container_compatible_with_witness :
  (Abstract.compatible_with
     (fst (Abstract.init_type_parameters ["T"]
             (Abstract.new_instance Abstract.list_type) (program vm0))) true
     (snd (Abstract.init_type_parameters ["T"]
             (Abstract.new_instance Abstract.list_type) (program vm0))) = false /\
   Abstract.compatible_with
     (fst (Abstract.init_type_parameters ["T"]
             (Abstract.new_instance Abstract.list_type) (program vm0))) false
     (snd (Abstract.init_type_parameters ["T"]
             (Abstract.new_instance Abstract.list_type) (program vm0))) = true) /\
  (let i := fst (Abstract.init_type_parameters ["T"]
                   (Abstract.new_instance Abstract.list_type) (program vm0)) in
   let p := snd (Abstract.init_type_parameters ["T"]
                   (Abstract.new_instance Abstract.list_type) (program vm0)) in
   Abstract.compatible_with (fst (Abstract.merge_type_parameter 0 "T" 4 i p)) true
     (snd (Abstract.merge_type_parameter 0 "T" 4 i p)) = true /\
   Abstract.compatible_with (fst (Abstract.merge_type_parameter 0 "T" 4 i p)) false
     (snd (Abstract.merge_type_parameter 0 "T" 4 i p)) = true).
Proof.
  destruct (AbstractFacts.container_compatible_with Abstract.list_type eq_refl)
    as [Hinit Hmerge].
  split; [apply Hinit|]. cbv zeta. apply Hmerge.
  - reflexivity.
  - intros nm' v Hv. vm_compute in Hv.
    change (<["T" := 7]> (∅ : gmap string nat) !! nm' = Some v) in Hv.
    apply lookup_insert_Some in Hv as [[_ <-]|[_ Hv]];
      [vm_compute; lia|by rewrite lookup_empty in Hv].
  - vm_compute. lia.
  - intros Hnil. apply (f_equal length) in Hnil. vm_compute in Hnil. discriminate Hnil.
Defined.

(** The callable [g] of [vm0] is either "one" or [f]: called without
    arguments, the first candidate returns and the second fails. *)
Lemma call_results_merged_witness :
  call_function 0 2 no_args true vm0 = (Ok (0, 7), vm_after_g) /\
  errorlog (snd (join_cfg_nodes (success_nodes outcomes_g) vm_after_g))
    = errorlog vm_after_g /\
  var_bindings (program (snd (join_cfg_nodes (success_nodes outcomes_g) vm_after_g))) 7
    = [mkBinding Unknown [mkOrigin 0 {[ {[ (8, 0); (2, 0) ]} ]}]].
Proof.
  assert (binding_refs (program vm0) 2
          = [((2, 0), Function "one"); ((2, 1), Function "f")]) as Hg
    by (vm_compute; reflexivity).
  assert (binding_refs (program vm_called_one) 8 = [((8, 0), Unknown)]) as Hr
    by (vm_compute; reflexivity).
  assert (length (variables (program vm0)) = 7) as Hlen by (vm_compute; reflexivity).
  destruct (call_results_merged 0 2 no_args true vm0 vm_after_g outcomes_g)
    as (_ & Hlog & Hbindings & Hone).
  - rewrite Hg. discriminate.
  - rewrite Hg, Hlen. unfold outcomes_g. rewrite <- Hr.
    apply calls_run_returned with (vm1 := vm_called_one).
    + apply run_result. vm_compute. reflexivity.
    + vm_compute. reflexivity.
    + vm_compute. lia.
    + apply calls_run_failed with (vm1 := vm_after_g).
      * reflexivity.
      * reflexivity.
      * vm_compute. lia.
      * apply calls_run_nil.
  - vm_compute. discriminate.
  - rewrite Hlen in Hone, Hbindings.
    split_and!; [by apply Hone|exact Hlog|exact Hbindings].
Defined.
(** The claim of C1 as stated fails on that call: the binding of the return
    Variable has the Origin whose source set holds the returned binding as
    well, not the callable binding alone. *)
Lemma call_results_not_callable_only :
  fst (call_function 0 2 no_args true vm0) = Ok (0, 7) /\
  exists bd,
    var_bindings (program (snd (call_function 0 2 no_args true vm0))) 7 = [bd] /\
    data bd = Unknown /\
    ~ reattached_to_callable_only (2, 0) 0 bd.
Proof.
  split; [vm_compute; reflexivity|].
  exists (mkBinding Unknown [mkOrigin 0 {[ {[ (8, 0); (2, 0) ]} ]}]).
  split; [apply (bool_decide_unpack _); vm_compute; exact I|].
  split; [reflexivity|].
  unfold reattached_to_callable_only. cbn [origins]. intros Heq.
  assert (forall a b : Origin, [a] = [b] -> source_sets a = source_sets b) as Hinj
    by (by intros a b [= ->]).
  apply Hinj in Heq. cbn [source_sets] in Heq.
  apply (inj singleton) in Heq.
  assert ((8, 0) ∈ ({[ (2, 0) ]} : gset (nat * nat))) as Hin
    by (rewrite <- Heq; set_solver).
  apply elem_of_singleton in Hin. discriminate Hin.
Qed.
(** The object of [vm0] (Variable 5) is None on one binding and an unknown
    value on the other; neither has the attribute [foo]: the attribute error
    is reported, once, and not the none-attribute error. *)
Lemma missing_attribute_reported_once_witness :
  exists vm2,
    load_attr (State.init 0) 5 "foo" vm0
      = (Ok (State.change_cfg_node 0 (State.init 0), 8), vm2) /\
    errorlog vm2 = [attribute_error op_add 5 "foo"] /\
    var_bindings (program vm2) 8 = [unsolvable_at 0].
Proof.
  assert (Bindings (program (with_attr_variable vm0 5 "foo")) 5 (node (State.init 0))
          = [((5, 0), Instance 0); ((5, 1), Unknown)]) as Hobj
    by (vm_compute; reflexivity).
  assert (Data (program vm_after_foo) 5 (node (State.init 0)) = [Instance 0; Unknown])
    as Hdata by (vm_compute; reflexivity).
  assert (length (variables (program vm_after_foo)) = 8) as Hlen
    by (vm_compute; reflexivity).
  assert (errorlog vm_after_foo = []) as Hlog by (vm_compute; reflexivity).
  destruct (missing_attribute_reported_once (State.init 0) 5 "foo" vm0 vm_after_foo
              op_add) as (vm2 & Hload & _ & Hgeneric & Hgive).
  - rewrite Hobj.
    eapply (attribute_absent_cons _ _ _ _ _ _ _ _ 0 None); [reflexivity|exact I|].
    eapply (attribute_absent_cons _ _ _ _ _ _ _ _ 0 None); [reflexivity|exact I|].
    apply attribute_absent_nil.
  - intros Hnil. apply (f_equal length) in Hnil. vm_compute in Hnil. discriminate Hnil.
  - apply self_frame_current_opcode_reads. vm_compute. reflexivity.
  - rewrite Hlen in Hload, Hgive. rewrite Hlog in Hgeneric.
    exists vm2. split_and!; [exact Hload| |exact Hgive].
    apply Hgeneric. rewrite Hdata. intros Hall.
    inversion Hall as [|x l Hnone Hrest]. inversion Hrest as [|x' l' Hunknown _].
    destruct Hunknown as (c & Hc & _). discriminate Hc.
Defined.
(** The unknown value of [vm0] (Variable 4) has no [__getitem__]: the
    subscript leaves no error and binds the give-up value to its result. *)
Lemma failed_subscript_is_silent_witness :
  exists vm2,
    byte_BINARY_SUBSCR (State.push [4; 4] (State.init 0)) vm0
      = (Ok (State.push [8] (State.init 0)), vm2) /\
    errorlog vm2 = errorlog vm0 /\
    var_bindings (program vm2) 8 = [unsolvable_at 0] /\
    exists op x y log1,
      errorlog (snd (binary_operator (State.push [4; 4] (State.init 0))
                       "__getitem__" vm0))
        = log1 ++ [unsupported_operands op 0 "__getitem__" x y].
Proof.
  apply (failed_subscript_is_silent (State.push [4; 4] (State.init 0)) vm0
           (State.push [8] (State.init 0))
           (snd (binary_operator (State.push [4; 4] (State.init 0)) "__getitem__" vm0))
           8).
  - vm_compute. lia.
  - apply run_result. vm_compute. reflexivity.
  - reflexivity.
  - vm_compute. reflexivity.
  - vm_compute. lia.
  - exists (errorlog (snd (binary_operator (State.push [4; 4] (State.init 0))
                             "__getitem__" vm0))).
    vm_compute. reflexivity.
Defined.
(** With the ceiling at 2, the two nodes [run_program] makes use up the
    budget and the node a first jump makes goes above it: the error comes out
    of [run_program]; so does it out of a bare sequence of mutations. *)
Lemma complexity_abort_is_fatal_witness :
  (exists p',
     Cfg.mutate_all [MConnectNew 0 None; MConnectNew 0 None] (program (new_vm true 2))
       = (Raise ProgramTooComplexError, p') /\ 2 < complexity p') /\
  (exists p',
     Cfg.mutate_all [MConnectNew 0 None; MConnectNew 1 None] (program (new_vm true 2))
       = (Ok tt, p') /\ complexity p' = 2) /\
  aborts (run_program None code_jump None) (new_vm true 2).
Proof.
  destruct complexity_abort_is_fatal
    as (_ & Hceiling & Hinstr & Hops & Hblock & Hblocks & Hframe & Hbytecode
        & _ & _ & Hprogram).
  split_and!.
  - destruct (Hceiling [MConnectNew 0 None; MConnectNew 0 None]
                (program (new_vm true 2))) as [_ Habove];
      [reflexivity|vm_compute; lia|].
    apply Habove. vm_compute. lia.
  - destruct (Hceiling [MConnectNew 0 None; MConnectNew 1 None]
                (program (new_vm true 2))) as [Hbelow _];
      [reflexivity|vm_compute; lia|].
    apply Hbelow. vm_compute. lia.
  - eapply (Hprogram code_jump None (new_vm true 2) 1 _ 2 _).
    + vm_compute. reflexivity.
    + vm_compute. reflexivity.
    + eapply (Hbytecode 2 code_jump None None 0 _).
      * vm_compute. reflexivity.
      * eapply (Hframe 0 _ 2 op_jump [op_break]).
        -- vm_compute. reflexivity.
        -- reflexivity.
        -- eapply (Hblocks 0 [] [op_jump] [[op_break]] [] []).
           ++ reflexivity.
           ++ eapply (Hblock 0 _ op_jump [] [] (State.init 2)).
              ** vm_compute. reflexivity.
              ** vm_compute. reflexivity.
              ** eapply (Hops [] op_jump [] (State.init 2) None _ (State.init 2) None).
                 --- reflexivity.
                 --- reflexivity.
                 --- eapply (Hinstr op_jump (State.init 2) _ 0 byte_JUMP_FORWARD).
                     +++ reflexivity.
                     +++ reflexivity.
                     +++ vm_compute. reflexivity.
Defined.


(** * The further properties on the small instance *)

Import Examples.

(** [__sub__] is reflected as [__rsub__], which has no reflection. *)
Lemma reverse_operator_name_is_one_way_witness :
  "__rsub__" = "__r" +:+ String.substring 2 (String.length "__sub__" - 2) "__sub__" /\
  unreversed "__rsub__" = "__sub__" /\
  ("__rsub__" ∉ reversable_operators) /\
  reverse_operator_name "__rsub__" = None.
Proof.
  apply (reverse_operator_name_is_one_way "__sub__" "__rsub__"). reflexivity.
Defined.

(** [__rmul__] is the reflection of [__mul__] only. *)
Lemma reverse_operator_name_injective_witness :
  reverse_operator_name "__mul__" = Some "__rmul__" /\ "__mul__" = "__mul__".
Proof.
  split; [reflexivity|].
  apply (reverse_operator_name_injective "__mul__" "__mul__" "__rmul__"); reflexivity.
Defined.

(** A new interpreter has no frame to pop; [vm0] has frame 0 on top, so
    popping frame 1 fails, and leaves an empty stack with frame 0 current. *)
Lemma pop_frame_failures_witness :
  pop_frame 0 (new_vm false 0) = (Raise IndexError, new_vm false 0) /\
  exists vm',
    pop_frame 1 vm0 = (Raise AssertionError, vm') /\
    frames vm' = [] /\ frame vm' = frame vm0 /\
    frame_store vm' = frame_store vm0 /\ program vm' = program vm0 /\
    errorlog vm' = errorlog vm0.
Proof.
  split.
  - destruct (pop_frame_failures 0 (new_vm false 0)) as [Hempty _].
    apply Hempty. reflexivity.
  - destruct (pop_frame_failures 1 vm0) as [_ Hother].
    apply (Hother [] 0).
    + vm_compute. reflexivity.
    + lia.
Defined.

(** In [vm0], where frame 0 runs [code_recursive], a frame for [code_jump]
    can be made: it is the third of the store and its [f_back] is frame 0. *)
Lemma make_frame_links_new_frame_witness :
  exists vm' F,
    make_frame 0 code_jump [] (Some 0) (Some 0) None false vm0 = (Ok 2, vm') /\
    frames vm' = frames vm0 /\ f_back F = Some 0 /\ f_locals F = 0 /\
    frame_store vm' = frame_store vm0 ++ [F].
Proof.
  destruct (make_frame_links_new_frame 0 code_jump [] 0 0 None false vm0)
    as (vm' & F & Hmake & Hstore & Hframes & _ & _ & _ & Hback & _ & _ & _ & _ & Hl & _).
  - vm_compute. reflexivity.
  - exists vm', F. split_and!; [exact Hmake|exact Hframes|exact Hback|exact Hl|exact Hstore].
Defined.

(** A new interpreter makes the frame of a module with one map for globals
    and locals; [vm0], which has a frame on its stack, does not make one. *)
Lemma make_frame_for_module_witness :
  (exists vm' F,
     make_frame 0 code_jump [] None None None false (new_vm false 0) = (Ok 0, vm') /\
     frame_store vm' = [F] /\ f_globals F = 0 /\ f_locals F = 0 /\ f_back F = None) /\
  fst (make_frame 0 code_jump [] None None None false vm0) = Raise AssertionError.
Proof.
  split.
  - destruct (make_frame_for_module 0 code_jump [] None false (new_vm false 0))
      as (Hfirst & _); [reflexivity|].
    apply Hfirst. reflexivity.
  - destruct (make_frame_for_module 0 code_jump [] None false vm0)
      as (_ & Hnot & _); [vm_compute; reflexivity|].
    apply Hnot. vm_compute. discriminate.
Defined.

(** NOP has no handler; BINARY_ADD on an empty stack raises IndexError, which
    is passed on; a new interpreter has no frame to run an instruction in. *)
Lemma run_instruction_failures_witness :
  run_instruction op_nop (State.init 0) (new_vm false 0)
    = (Raise AttributeError, new_vm false 0) /\
  run_instruction op_nop (State.init 0) vm0
    = (Raise (VirtualMachineError "Unknown opcode: NOP"),
       set_frame_store (alter (set_current_opcode (Some op_nop)) 0) vm0) /\
  fst (run_instruction op_add (State.init 0) vm0) = Raise IndexError.
Proof.
  split_and!.
  - destruct (run_instruction_failures op_nop (State.init 0) (new_vm false 0))
      as (Hnone & _).
    apply Hnone. reflexivity.
  - destruct (run_instruction_failures op_nop (State.init 0) vm0) as (_ & Hunknown & _).
    apply (Hunknown 0); reflexivity.
  - destruct (run_instruction_failures op_add (State.init 0) vm0) as (_ & _ & Hpass).
    rewrite (Hpass 0 (fun state _ => binary_operator state "__add__") IndexError
               (set_frame_store (alter (set_current_opcode (Some op_add)) 0) vm0));
      [reflexivity|reflexivity|reflexivity|reflexivity|discriminate|discriminate].
Defined.

(** BREAK_LOOP ends with the reason "break", not "reraise"; the handler that
    ends with "reraise" is turned into "exception"; the handler that raises a
    ByteCodeException ends the instruction with the reason "exception" on the
    state it was given. *)
Lemma run_instruction_never_reraises_witness :
  why (State.set_why "break" (State.init 0)) <> Some "reraise" /\
  fst (@run_instruction ops_raising op_reraise (State.init 0) vm0)
    = Ok (State.set_why "exception" (State.set_why "reraise" (State.init 0))) /\
  exists vm',
    @run_instruction ops_raising op_raise (State.push [4] (State.init 0)) vm0
      = (Ok (State.set_why "exception"
               (State.set_exception "TypeError" (State.push [4] (State.init 0)))), vm') /\
    errorlog vm' = [].
Proof.
  split_and!.
  - destruct (run_instruction_never_reraises op_break (State.init 0) vm0)
      as (Hnever & _).
    apply (Hnever (State.set_why "break" (State.init 0))
             (snd (run_instruction op_break (State.init 0) vm0))).
    apply run_result. vm_compute. reflexivity.
  - destruct (@run_instruction_never_reraises ops_raising op_reraise (State.init 0) vm0)
      as (_ & Hre & _).
    apply (Hre 0 byte_RERAISE (State.set_why "reraise" (State.init 0))
             (set_frame_store (alter (set_current_opcode (Some op_reraise)) 0) vm0) 0);
      reflexivity.
  - destruct (@run_instruction_never_reraises ops_raising op_raise
                (State.push [4] (State.init 0)) vm0) as (_ & _ & Hexc).
    destruct (Hexc 0 byte_RAISE_NOTHING "TypeError"
                (set_frame_store (alter (set_current_opcode (Some op_raise)) 0) vm0) 0)
      as (vm' & Hrun & Hlog & _); [reflexivity..|].
    exists vm'. split; [exact Hrun|]. rewrite Hlog. vm_compute. reflexivity.
Defined.

(** After BREAK_LOOP the NOP of the same block is not run; after JUMP_FORWARD,
    which sets no reason, the rest of the block runs; and a block that starts
    with NOP ends with its exception. *)
Lemma block_stops_at_first_reason_witness :
  run_ops ([op_break] ++ [op_nop]) (State.init 0) None vm0
    = (Ok (State.set_why "break" (State.init 0), Some op_break),
       snd (run_ops [op_break] (State.init 0) None vm0)) /\
  run_ops ([op_jump] ++ [op_break]) (State.init 0) None vm0
    = run_ops [op_break] (State.init 0) (Some op_jump)
        (snd (run_ops [op_jump] (State.init 0) None vm0)) /\
  fst (run_ops ([op_nop] ++ [op_break]) (State.init 0) None vm0)
    = Raise (VirtualMachineError "Unknown opcode: NOP").
Proof.
  split_and!.
  - destruct (block_stops_at_first_reason [op_break] [op_nop] (State.init 0) None vm0)
      as (Hstop & _).
    apply Hstop.
    + discriminate.
    + apply run_result. vm_compute. reflexivity.
    + reflexivity.
  - destruct (block_stops_at_first_reason [op_jump] [op_break] (State.init 0) None vm0)
      as (_ & Hgo & _).
    apply Hgo.
    + apply run_result. vm_compute. reflexivity.
    + reflexivity.
  - destruct (block_stops_at_first_reason [op_nop] [op_break] (State.init 0) None vm0)
      as (_ & _ & Hraise).
    rewrite (Hraise (VirtualMachineError "Unknown opcode: NOP")
               (snd (run_ops [op_nop] (State.init 0) None vm0))); [reflexivity|].
    apply run_result. vm_compute. reflexivity.
Defined.

(** Loading an attribute of Variable 6 of [vm0] reports nothing. *)
Lemma load_attr_of_nothing_is_silent_witness :
  exists vm',
    load_attr (State.init 0) 6 "foo" vm0
      = (Ok (State.change_cfg_node 0 (State.init 0), 8), vm') /\
    errorlog vm' = [].
Proof.
  destruct (load_attr_of_nothing_is_silent (State.init 0) 6 "foo" vm0)
    as (_ & vm' & Hload & Hlog & _).
  - vm_compute. reflexivity.
  - exists vm'. split; [exact Hload|]. rewrite Hlog. vm_compute. reflexivity.
Defined.

(** Joining the root node of [vm0] with itself makes node 1, a successor of
    the root. *)
Lemma join_cfg_nodes_connects_witness :
  exists vm',
    join_cfg_nodes [0; 0] vm0 = (Ok 1, vm') /\
    has_edge (program vm') 0 1 /\ same_but_nodes vm0 vm'.
Proof.
  destruct (join_cfg_nodes_connects [0; 0] vm0) as (_ & _ & Hjoin).
  destruct Hjoin as (vm' & Hrun & _ & Hall & _ & Hsame).
  - simpl. lia.
  - reflexivity.
  - repeat constructor.
  - exists vm'. split_and!; [exact Hrun| |exact Hsame].
    by apply Forall_cons_1 in Hall as [Hedge _].
Defined.

(** [x + y] in [vm0] leaves one value in place of the two; on an empty
    stack there is nothing to add. *)
Lemma binary_operators_pop_two_push_one_witness :
  binary_operator (State.init 0) "__add__" vm0 = (Raise IndexError, vm0) /\
  exists rest x y r,
    [3; 4] = rest ++ [x; y] /\
    moved_with_stack (State.push [3; 4] (State.init 0)) (rest ++ [r])
      (State.push [9] (State.init 0)).
Proof.
  split.
  - destruct (binary_operators_pop_two_push_one (State.init 0) "__add__" vm0)
      as [Hshort _].
    apply Hshort. simpl. lia.
  - destruct (binary_operators_pop_two_push_one (State.push [3; 4] (State.init 0))
                "__add__" vm0) as [_ Heffect].
    apply (Heffect (State.push [9] (State.init 0))
             (snd (binary_operator (State.push [3; 4] (State.init 0)) "__add__" vm0))).
    left. apply run_result. vm_compute. reflexivity.
Defined.

(** A unary operator on [x] of [vm0] leaves one value in place of it. *)
Lemma unary_operator_pops_one_pushes_one_witness :
  unary_operator (State.init 0) "__add__" vm0 = (Raise IndexError, vm0) /\
  exists rest x r,
    [3] = rest ++ [x] /\
    moved_with_stack (State.push [3] (State.init 0)) (rest ++ [r])
      (State.push [9] (State.init 0)).
Proof.
  split.
  - destruct (unary_operator_pops_one_pushes_one (State.init 0) "__add__" vm0)
      as [Hshort _].
    apply Hshort. reflexivity.
  - destruct (unary_operator_pops_one_pushes_one (State.push [3] (State.init 0))
                "__add__" vm0) as [_ Heffect].
    apply (Heffect (State.push [9] (State.init 0))
             (snd (unary_operator (State.push [3] (State.init 0)) "__add__" vm0))).
    apply run_result. vm_compute. reflexivity.
Defined.

(** Four values on the stack: every rotation comes back to them. *)
Lemma rotations_cycle_witness :
  (let* s1 := byte_ROT_TWO (State.push [1; 2; 3; 4] (State.init 0)) in
   byte_ROT_TWO s1) vm0 = (Ok (State.push [1; 2; 3; 4] (State.init 0)), vm0) /\
  (let* s1 := byte_ROT_THREE (State.push [1; 2; 3; 4] (State.init 0)) in
   let* s2 := byte_ROT_THREE s1 in
   byte_ROT_THREE s2) vm0 = (Ok (State.push [1; 2; 3; 4] (State.init 0)), vm0) /\
  (let* s1 := byte_ROT_FOUR (State.push [1; 2; 3; 4] (State.init 0)) in
   let* s2 := byte_ROT_FOUR s1 in
   let* s3 := byte_ROT_FOUR s2 in
   byte_ROT_FOUR s3) vm0 = (Ok (State.push [1; 2; 3; 4] (State.init 0)), vm0).
Proof.
  destruct (rotations_cycle (State.push [1; 2; 3; 4] (State.init 0)) vm0)
    as (H2 & H3 & H4).
  split_and!; [apply H2|apply H3|apply H4]; simpl; lia.
Defined.

(** DUP_TOPX 2 on the stack [3; 4]. *)
Lemma dup_topx_copies_the_top_witness :
  byte_DUP_TOPX (State.push [3; 4] (State.init 0)) op_dup2 vm0
    = (Ok (with_stack ([] ++ [3; 4] ++ [3; 4]) (State.push [3; 4] (State.init 0))), vm0) /\
  byte_DUP_TOPX (State.push [3; 4] (State.init 0)) op_dup2 vm0
    = byte_DUP_TOP_TWO (State.push [3; 4] (State.init 0)) vm0 /\
  byte_DUP_TOPX (State.push [3; 4] (State.init 0))
      (mkOpcode 0 "DUP_TOPX" (Some 1) 1 0 true) vm0
    = byte_DUP_TOP (State.push [3; 4] (State.init 0)) vm0 /\
  (let* s1 := byte_DUP_TOP (State.push [3; 4] (State.init 0)) in byte_POP_TOP s1) vm0
    = (Ok (State.push [3; 4] (State.init 0)), vm0).
Proof.
  destruct (dup_topx_copies_the_top (State.push [3; 4] (State.init 0)) op_dup2 vm0)
    as (Hcopy & _ & Htwo & Hpop).
  destruct (dup_topx_copies_the_top (State.push [3; 4] (State.init 0))
              (mkOpcode 0 "DUP_TOPX" (Some 1) 1 0 true) vm0) as (_ & Hone & _).
  split_and!.
  - apply (Hcopy [] [3; 4]); reflexivity.
  - apply Htwo. reflexivity.
  - apply Hone. reflexivity.
  - apply Hpop. discriminate.
Defined.

(** On the empty stack every one of these opcodes fails, except POP_TOP,
    which drops the top value of a stack that has one. *)
Lemma stack_underflow_outcomes_witness :
  byte_POP_TOP (State.init 0) vm0 = (Ok (State.init 0), vm0) /\
  byte_DUP_TOP (State.init 0) vm0 = (Raise IndexError, vm0) /\
  byte_POP_TOP (State.push [3; 4] (State.init 0)) vm0
    = (Ok (State.push [3] (State.init 0)), vm0) /\
  byte_ROT_TWO (State.init 0) vm0 = (Raise IndexError, vm0) /\
  byte_ROT_THREE (State.init 0) vm0 = (Raise IndexError, vm0) /\
  byte_ROT_FOUR (State.init 0) vm0 = (Raise IndexError, vm0) /\
  byte_DUP_TOPX (State.init 0) op_dup2 vm0 = (Raise IndexError, vm0) /\
  byte_DUP_TOPX (State.init 0) op_nop vm0 = (Raise AttributeError, vm0).
Proof.
  destruct (stack_underflow_outcomes (State.init 0) vm0)
    as (H1 & _ & H2 & H3 & H4 & Hx & Hnone).
  destruct (stack_underflow_outcomes (State.push [3; 4] (State.init 0)) vm0)
    as (_ & Hpop & _).
  split_and!.
  - apply H1. reflexivity.
  - apply H1. reflexivity.
  - apply (Hpop [3] 4). reflexivity.
  - apply H2. simpl. lia.
  - apply H3. simpl. lia.
  - apply H4. simpl. lia.
  - apply (Hx op_dup2 2); [reflexivity|simpl; lia].
  - apply Hnone. reflexivity.
Defined.

(** Two positional defaults and one annotation under Python 2. *)
Lemma pop_extra_function_args_py2_witness :
  _pop_extra_function_args (State.push [1; 2; 3; 4] (State.init 0)) (2 + 65536 * 1) vm0
    = (Ok (with_stack [1] (State.push [1; 2; 3; 4] (State.init 0)), [2; 3], [], [4]), vm0).
Proof.
  apply (pop_extra_function_args_py2 (State.push [1; 2; 3; 4] (State.init 0)) vm0
           [1] [2; 3] [4] 2 1); try reflexivity; lia.
Defined.

(** One positional default, one keyword default and one annotation under
    Python 3; and the failed assertion under a version that is neither. *)
Lemma pop_extra_function_args_py3_witness :
  @_pop_extra_function_args py3 (State.push [1; 2; 3; 4; 5] (State.init 0))
     (1 + 256 * 1 + 65536 * 1) vm0
    = (Ok (with_stack [1] (State.push [1; 2; 3; 4; 5] (State.init 0)), [2], [3; 4], [5]),
       vm0) /\
  @_pop_extra_function_args py4 (State.init 0) 0 vm0 = (Raise AssertionError, vm0).
Proof.
  split.
  - destruct (@pop_extra_function_args_py3 py3
                (State.push [1; 2; 3; 4; 5] (State.init 0)) vm0 [1] [2] [3; 4] [5] 1 1 1)
      as [Hpop _].
    apply Hpop; try reflexivity; lia.
  - destruct (@pop_extra_function_args_py3 py4 (State.init 0) vm0 [] [] [] [] 0 0 0)
      as [_ Hother].
    apply Hother; discriminate.
Defined.

(** Returning the unknown value (Variable 4) from frame 0 of [vm0], whose
    return Variable is 6: afterwards Variable 6 holds an unknown value. *)
Lemma return_value_joins_return_variable_witness :
  byte_RETURN_VALUE (State.init 0) vm0 = (Raise IndexError, vm0) /\
  exists vm',
    byte_RETURN_VALUE (State.push [4] (State.init 0)) vm0
      = (Ok (State.set_why "return" (with_stack [] (State.push [4] (State.init 0)))), vm') /\
    Unknown ∈ var_data (program vm') 6 /\ errorlog vm' = errorlog vm0.
Proof.
  split.
  - destruct (return_value_joins_return_variable (State.init 0) vm0) as [Hempty _].
    apply Hempty. reflexivity.
  - destruct (return_value_joins_return_variable (State.push [4] (State.init 0)) vm0)
      as [_ Hret].
    destruct (Hret [] 4 0 (mkFrame code_recursive 0 0 None [] None ∅ 6 (Some op_add)))
      as (vm' & Hrun & Hdata & _ & Hlog & _).
    + reflexivity.
    + reflexivity.
    + reflexivity.
    + vm_compute. lia.
    + exists vm'. split_and!; [exact Hrun| |exact Hlog].
      apply Hdata. right. vm_compute. left.
Defined.

(** GET_ITER on the unknown value of [vm0], which can be iterated in no
    way: one attribute error, for [__iter__]; on the Variable without
    bindings: none. *)
Lemma get_iter_reports_missing_iter_witness :
  (exists vm3,
     byte_GET_ITER (State.push [4] (State.init 0)) vm0
       = (Ok (State.push [9] (State.change_cfg_node 0
                                (with_stack [] (State.push [4] (State.init 0))))), vm3) /\
     errorlog vm3 = [attribute_error op_add 4 "__iter__"]) /\
  (exists vm3,
     byte_GET_ITER (State.push [6] (State.init 0)) vm0
       = (Ok (State.push [9] (State.change_cfg_node 0
                                (with_stack [] (State.push [6] (State.init 0))))), vm3) /\
     errorlog vm3 = []).
Proof.
  assert (Bindings (program (with_attr_variable vm0 4 "__iter__")) 4 0
          = [((4, 0), Unknown)]) as Hb1 by (vm_compute; reflexivity).
  assert (Bindings (program (with_attr_variable (vm_no_iter 4 [Unknown]) 4 "__getitem__"))
            4 0 = [((4, 0), Unknown)]) as Hb2 by (vm_compute; reflexivity).
  assert (Bindings (program (with_attr_variable vm0 6 "__iter__")) 6 0 = []) as Hb3
    by (vm_compute; reflexivity).
  assert (Bindings (program (with_attr_variable (vm_no_iter 6 []) 6 "__getitem__")) 6 0
          = []) as Hb4 by (vm_compute; reflexivity).
  assert (length (variables (program (vm_no_getitem 4 [Unknown]))) = 9) as Hlen1
    by (vm_compute; reflexivity).
  assert (length (variables (program (vm_no_getitem 6 []))) = 9) as Hlen2
    by (vm_compute; reflexivity).
  assert (errorlog (vm_no_getitem 4 [Unknown]) = []) as Hlog1 by (vm_compute; reflexivity).
  assert (errorlog (vm_no_getitem 6 []) = []) as Hlog2 by (vm_compute; reflexivity).
  split.
  - destruct (get_iter_reports_missing_iter (State.push [4] (State.init 0)) vm0
                (vm_no_iter 4 [Unknown]) (vm_no_getitem 4 [Unknown]) [] 4)
      as [Hreport _].
    + reflexivity.
    + change (node (State.push [4] (State.init 0))) with 0. rewrite Hb1.
      eapply (attribute_absent_cons _ _ _ _ _ _ _ _ 0 None); [reflexivity|exact I|].
      apply attribute_absent_nil.
    + change (node (State.push [4] (State.init 0))) with 0. rewrite Hb2.
      eapply (attribute_absent_cons _ _ _ _ _ _ _ _ 0 None); [reflexivity|exact I|].
      apply attribute_absent_nil.
    + destruct (Hreport op_add) as (vm3 & Hrun & Hlog & _).
      * intros Hnil. apply (f_equal length) in Hnil. vm_compute in Hnil.
        discriminate Hnil.
      * apply self_frame_current_opcode_reads. vm_compute. reflexivity.
      * rewrite Hlen1 in Hrun. rewrite Hlog1 in Hlog.
        exists vm3. split; [exact Hrun|exact Hlog].
  - destruct (get_iter_reports_missing_iter (State.push [6] (State.init 0)) vm0
                (vm_no_iter 6 []) (vm_no_getitem 6 []) [] 6)
      as [_ Hsilent].
    + reflexivity.
    + change (node (State.push [6] (State.init 0))) with 0. rewrite Hb3.
      apply attribute_absent_nil.
    + change (node (State.push [6] (State.init 0))) with 0. rewrite Hb4.
      apply attribute_absent_nil.
    + destruct Hsilent as (vm3 & Hrun & Hlog & _).
      * vm_compute. reflexivity.
      * rewrite Hlen2 in Hrun. rewrite Hlog2 in Hlog.
        exists vm3. split; [exact Hrun|exact Hlog].
Defined.

(** JUMP_FORWARD in frame 0 of [vm0], at the root node: node 1 is made for
    the target, offset 1. *)
Lemma jump_forks_a_node_witness :
  exists vm',
    byte_JUMP_FORWARD (State.init 0) op_jump vm0 = (Ok (State.init 0), vm') /\
    entry_state vm' 0 1 = Some (State.change_cfg_node 1 (State.init 0)) /\
    has_edge (program vm') 0 1.
Proof.
  destruct (jump_forks_a_node (State.init 0) op_jump vm0 0
              (mkFrame code_recursive 0 0 None [] None ∅ 6 (Some op_add)))
    as (vm' & Hrun & _ & Hentry & Hedge & _).
  - reflexivity.
  - reflexivity.
  - reflexivity.
  - reflexivity.
  - vm_compute. lia.
  - exists vm'. split_and!; [exact Hrun|exact Hentry|exact Hedge].
Defined.

(** BREAK_LOOP and CONTINUE_LOOP before a NOP, in frame 0 of [vm0]. *)
Lemma break_and_continue_end_the_block_witness :
  (exists vm',
     run_ops [op_break; op_nop] (State.init 0) None vm0
       = (Ok (State.set_why "break" (State.init 0), Some op_break), vm') /\
     errorlog vm' = errorlog vm0) /\
  (exists vm',
     run_ops [op_continue; op_nop] (State.init 0) None vm0
       = (Ok (State.set_why "continue" (State.init 0), Some op_continue), vm') /\
     errorlog vm' = errorlog vm0).
Proof.
  split.
  - destruct (break_and_continue_end_the_block op_break [op_nop] (State.init 0) None vm0 0)
      as [Hbreak _]; [reflexivity|].
    destruct Hbreak as (vm' & Hrun & _ & Hlog & _); [reflexivity|].
    exists vm'. split; [exact Hrun|exact Hlog].
  - destruct (break_and_continue_end_the_block op_continue [op_nop] (State.init 0) None
                vm0 0) as [_ Hcont]; [reflexivity|].
    destruct Hcont as (vm' & Hrun & _ & Hlog & _); [reflexivity|].
    exists vm'. split; [exact Hrun|exact Hlog].
Defined.

(** Variable 7 of [vm_mixed] is a class that has [foo] or an unknown value
    that has not: the attribute is loaded, and no error is reported. *)
Lemma found_attribute_is_not_an_error_witness :
  load_attr (State.init 0) 7 "foo" vm_mixed
    = (Ok (State.change_cfg_node 0 (State.init 0), 8), vm_foo_done) /\
  errorlog vm_foo_done = [].
Proof.
  assert (Bindings (program (with_attr_variable vm_mixed 7 "foo")) 7 0
          = [((7, 0), Class "foo"); ((7, 1), Unknown)]) as Hb by (vm_compute; reflexivity).
  assert (length (variables (program vm_mixed)) = 8) as Hlen by (vm_compute; reflexivity).
  destruct (found_attribute_is_not_an_error (State.init 0) 7 "foo" vm_mixed vm_foo_done [0])
    as (_ & _ & Hone).
  - change (node (State.init 0)) with 0. rewrite Hb, Hlen.
    apply (attribute_lookups_found _ _ _ _ _ _ _ _ vm_foo_looked_up _ 0 9 []).
    + apply run_result. vm_compute. reflexivity.
    + intros Hnil. apply (f_equal length) in Hnil. vm_compute in Hnil.
      discriminate Hnil.
    + eapply (attribute_lookups_absent _ _ _ _ _ _ _ _ _ _ 0 None);
        [reflexivity|exact I|].
      apply attribute_lookups_nil.
  - discriminate.
  - rewrite Hlen in Hone. split; [by apply Hone|].
    vm_compute. reflexivity.
Defined.

(** Variable 7 of [vm_subscriptable] has [__getitem__]: the subscript is the
    result of calling it; a stack of fewer than two values does not unpack. *)
Lemma successful_subscript_is_a_binary_operator_witness :
  byte_BINARY_SUBSCR (State.init 0) vm0 = (Raise ValueError, vm0) /\
  byte_BINARY_SUBSCR (State.push [4] (State.init 0)) vm0 = (Raise ValueError, vm0) /\
  byte_BINARY_SUBSCR (State.push [7; 4] (State.init 0)) vm_subscriptable
    = (Ok (State.push [10] (State.init 0)),
       snd (binary_operator (State.push [7; 4] (State.init 0)) "__getitem__"
              vm_subscriptable)).
Proof.
  split_and!.
  - destruct (successful_subscript_is_a_binary_operator (State.init 0) vm0)
      as (Hshort & _).
    apply Hshort. simpl. lia.
  - destruct (successful_subscript_is_a_binary_operator
                (State.push [4] (State.init 0)) vm0) as (Hshort & _).
    apply Hshort. simpl. lia.
  - destruct (successful_subscript_is_a_binary_operator
                (State.push [7; 4] (State.init 0)) vm_subscriptable) as (_ & Hok).
    apply (Hok _ _ 10).
    + apply run_result. vm_compute. reflexivity.
    + reflexivity.
    + intros Hnil. apply (f_equal length) in Hnil. vm_compute in Hnil.
      discriminate Hnil.
Defined.
